(** * BioCHP financial model: the computational engine of [src/App.jsx]

    This development embeds the two pure entry points of the engine,
    [runFinancialModel] and [runSensitivity], and settles the properties the
    specification states about them.  It also embeds the parts of the
    application around the engine that compute: the clamp of a committed
    slider edit, the scenario presets, the status of the metric cards and
    the rows of the cash-flow chart.

    Number model.  The source computes with JavaScript numbers.  The embedding
    reads every arithmetic operation over the real numbers: [+ - * /] are the
    field operations of [R], [Math.pow] with a loop counter as exponent is
    [pow], [Math.pow] with a negative integer exponent is [powerRZ],
    [Math.pow] with a real exponent is [Rpower], [Math.log] is [ln],
    [Math.floor] is [Int_part], [Math.min]/[Math.max]/[Math.abs] are
    [Rmin]/[Rmax]/[Rabs] (or [Z.min] on counts).  Rounding, overflow, NaN and
    the infinities are outside this reading; statements carry the hypotheses
    ([0 < LR], [-100 < r_disc], ...) under which no source operation leaves
    the domain on which the real reading and the source agree.

    Inputs that the control surface only ever sets to whole numbers and that
    the source uses as loop bounds or year counts ([N_units], [T_loan],
    [T_project], [Y_start]) are integers; every other input is a real. *)

From Stdlib Require Import String.
From Stdlib Require Import Reals Lra Lia ZArith List Bool.
From Stdlib Require Import Permutation Sorted.
Import ListNotations.

Open Scope R_scope.

(** ** Comparisons and small helpers *)

(** [x < y] as the boolean a JavaScript condition yields. *)
Definition Rltb (x y : R) : bool := if Rlt_dec x y then true else false.

(** [x <= y] as a boolean. *)
Definition Rleb (x y : R) : bool := if Rle_dec x y then true else false.

(** [Math.floor]. *)
Definition js_floor (x : R) : Z := Int_part x.

(** The integers [lo, lo+1, ..., hi] a [for (n = lo; n <= hi; n++)] visits. *)
Definition zrange (lo hi : Z) : list Z :=
  map (fun k => (lo + Z.of_nat k)%Z) (seq 0 (Z.to_nat (hi - lo + 1))).

(** [arr[k] || 0] on an array of numbers: an index outside the array reads
    [undefined], which [||] replaces by [0]; an entry that is [0] stays [0]. *)
Definition index_or_0 (arr : list R) (k : Z) : R :=
  if (k <? 0)%Z then 0 else nth (Z.to_nat k) arr 0.

(** [Math.min(...xs)] on a non-empty array. *)
Definition list_min (xs : list R) : option R :=
  match xs with
  | [] => None
  | x :: rest => Some (fold_left Rmin rest x)
  end.

(** ** Data model *)

Record Inputs := mkInputs {
  P_elec : R; P_therm : R; f_avail : R; F_tpd : R; N_units : Z;
  R_power : R; f_power_util : R; r_power : R;
  R_therm : R; f_therm_util : R; r_therm : R;
  R_tipping : R; W_tpy : R; r_tipping : R;
  CC_methane : R; CC_fuel : R; CC_emissions : R; P_carbon : R; r_carbon : R;
  C_cust_power : R; C_cust_therm : R; C_cust_waste : R;
  C_biochp : R; C_enexfuel : R; C_install : R; C_site : R;
  R_maint : R; C_fuel_process : R; C_insurance : R; C_acct_mgmt : R;
  r_maint : R; r_fuel : R;
  f_equity : R; r_debt : R; T_loan : Z; f_loan_fees : R;
  r_disc : R; T_project : Z; Y_start : Z; LR : R; units_per_year : R
}.

(** One entry of the [years] array. *)
Record YearRecord := mkYear {
  yr_y : nat; yr_year : Z; yr_N_deployed : Z;
  yr_R_pwr : R; yr_R_thrm : R; yr_R_tip : R; yr_R_crb : R; yr_R_total : R;
  yr_OPEX : R; yr_EBITDA : R; yr_DS : R; yr_DSCR : option R;
  yr_capex_year : R; yr_CF : R; yr_DCF : R; yr_cumNPV : R
}.

(** The three messages [warnings.push] can add.  The first is a template
    string that quotes the discount rate; the constructor keeps that rate. *)
Inductive Warning :=
| NPV_negative (rate : R)
| DSCR_below_1
| DSCR_below_covenant.

(** ** runFinancialModel, constant by constant *)

Section FinancialModel.

Variable inputs : Inputs.

Definition hours_yr : R := 8760 * f_avail inputs.
Definition E_power_yr : R := P_elec inputs * hours_yr.
Definition E_therm_yr : R := P_therm inputs * hours_yr.
Definition F_tpy : R := F_tpd inputs * 365 * f_avail inputs.
Definition CC_net : R :=
  Rmax 0 (CC_methane inputs + CC_fuel inputs - CC_emissions inputs).

(** Customer savings (per unit, year 1). *)
Definition C_current_power : R := E_power_yr * f_power_util inputs * C_cust_power inputs.
Definition C_current_therm : R := E_therm_yr * f_therm_util inputs * C_cust_therm inputs.
Definition C_current_waste : R := Rmin F_tpy (W_tpy inputs) * C_cust_waste inputs.
Definition C_current_total : R := C_current_power + C_current_therm + C_current_waste.

Definition C_enexor_power : R := E_power_yr * f_power_util inputs * R_power inputs.
Definition C_enexor_therm : R := E_therm_yr * f_therm_util inputs * R_therm inputs.
Definition C_enexor_waste : R := Rmin F_tpy (W_tpy inputs) * R_tipping inputs.
Definition C_enexor_total : R := C_enexor_power + C_enexor_therm + C_enexor_waste.

Definition savings_annual : R := C_current_total - C_enexor_total.
Definition savings_pct : R :=
  if Rltb 0 C_current_total then savings_annual / C_current_total * 100 else 0.

(** CAPEX and the learning curve. *)
Definition CAPEX_unit1 : R := C_biochp inputs + C_enexfuel inputs + C_install inputs.
Definition lr_exp : R := ln (LR inputs) / ln 2.

(** [for (n = 1; n <= N_units; n++) unit_capex.push(...)]. *)
Definition unit_capex : list R :=
  map (fun n => CAPEX_unit1 * Rpower (IZR n) lr_exp) (zrange 1 (N_units inputs)).

Definition capex_fleet_total : R := fold_left Rplus unit_capex 0.

(** Debt service. *)
Definition CAPEX_debt : R := capex_fleet_total * (1 - f_equity inputs).
Definition loan_amount : R := CAPEX_debt * (1 + f_loan_fees inputs / 100).

Definition r_monthly : R := r_debt inputs / 100 / 12.
Definition n_months : Z := (T_loan inputs * 12)%Z.
Definition monthly_payment : R :=
  loan_amount * r_monthly / (1 - powerRZ (1 + r_monthly) (- n_months)).

Definition annual_debt_service : R :=
  if Rltb 0 CAPEX_debt && (0 <? T_loan inputs)%Z && Rltb 0 (r_debt inputs)
  then monthly_payment * 12
  else if Rltb 0 CAPEX_debt && (0 <? T_loan inputs)%Z
       then loan_amount / IZR (T_loan inputs)
       else 0.

(** Year-by-year projection. *)

(** Deployed units in project year [y], and in the year before. *)
Definition N_deployed (y : nat) : Z :=
  Z.min (N_units inputs) (js_floor (INR y * units_per_year inputs) + 1).

Definition N_prev (y : nat) : Z :=
  if Nat.eqb y 0 then 0%Z
  else Z.min (N_units inputs) (js_floor ((INR y - 1) * units_per_year inputs) + 1).

(** [for (n = N_prev + 1; n <= N_deployed; n++) capex_year += unit_capex[n - 1] || 0]. *)
Definition capex_year (y : nat) : R :=
  fold_left (fun acc n => acc + index_or_0 unit_capex (n - 1))
            (zrange (N_prev y + 1) (N_deployed y)) 0.

(** Revenue. *)
Definition esc_power (y : nat) : R := (1 + r_power inputs / 100) ^ y.
Definition esc_therm (y : nat) : R := (1 + r_therm inputs / 100) ^ y.
Definition esc_tip (y : nat) : R := (1 + r_tipping inputs / 100) ^ y.
Definition esc_carbon (y : nat) : R := (1 + r_carbon inputs / 100) ^ y.

Definition R_pwr (y : nat) : R :=
  IZR (N_deployed y) * E_power_yr * f_power_util inputs * R_power inputs * esc_power y.
Definition R_thrm (y : nat) : R :=
  IZR (N_deployed y) * E_therm_yr * f_therm_util inputs * R_therm inputs * esc_therm y.
Definition W_tipped (y : nat) : R :=
  Rmin (IZR (N_deployed y) * F_tpy) (W_tpy inputs).
Definition R_tip (y : nat) : R := W_tipped y * R_tipping inputs * esc_tip y.
Definition R_crb (y : nat) : R :=
  IZR (N_deployed y) * CC_net * P_carbon inputs * esc_carbon y.
Definition R_total (y : nat) : R := R_pwr y + R_thrm y + R_tip y + R_crb y.

(** OPEX. *)
Definition esc_maint (y : nat) : R := (1 + r_maint inputs / 100) ^ y.
Definition esc_fuel (y : nat) : R := (1 + r_fuel inputs / 100) ^ y.
Definition esc_fixed (y : nat) : R := 1.03 ^ y.

Definition C_maint (y : nat) : R :=
  IZR (N_deployed y) * E_power_yr * R_maint inputs * esc_maint y.
Definition C_fuel (y : nat) : R :=
  IZR (N_deployed y) * F_tpy * C_fuel_process inputs * esc_fuel y.
Definition C_fixed (y : nat) : R :=
  IZR (N_deployed y) * (C_insurance inputs + C_acct_mgmt inputs) * esc_fixed y.
Definition OPEX (y : nat) : R := C_maint y + C_fuel y + C_fixed y.

Definition EBITDA (y : nat) : R := R_total y - OPEX y.
Definition DS (y : nat) : R :=
  if (Z.of_nat y <? T_loan inputs)%Z then annual_debt_service else 0.
Definition DSCR (y : nat) : option R :=
  if Rltb 0 (DS y) then Some (EBITDA y / DS y) else None.
Definition CF (y : nat) : R := R_total y - OPEX y - capex_year y - DS y.

Definition discount_factor (y : nat) : R := (1 + r_disc inputs / 100) ^ y.
Definition DCF (y : nat) : R := CF y / discount_factor y.

(** The variables the year loop mutates. *)
Record LoopState := mkLoop {
  years : list YearRecord;
  cumulative_dcf : R;
  cumulative_cf : R;
  payback_disc : option nat;
  payback_simple : option nat
}.

Definition loop_init : LoopState :=
  mkLoop [] 0 0 None None.

(** [if (payback === null && y > 0 && cumulative >= 0) payback = y]. *)
Definition payback_update (payback : option nat) (y : nat) (cumulative : R)
  : option nat :=
  match payback with
  | Some p => Some p
  | None => if Nat.ltb 0 y && Rleb 0 cumulative then Some y else None
  end.

(** The object pushed on [years] for project year [y]; [cum_dcf] is the value
    of [cumulative_dcf] after this year's update. *)
Definition year_record (y : nat) (cum_dcf : R) : YearRecord :=
  mkYear y (Y_start inputs + Z.of_nat y) (N_deployed y)
    (R_pwr y) (R_thrm y) (R_tip y) (R_crb y) (R_total y)
    (OPEX y) (EBITDA y) (DS y) (DSCR y) (capex_year y) (CF y) (DCF y)
    cum_dcf.

(** An entry of [years] that is the record of its own year index. *)
Definition is_year_record (yr : YearRecord) : Prop :=
  exists cum : R, yr = year_record (yr_y yr) cum.

(** One pass of the loop body for project year [y]. *)
Definition year_step (st : LoopState) (y : nat) : LoopState :=
  let cum_dcf := cumulative_dcf st + DCF y in
  let cum_cf := cumulative_cf st + CF y in
  mkLoop
    (years st ++ [year_record y cum_dcf])
    cum_dcf cum_cf
    (payback_update (payback_disc st) y cum_dcf)
    (payback_update (payback_simple st) y cum_cf).

(** [for (let y = 0; y <= T_project; y++)]: years [0 .. T_project], none when
    [T_project] is negative. *)
Definition project_years : list nat := seq 0 (Z.to_nat (T_project inputs + 1)).

Definition year_loop : LoopState := fold_left year_step project_years loop_init.

Definition NPV : R := cumulative_dcf year_loop.

(** IRR by bisection. *)

(** [for (const yr of years) npv_test += yr.CF / Math.pow(1 + mid, yr.y)]. *)
Definition npv_test (yrs : list YearRecord) (mid : R) : R :=
  fold_left (fun acc yr => acc + yr_CF yr / (1 + mid) ^ yr_y yr) yrs 0.

(** The bisection loop; [iters] is the number of passes still allowed and the
    result is the final bracket [(lo, hi)]. *)
Fixpoint irr_loop (yrs : list YearRecord) (iters : nat) (lo hi : R) : R * R :=
  match iters with
  | O => (lo, hi)
  | S iters' =>
      let mid := (lo + hi) / 2 in
      let lo' := if Rltb 0 (npv_test yrs mid) then mid else lo in
      let hi' := if Rltb 0 (npv_test yrs mid) then hi else mid in
      if Rltb (Rabs (hi' - lo')) 0.0001 then (lo', hi')
      else irr_loop yrs iters' lo' hi'
  end.

Definition irr_of (yrs : list YearRecord) : option R :=
  let '(lo, hi) := irr_loop yrs 100 (-0.5) 2.0 in
  if Rltb 0.01 (Rabs (lo - (-0.5))) && Rltb 0.01 (Rabs (hi - 2.0))
  then Some ((lo + hi) / 2)
  else None.

Definition IRR : option R := irr_of (years year_loop).

(** DSCR minimum. *)
Definition dscr_values : list R :=
  flat_map (fun yr => match yr_DSCR yr with Some d => [d] | None => [] end)
           (years year_loop).

Definition DSCR_min : option R := list_min dscr_values.

(** [years[1] || years[0]]; [None] is [undefined]. *)
Definition yr1 : option YearRecord :=
  match nth_error (years year_loop) 1 with
  | Some yr => Some yr
  | None => nth_error (years year_loop) 0
  end.

(** [yr1.N_deployed > 0 ? v / yr1.N_deployed : 0]. *)
Definition per_unit (yr : YearRecord) (v : R) : R :=
  if (0 <? yr_N_deployed yr)%Z then v / IZR (yr_N_deployed yr) else 0.

(** Warnings, in the order they are pushed. *)
Definition warnings : list Warning :=
  (if Rltb NPV 0 then [NPV_negative (r_disc inputs)] else []) ++
  (match DSCR_min with
   | Some d => if Rltb d 1.0 then [DSCR_below_1] else []
   | None => []
   end) ++
  (match DSCR_min with
   | Some d => if Rltb d 1.25 && Rleb 1.0 d then [DSCR_below_covenant] else []
   | None => []
   end).

End FinancialModel.

(** The object [runFinancialModel] returns. *)
Record ModelResult := mkResult {
  res_hours_yr : R; res_E_power_yr : R; res_E_therm_yr : R; res_F_tpy : R;
  res_CC_net : R;
  res_C_current_total : R; res_C_enexor_total : R;
  res_savings_annual : R; res_savings_pct : R;
  res_C_current_power : R; res_C_current_therm : R; res_C_current_waste : R;
  res_C_enexor_power : R; res_C_enexor_therm : R; res_C_enexor_waste : R;
  res_CAPEX_unit1 : R; res_capex_fleet_total : R; res_unit_capex : list R;
  res_loan_amount : R; res_annual_debt_service : R;
  res_NPV : R; res_IRR : option R;
  res_payback_disc : option nat; res_payback_simple : option nat;
  res_DSCR_min : option R;
  res_R_per_unit : R; res_R_per_unit_power : R; res_R_per_unit_therm : R;
  res_R_per_unit_tip : R; res_R_per_unit_carbon : R;
  res_years : list YearRecord; res_warnings : list Warning;
  res_yr1_revenue : R; res_yr1_opex : R; res_yr1_ebitda : R
}.

(** [runFinancialModel(inputs)].  The only operation of the source that can
    throw is [yr1.N_deployed] when [years] is empty, that is when the year
    loop never runs; [None] stands for that exception. *)
Definition runFinancialModel (inputs : Inputs) : option ModelResult :=
  match yr1 inputs with
  | None => None
  | Some y1 =>
      Some (mkResult
        (hours_yr inputs) (E_power_yr inputs) (E_therm_yr inputs) (F_tpy inputs)
        (CC_net inputs)
        (C_current_total inputs) (C_enexor_total inputs)
        (savings_annual inputs) (savings_pct inputs)
        (C_current_power inputs) (C_current_therm inputs) (C_current_waste inputs)
        (C_enexor_power inputs) (C_enexor_therm inputs) (C_enexor_waste inputs)
        (CAPEX_unit1 inputs) (capex_fleet_total inputs) (unit_capex inputs)
        (loan_amount inputs) (annual_debt_service inputs)
        (NPV inputs) (IRR inputs)
        (payback_disc (year_loop inputs)) (payback_simple (year_loop inputs))
        (DSCR_min inputs)
        (per_unit y1 (yr_R_total y1)) (per_unit y1 (yr_R_pwr y1))
        (per_unit y1 (yr_R_thrm y1)) (per_unit y1 (yr_R_tip y1))
        (per_unit y1 (yr_R_crb y1))
        (years (year_loop inputs)) (warnings inputs)
        (yr_R_total y1) (yr_OPEX y1) (yr_EBITDA y1))
  end.

(** ** runSensitivity *)

(** The keys of the eight tracked parameters. *)
Inductive ParamKey :=
| K_R_power | K_R_therm | K_R_tipping | K_P_carbon
| K_f_avail | K_C_biochp | K_C_fuel_process | K_r_disc.

(** [baseInputs[p.key]]. *)
Definition get_key (k : ParamKey) (i : Inputs) : R :=
  match k with
  | K_R_power => R_power i
  | K_R_therm => R_therm i
  | K_R_tipping => R_tipping i
  | K_P_carbon => P_carbon i
  | K_f_avail => f_avail i
  | K_C_biochp => C_biochp i
  | K_C_fuel_process => C_fuel_process i
  | K_r_disc => r_disc i
  end.

(** [{ ...baseInputs, [p.key]: v }]: a copy with one field replaced. *)
Definition set_key (k : ParamKey) (v : R) (i : Inputs) : Inputs :=
  match k with
  | K_R_power =>
      mkInputs
       (P_elec i) (P_therm i) (f_avail i) (F_tpd i) (N_units i) v
       (f_power_util i) (r_power i) (R_therm i) (f_therm_util i) (r_therm i)
       (R_tipping i) (W_tpy i) (r_tipping i) (CC_methane i) (CC_fuel i)
       (CC_emissions i) (P_carbon i) (r_carbon i) (C_cust_power i)
       (C_cust_therm i) (C_cust_waste i) (C_biochp i) (C_enexfuel i)
       (C_install i) (C_site i) (R_maint i) (C_fuel_process i) (C_insurance i)
       (C_acct_mgmt i) (r_maint i) (r_fuel i) (f_equity i) (r_debt i)
       (T_loan i) (f_loan_fees i) (r_disc i) (T_project i) (Y_start i) (LR i)
       (units_per_year i)
  | K_R_therm =>
      mkInputs
       (P_elec i) (P_therm i) (f_avail i) (F_tpd i) (N_units i) (R_power i)
       (f_power_util i) (r_power i) v (f_therm_util i) (r_therm i)
       (R_tipping i) (W_tpy i) (r_tipping i) (CC_methane i) (CC_fuel i)
       (CC_emissions i) (P_carbon i) (r_carbon i) (C_cust_power i)
       (C_cust_therm i) (C_cust_waste i) (C_biochp i) (C_enexfuel i)
       (C_install i) (C_site i) (R_maint i) (C_fuel_process i) (C_insurance i)
       (C_acct_mgmt i) (r_maint i) (r_fuel i) (f_equity i) (r_debt i)
       (T_loan i) (f_loan_fees i) (r_disc i) (T_project i) (Y_start i) (LR i)
       (units_per_year i)
  | K_R_tipping =>
      mkInputs
       (P_elec i) (P_therm i) (f_avail i) (F_tpd i) (N_units i) (R_power i)
       (f_power_util i) (r_power i) (R_therm i) (f_therm_util i) (r_therm i) v
       (W_tpy i) (r_tipping i) (CC_methane i) (CC_fuel i) (CC_emissions i)
       (P_carbon i) (r_carbon i) (C_cust_power i) (C_cust_therm i)
       (C_cust_waste i) (C_biochp i) (C_enexfuel i) (C_install i) (C_site i)
       (R_maint i) (C_fuel_process i) (C_insurance i) (C_acct_mgmt i)
       (r_maint i) (r_fuel i) (f_equity i) (r_debt i) (T_loan i)
       (f_loan_fees i) (r_disc i) (T_project i) (Y_start i) (LR i)
       (units_per_year i)
  | K_P_carbon =>
      mkInputs
       (P_elec i) (P_therm i) (f_avail i) (F_tpd i) (N_units i) (R_power i)
       (f_power_util i) (r_power i) (R_therm i) (f_therm_util i) (r_therm i)
       (R_tipping i) (W_tpy i) (r_tipping i) (CC_methane i) (CC_fuel i)
       (CC_emissions i) v (r_carbon i) (C_cust_power i) (C_cust_therm i)
       (C_cust_waste i) (C_biochp i) (C_enexfuel i) (C_install i) (C_site i)
       (R_maint i) (C_fuel_process i) (C_insurance i) (C_acct_mgmt i)
       (r_maint i) (r_fuel i) (f_equity i) (r_debt i) (T_loan i)
       (f_loan_fees i) (r_disc i) (T_project i) (Y_start i) (LR i)
       (units_per_year i)
  | K_f_avail =>
      mkInputs
       (P_elec i) (P_therm i) v (F_tpd i) (N_units i) (R_power i)
       (f_power_util i) (r_power i) (R_therm i) (f_therm_util i) (r_therm i)
       (R_tipping i) (W_tpy i) (r_tipping i) (CC_methane i) (CC_fuel i)
       (CC_emissions i) (P_carbon i) (r_carbon i) (C_cust_power i)
       (C_cust_therm i) (C_cust_waste i) (C_biochp i) (C_enexfuel i)
       (C_install i) (C_site i) (R_maint i) (C_fuel_process i) (C_insurance i)
       (C_acct_mgmt i) (r_maint i) (r_fuel i) (f_equity i) (r_debt i)
       (T_loan i) (f_loan_fees i) (r_disc i) (T_project i) (Y_start i) (LR i)
       (units_per_year i)
  | K_C_biochp =>
      mkInputs
       (P_elec i) (P_therm i) (f_avail i) (F_tpd i) (N_units i) (R_power i)
       (f_power_util i) (r_power i) (R_therm i) (f_therm_util i) (r_therm i)
       (R_tipping i) (W_tpy i) (r_tipping i) (CC_methane i) (CC_fuel i)
       (CC_emissions i) (P_carbon i) (r_carbon i) (C_cust_power i)
       (C_cust_therm i) (C_cust_waste i) v (C_enexfuel i) (C_install i)
       (C_site i) (R_maint i) (C_fuel_process i) (C_insurance i)
       (C_acct_mgmt i) (r_maint i) (r_fuel i) (f_equity i) (r_debt i)
       (T_loan i) (f_loan_fees i) (r_disc i) (T_project i) (Y_start i) (LR i)
       (units_per_year i)
  | K_C_fuel_process =>
      mkInputs
       (P_elec i) (P_therm i) (f_avail i) (F_tpd i) (N_units i) (R_power i)
       (f_power_util i) (r_power i) (R_therm i) (f_therm_util i) (r_therm i)
       (R_tipping i) (W_tpy i) (r_tipping i) (CC_methane i) (CC_fuel i)
       (CC_emissions i) (P_carbon i) (r_carbon i) (C_cust_power i)
       (C_cust_therm i) (C_cust_waste i) (C_biochp i) (C_enexfuel i)
       (C_install i) (C_site i) (R_maint i) v (C_insurance i) (C_acct_mgmt i)
       (r_maint i) (r_fuel i) (f_equity i) (r_debt i) (T_loan i)
       (f_loan_fees i) (r_disc i) (T_project i) (Y_start i) (LR i)
       (units_per_year i)
  | K_r_disc =>
      mkInputs
       (P_elec i) (P_therm i) (f_avail i) (F_tpd i) (N_units i) (R_power i)
       (f_power_util i) (r_power i) (R_therm i) (f_therm_util i) (r_therm i)
       (R_tipping i) (W_tpy i) (r_tipping i) (CC_methane i) (CC_fuel i)
       (CC_emissions i) (P_carbon i) (r_carbon i) (C_cust_power i)
       (C_cust_therm i) (C_cust_waste i) (C_biochp i) (C_enexfuel i)
       (C_install i) (C_site i) (R_maint i) (C_fuel_process i) (C_insurance i)
       (C_acct_mgmt i) (r_maint i) (r_fuel i) (f_equity i) (r_debt i)
       (T_loan i) (f_loan_fees i) v (T_project i) (Y_start i) (LR i)
       (units_per_year i)
  end.

Record Param := mkParam { key : ParamKey; label : string }.

Definition params : list Param :=
  [ mkParam K_R_power "Power Rate";
    mkParam K_R_therm "Thermal Rate";
    mkParam K_R_tipping "Tipping Fee";
    mkParam K_P_carbon "Carbon Price";
    mkParam K_f_avail "Availability";
    mkParam K_C_biochp "BioCHP Cost";
    mkParam K_C_fuel_process "Fuel Process Cost";
    mkParam K_r_disc "Discount Rate" ]%string.

Record SensRow := mkRow {
  sens_label : string; sens_lo : R; sens_hi : R; sens_range : R
}.

(** Calls of [runFinancialModel] are recorded: a computation takes the log of
    the inputs the model has been run on so far and returns its value with the
    extended log, or [None] when a call throws. *)
Definition Calls (A : Type) : Type := list Inputs -> option (A * list Inputs).

Definition ret {A : Type} (a : A) : Calls A := fun log => Some (a, log).

Definition bind {A B : Type} (m : Calls A) (f : A -> Calls B) : Calls B :=
  fun log =>
    match m log with
    | Some (a, log') => f a log'
    | None => None
    end.

Notation "x <- m ;; k" := (bind m (fun x => k))
  (at level 61, m at next level, right associativity).

Definition call_runFinancialModel (i : Inputs) : Calls ModelResult :=
  fun log =>
    match runFinancialModel i with
    | Some r => Some (r, log ++ [i])
    | None => None
    end.

(** [Array.prototype.map] with an effectful callback, left to right. *)
Fixpoint mapM {A B : Type} (f : A -> Calls B) (l : list A) : Calls (list B) :=
  match l with
  | [] => ret []
  | a :: l' => b <- f a ;; bs <- mapM f l' ;; ret (b :: bs)
  end.

(** [.sort((a, b) => b.range - a.range)].  [Array.prototype.sort] is stable,
    so its result is the one a stable insertion sort gives: [x], which stood
    before every row of [l], goes after [e] only when the comparator is
    positive on [(x, e)]. *)
Fixpoint insert_row (x : SensRow) (l : list SensRow) : list SensRow :=
  match l with
  | [] => [x]
  | e :: l' =>
      if Rltb 0 (sens_range e - sens_range x) then e :: insert_row x l'
      else x :: l
  end.

Definition sort_rows (l : list SensRow) : list SensRow :=
  fold_right insert_row [] l.

(** The two perturbed copies of the inputs for parameter [p]. *)
Definition lo_inputs (baseInputs : Inputs) (p : Param) : Inputs :=
  set_key (key p) (get_key (key p) baseInputs * 0.8) baseInputs.

Definition hi_inputs (baseInputs : Inputs) (p : Param) : Inputs :=
  set_key (key p) (get_key (key p) baseInputs * 1.2) baseInputs.

(** The callback of [params.map]. *)
Definition sens_row (baseInputs : Inputs) (baseNPV : R) (p : Param)
  : Calls SensRow :=
  rlo <- call_runFinancialModel (lo_inputs baseInputs p) ;;
  rhi <- call_runFinancialModel (hi_inputs baseInputs p) ;;
  let npvLo := res_NPV rlo in
  let npvHi := res_NPV rhi in
  ret (mkRow (label p) (npvLo - baseNPV) (npvHi - baseNPV) (Rabs (npvHi - npvLo))).

Definition runSensitivity_calls (baseInputs : Inputs) : Calls (list SensRow) :=
  base <- call_runFinancialModel baseInputs ;;
  let baseNPV := res_NPV base in
  rows <- mapM (sens_row baseInputs baseNPV) params ;;
  ret (sort_rows rows).

(** [runSensitivity(baseInputs)]: the rows, without the call log. *)
Definition runSensitivity (baseInputs : Inputs) : option (list SensRow) :=
  option_map fst (runSensitivity_calls baseInputs []).

(** The row the callback of [params.map] returns for parameter [p], written
    with the NPV of the three runs it compares. *)
Definition npv_row (baseInputs : Inputs) (p : Param) : SensRow :=
  mkRow (label p)
    (NPV (lo_inputs baseInputs p) - NPV baseInputs)
    (NPV (hi_inputs baseInputs p) - NPV baseInputs)
    (Rabs (NPV (hi_inputs baseInputs p) - NPV (lo_inputs baseInputs p))).

(** [i'] is [i] with the field of key [k] multiplied by [c] and each of the
    other forty fields as it is in [i], written field by field. *)
Definition scaled_copy (i : Inputs) (k : ParamKey) (c : R) (i' : Inputs) : Prop :=
  P_elec i' = P_elec i /\
  P_therm i' = P_therm i /\
  f_avail i' = match k with K_f_avail => f_avail i * c | _ => f_avail i end /\
  F_tpd i' = F_tpd i /\
  N_units i' = N_units i /\
  R_power i' = match k with K_R_power => R_power i * c | _ => R_power i end /\
  f_power_util i' = f_power_util i /\
  r_power i' = r_power i /\
  R_therm i' = match k with K_R_therm => R_therm i * c | _ => R_therm i end /\
  f_therm_util i' = f_therm_util i /\
  r_therm i' = r_therm i /\
  R_tipping i' = match k with K_R_tipping => R_tipping i * c | _ => R_tipping i end /\
  W_tpy i' = W_tpy i /\
  r_tipping i' = r_tipping i /\
  CC_methane i' = CC_methane i /\
  CC_fuel i' = CC_fuel i /\
  CC_emissions i' = CC_emissions i /\
  P_carbon i' = match k with K_P_carbon => P_carbon i * c | _ => P_carbon i end /\
  r_carbon i' = r_carbon i /\
  C_cust_power i' = C_cust_power i /\
  C_cust_therm i' = C_cust_therm i /\
  C_cust_waste i' = C_cust_waste i /\
  C_biochp i' = match k with K_C_biochp => C_biochp i * c | _ => C_biochp i end /\
  C_enexfuel i' = C_enexfuel i /\
  C_install i' = C_install i /\
  C_site i' = C_site i /\
  R_maint i' = R_maint i /\
  C_fuel_process i' = match k with K_C_fuel_process => C_fuel_process i * c | _ => C_fuel_process i end /\
  C_insurance i' = C_insurance i /\
  C_acct_mgmt i' = C_acct_mgmt i /\
  r_maint i' = r_maint i /\
  r_fuel i' = r_fuel i /\
  f_equity i' = f_equity i /\
  r_debt i' = r_debt i /\
  T_loan i' = T_loan i /\
  f_loan_fees i' = f_loan_fees i /\
  r_disc i' = match k with K_r_disc => r_disc i * c | _ => r_disc i end /\
  T_project i' = T_project i /\
  Y_start i' = Y_start i /\
  LR i' = LR i /\
  units_per_year i' = units_per_year i.

(** ** Scenarios used as concrete inputs *)

(** The inputs the application starts with. *)
Definition defaults : Inputs :=
  mkInputs 225 400 0.92 5 3
    0.10 1.0 3.0
    0.027 1.0 3.0
    80 3000 3.0
    1200 1100 500 20 3.0
    0.143 0.034 100
    660000 45000 25000 12500
    0.025 70 2000 2920
    3.0 3.0
    0.50 6.0 5 2.0
    7.0 10 2026 0.90 2.

(** One unit of electrical output 100 at full availability and utilization
    that sells power only, without escalation: the remaining choices are the
    power rate, the equipment cost, the insurance cost, the equity fraction,
    the discount rate and the horizon.  The loan terms are 6% over 5 years
    without fees. *)
Definition single_unit (rate_power equipment insurance equity discount : R)
    (horizon : Z) : Inputs :=
  mkInputs 100 0 1 0 1
    rate_power 1 0
    0 1 0
    0 0 0
    0 0 0 0 0
    0 0 0
    equipment 0 0 0
    0 0 insurance 0
    0 0
    equity 6 5 0
    discount horizon 2026 0.9 1.

(** The worked scenario of the specification. *)
Definition worked : Inputs := single_unit 0.10 0 0 1 0 1.

(** What the specification fixes in its worked scenario; the deployment rate
    and the learning rate are left open within their domains. *)
Definition worked_scenario (i : Inputs) : Prop :=
  N_units i = 1%Z /\ f_avail i = 1 /\ P_elec i = 100 /\
  f_power_util i = 1 /\ R_power i = 0.10 /\
  r_power i = 0 /\ r_therm i = 0 /\ r_tipping i = 0 /\ r_carbon i = 0 /\
  r_maint i = 0 /\ r_fuel i = 0 /\
  C_biochp i = 0 /\ C_enexfuel i = 0 /\ C_install i = 0 /\
  R_maint i = 0 /\ C_fuel_process i = 0 /\
  C_insurance i = 0 /\ C_acct_mgmt i = 0 /\
  f_equity i = 1 /\ r_disc i = 0 /\ T_project i = 1%Z /\
  R_therm i = 0 /\ R_tipping i = 0 /\ P_carbon i = 0 /\
  0 <= units_per_year i /\ 0 < LR i.

(** The worked scenario with equipment that costs 137,600. *)
Definition with_equipment : Inputs := single_unit 0.10 137600 0 1 0 1.

(** A unit that earns nothing and pays 100 a year for insurance. *)
Definition loss_making : Inputs := single_unit 0 0 100 1 0 1.

(** A unit of cost 100,000 financed by debt alone. *)
Definition debt_financed : Inputs := single_unit 0.10 100000 0 0 0 1.

(** The worked scenario cut to a horizon of 0: year 0 alone is simulated. *)
Definition year_0_only : Inputs := single_unit 0.10 0 0 1 0 0.

(** Two units deployed one a year at the same cost (learning rate 1) that
    earn a tipping fee on a waste supply one unit exhausts, and pay for fuel
    processing per unit: the cash flows of years 0..2 are 5,840, -20,440 and
    17,885. *)
Definition capped_waste : Inputs :=
  mkInputs 0 0 1 1 2
    0 1 0
    0 1 0
    193 365 0
    0 0 0 0 0
    0 0 0
    38325 0 0 0
    0 72 0 0
    0 0
    1 6 5 0
    0 2 2026 1 1.

(** The inputs with another discount rate. *)
Definition with_r_disc (i : Inputs) (r : R) : Inputs := set_key K_r_disc r i.

(** ** Running totals of the year loop *)

(** [cumulative_dcf] as it stands after the pass for year [y]. *)
Definition cumulative_dcf_after (i : Inputs) (y : nat) : R :=
  fold_left (fun acc k => acc + DCF i k) (seq 0 (S y)) 0.

(** [cumulative_cf] as it stands after the pass for year [y]. *)
Definition cumulative_cf_after (i : Inputs) (y : nat) : R :=
  fold_left (fun acc k => acc + CF i k) (seq 0 (S y)) 0.

(** What [payback_update] has found after the passes for years [0 .. n-1],
    for a running total [cum] that is tested after each pass: the first year
    after year 0 at which the total is not negative, if there is one. *)
Definition payback_found (cum : nat -> R) (n : nat) (p : option nat) : Prop :=
  match p with
  | Some y =>
      (1 <= y < n)%nat /\ 0 <= cum y /\
      forall k, (1 <= k < y)%nat -> cum k < 0
  | None => forall k, (1 <= k < n)%nat -> cum k < 0
  end.

(** [s + v] summed over an array, as [reduce((s, v) => s + v, 0)] does. *)
Definition sum_list (l : list R) : R := fold_left Rplus l 0.

(** ** The control surface *)

(** [commitEdit] of [SliderInput]: [parsed] is the result of [parseFloat]
    ([None] for NaN) and the result is the value handed to [onChange], if
    any. *)
Definition commitEdit (min max : R) (parsed : option R) : option R :=
  match parsed with
  | None => None
  | Some n => Some (Rmin max (Rmax min n))
  end.

(** An entry of [SCENARIOS]: the nine fields a preset carries. *)
Record Preset := mkPreset {
  pre_R_power : R; pre_R_therm : R; pre_R_tipping : R; pre_P_carbon : R;
  pre_f_avail : R; pre_C_biochp : R; pre_N_units : Z; pre_f_equity : R;
  pre_r_disc : R
}.

(** The keys of the scenario buttons. *)
Inductive ScenarioKey := conservative | base | optimistic | custom.

(** [SCENARIOS[key]]; [None] is [undefined]. *)
Definition SCENARIOS (k : ScenarioKey) : option Preset :=
  match k with
  | conservative => Some (mkPreset 0.08 0.022 50 10 0.85 750000 1 0.60 10)
  | base => Some (mkPreset 0.10 0.027 80 20 0.92 660000 3 0.50 7)
  | optimistic => Some (mkPreset 0.12 0.034 100 40 0.95 550000 10 0.40 5)
  | custom => None
  end.

(** [{ ...prev, ...SCENARIOS[key] }]. *)
Definition merge_preset (prev : Inputs) (s : Preset) : Inputs :=
  mkInputs
    (P_elec prev) (P_therm prev) (pre_f_avail s) (F_tpd prev)
    (pre_N_units s) (pre_R_power s) (f_power_util prev) (r_power prev)
    (pre_R_therm s) (f_therm_util prev) (r_therm prev) (pre_R_tipping s)
    (W_tpy prev) (r_tipping prev) (CC_methane prev) (CC_fuel prev)
    (CC_emissions prev) (pre_P_carbon s) (r_carbon prev) (C_cust_power prev)
    (C_cust_therm prev) (C_cust_waste prev) (pre_C_biochp s)
    (C_enexfuel prev) (C_install prev) (C_site prev) (R_maint prev)
    (C_fuel_process prev) (C_insurance prev) (C_acct_mgmt prev)
    (r_maint prev) (r_fuel prev) (pre_f_equity s) (r_debt prev)
    (T_loan prev) (f_loan_fees prev) (pre_r_disc s) (T_project prev)
    (Y_start prev) (LR prev) (units_per_year prev).

(** The two pieces of state the scenario buttons and the sliders write. *)
Record AppState := mkApp { scenario : ScenarioKey; inputs_of : Inputs }.

(** [applyScenario(key)]. *)
Definition applyScenario (k : ScenarioKey) (st : AppState) : AppState :=
  mkApp k
    (match SCENARIOS k with
     | Some s => merge_preset (inputs_of st) s
     | None => inputs_of st
     end).

(** ** The metric cards and charts *)

(** The [status] of a card; [None] is [undefined]. *)
Inductive Status := status_ok | status_warn | status_error.

Definition npv_status (res : ModelResult) : Status :=
  if Rltb 0 (res_NPV res) then status_ok else status_error.

(** A number used as a condition: [null] and [0] are falsy. *)
Definition truthy (p : option nat) : bool :=
  match p with
  | Some (S _) => true
  | _ => false
  end.

(** [results.payback_disc || "> " + inputs.T_project]: the year shown, or
    [inr T_project] for the text that says the horizon is exceeded. *)
Definition payback_value (inputs : Inputs) (res : ModelResult) : nat + Z :=
  match res_payback_disc res with
  | Some p => if truthy (Some p) then inl p else inr (T_project inputs)
  | None => inr (T_project inputs)
  end.

Definition payback_status (res : ModelResult) : Status :=
  match res_payback_disc res with
  | Some p =>
      if truthy (Some p)
      then (if Nat.ltb p 4 then status_ok
            else if Nat.ltb p 7 then status_warn else status_error)
      else status_error
  | None => status_error
  end.

Definition dscr_status (res : ModelResult) : option Status :=
  match res_DSCR_min res with
  | Some d =>
      Some (if Rleb 1.25 d then status_ok
            else if Rleb 1.0 d then status_warn else status_error)
  | None => None
  end.


(** An entry of [cashFlowData]. *)
Record CashFlowBar := mkBar {
  bar_name : Z; bar_Revenue : R; bar_OPEX : R; bar_CAPEX : R; bar_Debt : R;
  bar_CumNPV : R
}.

Definition cashFlowData (res : ModelResult) : list CashFlowBar :=
  map (fun yr =>
         mkBar (yr_year yr) (yr_R_total yr) (- yr_OPEX yr)
           (if Rltb 0 (yr_capex_year yr) then - yr_capex_year yr else 0)
           (if Rltb 0 (yr_DS yr) then - yr_DS yr else 0)
           (yr_cumNPV yr))
      (res_years res).

(** * Properties *)

(** ** Boolean comparisons *)

Lemma Rltb_true (x y : R) : x < y -> Rltb x y = true.
Proof. intros H. unfold Rltb. destruct (Rlt_dec x y); [reflexivity | contradiction]. Qed.

Lemma Rltb_false (x y : R) : y <= x -> Rltb x y = false.
Proof. intros H. unfold Rltb. destruct (Rlt_dec x y); [lra | reflexivity]. Qed.

Lemma Rltb_true_inv (x y : R) : Rltb x y = true -> x < y.
Proof. unfold Rltb. destruct (Rlt_dec x y); [trivial | discriminate]. Qed.

Lemma Rltb_false_inv (x y : R) : Rltb x y = false -> y <= x.
Proof. unfold Rltb. destruct (Rlt_dec x y); [discriminate | intros _; lra]. Qed.

Lemma Rleb_true (x y : R) : x <= y -> Rleb x y = true.
Proof. intros H. unfold Rleb. destruct (Rle_dec x y); [reflexivity | contradiction]. Qed.

Lemma Rleb_false (x y : R) : y < x -> Rleb x y = false.
Proof. intros H. unfold Rleb. destruct (Rle_dec x y); [lra | reflexivity]. Qed.

Lemma Rleb_true_inv (x y : R) : Rleb x y = true -> x <= y.
Proof. unfold Rleb. destruct (Rle_dec x y); [trivial | discriminate]. Qed.

(** ** Integer ranges *)

Lemma zrange_length (lo hi : Z) : length (zrange lo hi) = Z.to_nat (hi - lo + 1).
Proof. unfold zrange. now rewrite length_map, length_seq. Qed.

Lemma zrange_nth_error (lo hi : Z) (k : nat) :
  (k < Z.to_nat (hi - lo + 1))%nat ->
  nth_error (zrange lo hi) k = Some (lo + Z.of_nat k)%Z.
Proof.
  intros Hk. unfold zrange.
  rewrite nth_error_map, nth_error_seq.
  apply Nat.ltb_lt in Hk. rewrite Hk. reflexivity.
Qed.

Lemma zrange_empty (lo hi : Z) : (hi < lo)%Z -> zrange lo hi = [].
Proof.
  intros H. unfold zrange.
  replace (Z.to_nat (hi - lo + 1)) with 0%nat by lia. reflexivity.
Qed.

Lemma zrange_single (n : Z) : zrange n n = [n].
Proof.
  unfold zrange. replace (n - n + 1)%Z with 1%Z by lia.
  simpl. f_equal. lia.
Qed.

(** ** Learning curve *)

Lemma ln_2_pos : 0 < ln 2.
Proof. pose proof ln_lt_2. lra. Qed.

Lemma Rpower_one_base (b : R) : Rpower 1 b = 1.
Proof. unfold Rpower. now rewrite ln_1, Rmult_0_r, exp_0. Qed.

Lemma Rpower_two_log2 (x : R) : 0 < x -> Rpower 2 (ln x / ln 2) = x.
Proof.
  intros Hx. unfold Rpower.
  replace (ln x / ln 2 * ln 2) with (ln x)
    by (field; pose proof ln_2_pos; lra).
  now apply exp_ln.
Qed.

Lemma unit_capex_length (i : Inputs) :
  length (unit_capex i) = Z.to_nat (N_units i).
Proof.
  unfold unit_capex. rewrite length_map, zrange_length. f_equal. lia.
Qed.

Lemma unit_capex_nth_error (i : Inputs) (n : Z) :
  (1 <= n <= N_units i)%Z ->
  nth_error (unit_capex i) (Z.to_nat (n - 1)) =
    Some (CAPEX_unit1 i * Rpower (IZR n) (lr_exp i)).
Proof.
  intros Hn. unfold unit_capex.
  rewrite nth_error_map.
  rewrite zrange_nth_error by (clear - Hn; lia).
  cbn [option_map].
  replace (1 + Z.of_nat (Z.to_nat (n - 1)))%Z with n by lia. reflexivity.
Qed.

(** The learning curve in real arithmetic: the list has one entry per fleet
    unit, unit [n] costs [C * n ^ (log LR / log 2)], the first unit costs [C]
    and the second [C * LR], where [C] is the base unit cost [CAPEX_unit1].
    The last equation rests on [2 ^ (ln LR / ln 2) = LR] over the reals;
    the rounding of [Math.log] and [Math.pow] is outside this reading. *)
Theorem learning_curve_unit_costs (i : Inputs) :
  (1 <= N_units i)%Z ->
  0 < LR i ->
  length (unit_capex i) = Z.to_nat (N_units i) /\
  (forall n : Z, (1 <= n <= N_units i)%Z ->
     nth_error (unit_capex i) (Z.to_nat (n - 1)) =
       Some (CAPEX_unit1 i * Rpower (IZR n) (ln (LR i) / ln 2))) /\
  nth_error (unit_capex i) 0 = Some (CAPEX_unit1 i) /\
  ((2 <= N_units i)%Z ->
     nth_error (unit_capex i) 1 = Some (CAPEX_unit1 i * LR i)).
Proof.
  intros HN HLR. repeat split.
  - apply unit_capex_length.
  - intros n Hn. apply unit_capex_nth_error. exact Hn.
  - change 0%nat with (Z.to_nat (1 - 1)).
    rewrite unit_capex_nth_error by lia.
    now rewrite Rpower_one_base, Rmult_1_r.
  - intros H2. change 1%nat with (Z.to_nat (2 - 1)).
    rewrite unit_capex_nth_error by lia.
    unfold lr_exp. now rewrite Rpower_two_log2.
Qed.

Lemma learning_curve_unit_costs_witness :
  length (unit_capex defaults) = Z.to_nat (N_units defaults) /\
  (forall n : Z, (1 <= n <= N_units defaults)%Z ->
     nth_error (unit_capex defaults) (Z.to_nat (n - 1)) =
       Some (CAPEX_unit1 defaults * Rpower (IZR n) (ln (LR defaults) / ln 2))) /\
  nth_error (unit_capex defaults) 0 = Some (CAPEX_unit1 defaults) /\
  ((2 <= N_units defaults)%Z ->
     nth_error (unit_capex defaults) 1 = Some (CAPEX_unit1 defaults * LR defaults)).
Proof.
  apply (learning_curve_unit_costs defaults).
  - simpl. lia.
  - simpl. lra.
Defined.

(** ** Debt service *)

Lemma powerRZ_neg_nat (x : R) (z : Z) :
  (0 < z)%Z -> powerRZ x (- z) = / x ^ Z.to_nat z.
Proof.
  intros Hz. destruct z as [|p|p]; try lia. reflexivity.
Qed.

Lemma annual_debt_service_annuity (i : Inputs) :
  0 < CAPEX_debt i -> (0 < T_loan i)%Z -> 0 < r_debt i ->
  annual_debt_service i = monthly_payment i * 12.
Proof.
  intros Hd Ht Hr. unfold annual_debt_service.
  rewrite (Rltb_true _ _ Hd), (Rltb_true _ _ Hr).
  apply Z.ltb_lt in Ht. now rewrite Ht.
Qed.

Lemma annual_debt_service_straight_line (i : Inputs) :
  0 < CAPEX_debt i -> (0 < T_loan i)%Z -> r_debt i <= 0 ->
  annual_debt_service i = loan_amount i / IZR (T_loan i).
Proof.
  intros Hd Ht Hr. unfold annual_debt_service.
  rewrite (Rltb_true _ _ Hd), (Rltb_false _ _ Hr).
  apply Z.ltb_lt in Ht. now rewrite Ht.
Qed.

Lemma annual_debt_service_no_principal (i : Inputs) :
  CAPEX_debt i <= 0 -> annual_debt_service i = 0.
Proof.
  intros Hd. unfold annual_debt_service.
  now rewrite (Rltb_false _ _ Hd).
Qed.

Lemma annual_debt_service_no_term (i : Inputs) :
  (T_loan i <= 0)%Z -> annual_debt_service i = 0.
Proof.
  intros Ht. unfold annual_debt_service.
  apply Z.ltb_ge in Ht. rewrite Ht.
  now rewrite !andb_false_r.
Qed.

Lemma annuity_6pct_5yr :
  23199 < 100000 * (6 / 100 / 12) / (1 - / (1 + 6 / 100 / 12) ^ 60) * 12 < 23200.
Proof.
  assert (Hq : 1.34885 < (1 + 6 / 100 / 12) ^ 60 < 1.348851) by (split; lra).
  set (q := (1 + 6 / 100 / 12) ^ 60) in *.
  replace (100000 * (6 / 100 / 12) / (1 - / q) * 12)
    with (6000 * q / (q - 1)) by (field; lra).
  split; apply Rmult_lt_reg_r with (q - 1); try lra;
    unfold Rdiv; rewrite Rmult_assoc, Rinv_l by lra; lra.
Qed.

(** C6.  The annual debt service on principal [CAPEX_debt] and loan amount
    [loan_amount]: the monthly annuity payment times 12 when rate and term
    are positive, loan amount over term when the rate is zero and the term
    positive, and 0 when principal or term is zero; a loan of 100,000 at 6%
    over 5 years costs about 23,200 a year. *)
Theorem annual_debt_service_cases (i : Inputs) :
  CAPEX_debt i = capex_fleet_total i * (1 - f_equity i) /\
  loan_amount i = CAPEX_debt i * (1 + f_loan_fees i / 100) /\
  (0 <= CAPEX_debt i -> 0 < r_debt i -> (0 < T_loan i)%Z ->
     annual_debt_service i =
       loan_amount i * (r_debt i / 100 / 12) /
         (1 - / (1 + r_debt i / 100 / 12) ^ Z.to_nat (12 * T_loan i)) * 12) /\
  (0 <= CAPEX_debt i -> r_debt i = 0 -> (0 < T_loan i)%Z ->
     annual_debt_service i = loan_amount i / IZR (T_loan i)) /\
  (CAPEX_debt i = 0 \/ T_loan i = 0%Z -> annual_debt_service i = 0) /\
  (0 < CAPEX_debt i -> loan_amount i = 100000 -> r_debt i = 6 ->
     T_loan i = 5%Z -> 23199 < annual_debt_service i < 23200).
Proof.
  split; [reflexivity|]. split; [reflexivity|].
  assert (Hannuity : 0 < CAPEX_debt i -> 0 < r_debt i -> (0 < T_loan i)%Z ->
     annual_debt_service i =
       loan_amount i * (r_debt i / 100 / 12) /
         (1 - / (1 + r_debt i / 100 / 12) ^ Z.to_nat (12 * T_loan i)) * 12).
  { intros Hd Hr Ht. rewrite annual_debt_service_annuity by assumption.
    unfold monthly_payment, r_monthly, n_months.
    rewrite powerRZ_neg_nat by lia.
    now rewrite (Z.mul_comm (T_loan i) 12). }
  split; [|split; [|split]].
  - intros [Hd | Hd] Hr Ht; [now apply Hannuity|].
    rewrite annual_debt_service_no_principal by lra.
    unfold loan_amount. rewrite <- Hd. unfold Rdiv. now rewrite !Rmult_0_l.
  - intros [Hd | Hd] Hr Ht.
    + apply annual_debt_service_straight_line; try assumption. lra.
    + rewrite annual_debt_service_no_principal by lra.
      unfold loan_amount. rewrite <- Hd. unfold Rdiv. now rewrite !Rmult_0_l.
  - intros [Hd | Ht].
    + apply annual_debt_service_no_principal. lra.
    + apply annual_debt_service_no_term. lia.
  - intros Hd HL Hr Ht.
    rewrite Hannuity by (try assumption; try lra; lia).
    rewrite HL, Hr, Ht. change (Z.to_nat (12 * 5)) with 60%nat.
    apply annuity_6pct_5yr.
Qed.

(** ** The year loop *)

Section YearLoop.

Variable i : Inputs.

Lemma year_step_years (st : LoopState) (y : nat) :
  years (year_step i st y) =
    years st ++ [year_record i y (cumulative_dcf st + DCF i y)].
Proof. reflexivity. Qed.

Lemma fold_year_step_y (l : list nat) (st : LoopState) :
  map yr_y (years (fold_left (year_step i) l st)) = map yr_y (years st) ++ l.
Proof.
  revert st. induction l as [|y l IH]; intros st; simpl.
  - now rewrite app_nil_r.
  - rewrite IH, year_step_years, map_app. simpl.
    now rewrite <- app_assoc.
Qed.

Lemma fold_year_step_records (l : list nat) (st : LoopState) :
  Forall (is_year_record i) (years st) ->
  Forall (is_year_record i) (years (fold_left (year_step i) l st)).
Proof.
  revert st. induction l as [|y l IH]; intros st Hst; simpl.
  - exact Hst.
  - apply IH. rewrite year_step_years. apply Forall_app. split; [exact Hst|].
    constructor; [|constructor].
    exists (cumulative_dcf st + DCF i y). reflexivity.
Qed.

Lemma fold_year_step_dcf (l : list nat) (st : LoopState) :
  cumulative_dcf (fold_left (year_step i) l st) =
    fold_left (fun acc y => acc + DCF i y) l (cumulative_dcf st).
Proof.
  revert st. induction l as [|y l IH]; intros st; simpl.
  - reflexivity.
  - now rewrite IH.
Qed.

Lemma years_y : map yr_y (years (year_loop i)) = project_years i.
Proof. unfold year_loop. now rewrite fold_year_step_y. Qed.

Lemma years_records : Forall (is_year_record i) (years (year_loop i)).
Proof. unfold year_loop. apply fold_year_step_records. constructor. Qed.

Lemma years_length :
  length (years (year_loop i)) = Z.to_nat (T_project i + 1).
Proof.
  rewrite <- (length_map yr_y), years_y. unfold project_years.
  apply length_seq.
Qed.

Lemma in_years_record (yr : YearRecord) :
  In yr (years (year_loop i)) ->
  exists cum : R, yr = year_record i (yr_y yr) cum.
Proof.
  intros Hin. pose proof years_records as H.
  rewrite Forall_forall in H. exact (H yr Hin).
Qed.

Lemma in_years_y (yr : YearRecord) :
  In yr (years (year_loop i)) -> (Z.of_nat (yr_y yr) <= T_project i)%Z.
Proof.
  intros Hin. apply (in_map yr_y) in Hin. rewrite years_y in Hin.
  unfold project_years in Hin. apply in_seq in Hin. lia.
Qed.

Lemma NPV_sum :
  NPV i = fold_left (fun acc y => acc + DCF i y) (project_years i) 0.
Proof. unfold NPV, year_loop. now rewrite fold_year_step_dcf. Qed.

(** The first entry of [years] is the record of year 0. *)
Lemma years_head :
  (0 <= T_project i)%Z ->
  exists rest : list YearRecord,
    years (year_loop i) = year_record i 0 (0 + DCF i 0) :: rest.
Proof.
  intros HT. unfold year_loop, project_years.
  replace (Z.to_nat (T_project i + 1)) with (S (Z.to_nat (T_project i))) by lia.
  simpl seq. simpl fold_left.
  set (st := year_step i loop_init 0%nat).
  pose proof (fold_year_step_y (seq 1 (Z.to_nat (T_project i))) st) as Hy.
  destruct (years (fold_left (year_step i) (seq 1 (Z.to_nat (T_project i))) st))
    as [|yr0 rest] eqn:E.
  - discriminate Hy.
  - exists rest.
    pose proof (fold_year_step_records (seq 1 (Z.to_nat (T_project i))) st) as Hr.
    rewrite E in Hr.
    assert (Hst : Forall (is_year_record i) (years st)).
    { subst st. rewrite year_step_years. simpl.
      constructor; [|constructor]. eexists. reflexivity. }
    specialize (Hr Hst). inversion Hr as [|? ? [cum Hcum] _]; subst.
    (* the head comes from [st] *)
    clear Hr Hy Hcum.
    revert E. generalize (seq 1 (Z.to_nat (T_project i))). intros l.
    assert (Hpre : forall l st', exists tl,
               years (fold_left (year_step i) l st') = years st' ++ tl).
    { clear. induction l as [|y l IH]; intros st'; simpl.
      - exists []. now rewrite app_nil_r.
      - destruct (IH (year_step i st' y)) as [tl Htl].
        rewrite Htl, year_step_years. eexists. now rewrite <- app_assoc. }
    destruct (Hpre l st) as [tl Htl]. rewrite Htl. subst st.
    rewrite year_step_years. simpl. intros E. now inversion E.
Qed.

(** A run returns exactly when the year loop runs at least once. *)
Lemma yr1_defined :
  (0 <= T_project i)%Z -> exists y1 : YearRecord, yr1 i = Some y1.
Proof.
  intros HT. destruct (years_head HT) as [rest Hrest].
  unfold yr1. rewrite Hrest.
  destruct rest; eexists; reflexivity.
Qed.

End YearLoop.

(** ** What a run returns *)

Lemma runFinancialModel_returns (i : Inputs) :
  (0 <= T_project i)%Z -> exists res : ModelResult, runFinancialModel i = Some res.
Proof.
  intros HT. destruct (yr1_defined i HT) as [y1 Hy1].
  unfold runFinancialModel. rewrite Hy1. eexists. reflexivity.
Qed.

Lemma runFinancialModel_fields (i : Inputs) (res : ModelResult) :
  runFinancialModel i = Some res ->
  res_years res = years (year_loop i) /\
  res_NPV res = NPV i /\
  res_IRR res = IRR i /\
  res_payback_disc res = payback_disc (year_loop i) /\
  res_payback_simple res = payback_simple (year_loop i) /\
  res_DSCR_min res = DSCR_min i /\
  res_warnings res = warnings i /\
  res_E_power_yr res = E_power_yr i /\
  res_annual_debt_service res = annual_debt_service i.
Proof.
  unfold runFinancialModel. destruct (yr1 i) as [y1|]; [|discriminate].
  intros H. injection H as <-. simpl. repeat split.
Qed.

Lemma runFinancialModel_year1_fields (i : Inputs) (res : ModelResult) :
  runFinancialModel i = Some res ->
  exists y1 : YearRecord,
    yr1 i = Some y1 /\
    res_R_per_unit res = per_unit y1 (yr_R_total y1) /\
    res_R_per_unit_power res = per_unit y1 (yr_R_pwr y1) /\
    res_R_per_unit_therm res = per_unit y1 (yr_R_thrm y1) /\
    res_R_per_unit_tip res = per_unit y1 (yr_R_tip y1) /\
    res_R_per_unit_carbon res = per_unit y1 (yr_R_crb y1) /\
    res_yr1_revenue res = yr_R_total y1 /\
    res_yr1_opex res = yr_OPEX y1 /\
    res_yr1_ebitda res = yr_EBITDA y1.
Proof.
  unfold runFinancialModel. destruct (yr1 i) as [y1|]; [|discriminate].
  intros H. injection H as <-. exists y1. simpl. repeat split.
Qed.

Lemma IRR_unfold (i : Inputs) : IRR i = irr_of (years (year_loop i)).
Proof. reflexivity. Qed.

(** ** Waste cap *)

(** C8.  In every simulated year the tonnage behind the tipping revenue is
    the smaller of deployed units times per-unit throughput and the available
    waste supply, so it never exceeds that supply. *)
Theorem tipped_tonnage_capped (i : Inputs) (yr : YearRecord) :
  In yr (years (year_loop i)) ->
  yr_R_tip yr = W_tipped i (yr_y yr) * R_tipping i * esc_tip i (yr_y yr) /\
  W_tipped i (yr_y yr) = Rmin (IZR (yr_N_deployed yr) * F_tpy i) (W_tpy i) /\
  W_tipped i (yr_y yr) <= W_tpy i /\
  (W_tpy i < IZR (yr_N_deployed yr) * F_tpy i -> W_tipped i (yr_y yr) = W_tpy i).
Proof.
  intros Hin. destruct (in_years_record i yr Hin) as [cum Hyr].
  assert (HN : yr_N_deployed yr = N_deployed i (yr_y yr)) by (rewrite Hyr at 1; reflexivity).
  assert (HR : yr_R_tip yr = R_tip i (yr_y yr)) by (rewrite Hyr at 1; reflexivity).
  rewrite HN, HR. unfold R_tip, W_tipped. repeat split.
  - apply Rmin_r.
  - intros Hlt. apply Rmin_right. lra.
Qed.

(** ** No debt, no coverage ratio *)

Lemma DS_zero (i : Inputs) (y : nat) : annual_debt_service i = 0 -> DS i y = 0.
Proof.
  intros H. unfold DS. rewrite H. now destruct (Z.of_nat y <? T_loan i)%Z.
Qed.

Lemma DSCR_none (i : Inputs) (y : nat) : DS i y = 0 -> DSCR i y = None.
Proof.
  intros H. unfold DSCR. rewrite H. now rewrite Rltb_false by lra.
Qed.

Lemma annual_debt_service_no_loan (i : Inputs) :
  loan_amount i = 0 -> annual_debt_service i = 0.
Proof.
  intros HL. unfold annual_debt_service, monthly_payment. rewrite HL.
  unfold Rdiv. rewrite !Rmult_0_l.
  destruct (Rltb 0 (CAPEX_debt i) && (0 <? T_loan i)%Z && Rltb 0 (r_debt i));
    [reflexivity|].
  now destruct (Rltb 0 (CAPEX_debt i) && (0 <? T_loan i)%Z).
Qed.

Lemma annual_debt_service_full_equity (i : Inputs) :
  f_equity i = 1 -> annual_debt_service i = 0.
Proof.
  intros HE. apply annual_debt_service_no_principal.
  unfold CAPEX_debt. rewrite HE. lra.
Qed.

Lemma dscr_values_nil (i : Inputs) :
  (forall yr, In yr (years (year_loop i)) -> yr_DSCR yr = None) ->
  dscr_values i = [].
Proof.
  unfold dscr_values. induction (years (year_loop i)) as [|yr l IH]; intros H.
  - reflexivity.
  - simpl. rewrite (H yr) by now left. simpl. apply IH.
    intros yr' Hin. apply H. now right.
Qed.

(** C9.  With full equity, or a loan amount of 0 (or a term of 0), debt
    service is 0 in every simulated year, every yearly DSCR is null, the
    minimum DSCR is null and no debt-coverage warning is returned. *)
Theorem no_debt_no_coverage_ratio (i : Inputs) :
  (0 <= T_project i)%Z ->
  f_equity i = 1 \/ loan_amount i = 0 \/ (T_loan i <= 0)%Z ->
  exists res : ModelResult,
    runFinancialModel i = Some res /\
    (forall yr, In yr (res_years res) -> yr_DS yr = 0 /\ yr_DSCR yr = None) /\
    res_DSCR_min res = None /\
    ~ In DSCR_below_1 (res_warnings res) /\
    ~ In DSCR_below_covenant (res_warnings res).
Proof.
  intros HT Hcase.
  assert (Hads : annual_debt_service i = 0).
  { destruct Hcase as [H | [H | H]].
    - now apply annual_debt_service_full_equity.
    - now apply annual_debt_service_no_loan.
    - now apply annual_debt_service_no_term. }
  destruct (runFinancialModel_returns i HT) as [res Hres].
  exists res. split; [exact Hres|].
  destruct (runFinancialModel_fields i res Hres)
    as (Hyears & _ & _ & _ & _ & Hmin & Hwarn & _).
  assert (Hyr : forall yr, In yr (years (year_loop i)) ->
                  yr_DS yr = 0 /\ yr_DSCR yr = None).
  { intros yr Hin. destruct (in_years_record i yr Hin) as [cum Hrec].
    rewrite Hrec. simpl. split.
    - now apply DS_zero.
    - apply DSCR_none. now apply DS_zero. }
  assert (Hnone : DSCR_min i = None).
  { unfold DSCR_min. rewrite dscr_values_nil; [reflexivity|].
    intros yr Hin. now apply Hyr. }
  rewrite Hyears, Hmin, Hwarn. repeat split.
  - now apply Hyr.
  - now apply Hyr.
  - exact Hnone.
  - unfold warnings. rewrite Hnone. simpl. rewrite app_nil_r.
    destruct (Rltb (NPV i) 0); simpl; intuition discriminate.
  - unfold warnings. rewrite Hnone. simpl. rewrite app_nil_r.
    destruct (Rltb (NPV i) 0); simpl; intuition discriminate.
Qed.

(** ** Horizon of zero years *)

(** C10.  With a project horizon of 0 the only record is that of year 0,
    and the year-1 fields of the result (revenue per unit and its breakdown,
    revenue, operating cost and EBITDA) are computed from that record. *)
Theorem horizon_zero_year1_fields (i : Inputs) :
  T_project i = 0%Z ->
  exists (res : ModelResult) (yr0 : YearRecord),
    runFinancialModel i = Some res /\
    res_years res = [yr0] /\
    yr_y yr0 = 0%nat /\
    res_R_per_unit res =
      (if (0 <? yr_N_deployed yr0)%Z
       then yr_R_total yr0 / IZR (yr_N_deployed yr0) else 0) /\
    res_R_per_unit_power res =
      (if (0 <? yr_N_deployed yr0)%Z
       then yr_R_pwr yr0 / IZR (yr_N_deployed yr0) else 0) /\
    res_R_per_unit_therm res =
      (if (0 <? yr_N_deployed yr0)%Z
       then yr_R_thrm yr0 / IZR (yr_N_deployed yr0) else 0) /\
    res_R_per_unit_tip res =
      (if (0 <? yr_N_deployed yr0)%Z
       then yr_R_tip yr0 / IZR (yr_N_deployed yr0) else 0) /\
    res_R_per_unit_carbon res =
      (if (0 <? yr_N_deployed yr0)%Z
       then yr_R_crb yr0 / IZR (yr_N_deployed yr0) else 0) /\
    res_yr1_revenue res = yr_R_total yr0 /\
    res_yr1_opex res = yr_OPEX yr0 /\
    res_yr1_ebitda res = yr_EBITDA yr0.
Proof.
  intros HT.
  assert (Hyears : years (year_loop i) = [year_record i 0 (0 + DCF i 0)]).
  { unfold year_loop, project_years. rewrite HT. reflexivity. }
  assert (Hy1 : yr1 i = Some (year_record i 0 (0 + DCF i 0))).
  { unfold yr1. rewrite Hyears. reflexivity. }
  unfold runFinancialModel. rewrite Hy1.
  eexists. exists (year_record i 0 (0 + DCF i 0)).
  split; [reflexivity|]. simpl. rewrite Hyears.
  repeat split.
Qed.

(** ** The bisection solver *)

Section Bisection.

Variable yrs : list YearRecord.

Lemma npv_test_acc (l : list YearRecord) (mid acc : R) :
  fold_left (fun a yr => a + yr_CF yr / (1 + mid) ^ yr_y yr) l acc =
    acc + npv_test l mid.
Proof.
  unfold npv_test. revert acc. induction l as [|yr l IH]; intros acc; simpl.
  - lra.
  - rewrite IH, (IH (0 + _)). lra.
Qed.

Lemma npv_test_cons (yr : YearRecord) (l : list YearRecord) (mid : R) :
  npv_test (yr :: l) mid = yr_CF yr / (1 + mid) ^ yr_y yr + npv_test l mid.
Proof.
  unfold npv_test at 1. simpl. rewrite npv_test_acc. lra.
Qed.

Lemma npv_test_nil (mid : R) : npv_test [] mid = 0.
Proof. reflexivity. Qed.

Lemma discounted_nonneg (c mid : R) (y : nat) :
  -1 < mid -> 0 <= c -> 0 <= c / (1 + mid) ^ y.
Proof.
  intros Hm Hc. apply Rmult_le_pos; [exact Hc|].
  left. apply Rinv_0_lt_compat. apply pow_lt. lra.
Qed.

Lemma discounted_pos (c mid : R) (y : nat) :
  -1 < mid -> 0 < c -> 0 < c / (1 + mid) ^ y.
Proof.
  intros Hm Hc. apply Rmult_lt_0_compat; [exact Hc|].
  apply Rinv_0_lt_compat. apply pow_lt. lra.
Qed.

Lemma npv_test_nonneg (l : list YearRecord) (mid : R) :
  -1 < mid -> (forall yr, In yr l -> 0 <= yr_CF yr) -> 0 <= npv_test l mid.
Proof.
  intros Hm. induction l as [|yr l IH]; intros H.
  - rewrite npv_test_nil. lra.
  - rewrite npv_test_cons.
    pose proof (discounted_nonneg (yr_CF yr) mid (yr_y yr) Hm (H yr (or_introl eq_refl))).
    assert (0 <= npv_test l mid) by (apply IH; intros; apply H; now right).
    lra.
Qed.

Lemma npv_test_pos (l : list YearRecord) (mid : R) :
  -1 < mid -> (forall yr, In yr l -> 0 <= yr_CF yr) ->
  (exists yr, In yr l /\ 0 < yr_CF yr) -> 0 < npv_test l mid.
Proof.
  intros Hm. induction l as [|yr l IH]; intros H [yr' [Hin Hpos]].
  - destruct Hin.
  - rewrite npv_test_cons.
    pose proof (discounted_nonneg (yr_CF yr) mid (yr_y yr) Hm (H yr (or_introl eq_refl))).
    assert (Hl : 0 <= npv_test l mid)
      by (apply npv_test_nonneg; [exact Hm | intros; apply H; now right]).
    destruct Hin as [-> | Hin].
    + pose proof (discounted_pos (yr_CF yr') mid (yr_y yr') Hm Hpos). lra.
    + assert (0 < npv_test l mid).
      { apply IH; [intros; apply H; now right | now exists yr']. }
      lra.
Qed.

Lemma npv_test_nonpos (l : list YearRecord) (mid : R) :
  -1 < mid -> (forall yr, In yr l -> yr_CF yr <= 0) -> npv_test l mid <= 0.
Proof.
  intros Hm. induction l as [|yr l IH]; intros H.
  - rewrite npv_test_nil. lra.
  - rewrite npv_test_cons.
    pose proof (discounted_nonneg (- yr_CF yr) mid (yr_y yr) Hm) as Hd.
    assert (0 <= - yr_CF yr) by (specialize (H yr (or_introl eq_refl)); lra).
    specialize (Hd H0). unfold Rdiv in *.
    assert (npv_test l mid <= 0) by (apply IH; intros; apply H; now right).
    lra.
Qed.

(** One pass of the loop, by the outcome of its two tests. *)
Lemma irr_loop_step_lo (n : nat) (lo hi : R) :
  lo < hi -> 0 < npv_test yrs ((lo + hi) / 2) -> 0.0001 <= (hi - lo) / 2 ->
  irr_loop yrs (S n) lo hi = irr_loop yrs n ((lo + hi) / 2) hi.
Proof.
  intros Hlt Hpos Hw. simpl. rewrite (Rltb_true _ _ Hpos).
  rewrite Rltb_false; [reflexivity|].
  rewrite Rabs_right by lra. lra.
Qed.

Lemma irr_loop_step_hi (n : nat) (lo hi : R) :
  lo < hi -> npv_test yrs ((lo + hi) / 2) <= 0 -> 0.0001 <= (hi - lo) / 2 ->
  irr_loop yrs (S n) lo hi = irr_loop yrs n lo ((lo + hi) / 2).
Proof.
  intros Hlt Hneg Hw. simpl. rewrite (Rltb_false _ _ Hneg).
  rewrite Rltb_false; [reflexivity|].
  rewrite Rabs_right by lra. lra.
Qed.

Lemma irr_loop_stop_lo (n : nat) (lo hi : R) :
  lo < hi -> 0 < npv_test yrs ((lo + hi) / 2) -> (hi - lo) / 2 < 0.0001 ->
  irr_loop yrs (S n) lo hi = ((lo + hi) / 2, hi).
Proof.
  intros Hlt Hpos Hw. simpl. rewrite (Rltb_true _ _ Hpos).
  rewrite Rltb_true; [reflexivity|].
  rewrite Rabs_right by lra. lra.
Qed.

Lemma irr_loop_stop_hi (n : nat) (lo hi : R) :
  lo < hi -> npv_test yrs ((lo + hi) / 2) <= 0 -> (hi - lo) / 2 < 0.0001 ->
  irr_loop yrs (S n) lo hi = (lo, (lo + hi) / 2).
Proof.
  intros Hlt Hneg Hw. simpl. rewrite (Rltb_false _ _ Hneg).
  rewrite Rltb_true; [reflexivity|].
  rewrite Rabs_right by lra. lra.
Qed.

(** The bracket the loop ends with: it lies inside the initial one, an end
    that moved carries the sign the loop tested, and its width is below the
    tolerance unless the pass budget ran out. *)
Lemma irr_loop_bracket (n : nat) :
  forall lo hi lo' hi' : R,
    lo < hi ->
    irr_loop yrs n lo hi = (lo', hi') ->
    lo <= lo' /\ lo' < hi' /\ hi' <= hi /\
    (lo' = lo \/ 0 < npv_test yrs lo') /\
    (hi' = hi \/ npv_test yrs hi' <= 0) /\
    (hi' - lo' < 0.0001 \/ hi' - lo' = (hi - lo) / 2 ^ n).
Proof.
  induction n as [|n IH]; intros lo hi lo' hi' Hlt Hloop.
  - simpl in Hloop. injection Hloop as <- <-.
    split; [lra|]. split; [lra|]. split; [lra|].
    split; [now left|]. split; [now left|]. right. simpl. lra.
  - destruct (Rlt_dec 0 (npv_test yrs ((lo + hi) / 2))) as [Hpos | Hneg];
      destruct (Rlt_dec ((hi - lo) / 2) 0.0001) as [Hw | Hw].
    + rewrite irr_loop_stop_lo in Hloop by assumption.
      injection Hloop as <- <-.
      split; [lra|]. split; [lra|]. split; [lra|].
      split; [now right|]. split; [now left|]. left. lra.
    + rewrite irr_loop_step_lo in Hloop by (try assumption; lra).
      apply IH in Hloop; [|lra].
      destruct Hloop as (H1 & H2 & H3 & H4 & H5 & H6).
      split; [lra|]. split; [lra|]. split; [lra|].
      split; [right; destruct H4 as [-> | H4]; assumption|].
      split; [exact H5|].
      destruct H6 as [H6 | H6]; [now left | right].
      rewrite H6. simpl. field. apply pow_nonzero. lra.
    + rewrite irr_loop_stop_hi in Hloop by (try assumption; lra).
      injection Hloop as <- <-.
      split; [lra|]. split; [lra|]. split; [lra|].
      split; [now left|]. split; [right; lra|]. left. lra.
    + rewrite irr_loop_step_hi in Hloop by (try assumption; lra).
      apply IH in Hloop; [|lra].
      destruct Hloop as (H1 & H2 & H3 & H4 & H5 & H6).
      split; [lra|]. split; [lra|]. split; [lra|].
      split; [exact H4|].
      split; [right; destruct H5 as [-> | H5]; lra|].
      destruct H6 as [H6 | H6]; [now left | right].
      rewrite H6. simpl. field. apply pow_nonzero. lra.
Qed.

(** When the test is positive at every probe, [hi] never moves. *)
Lemma irr_loop_hi_fixed (n : nat) :
  forall lo hi lo' hi' : R,
    lo < hi ->
    (forall r, lo < r < hi -> 0 < npv_test yrs r) ->
    irr_loop yrs n lo hi = (lo', hi') -> hi' = hi.
Proof.
  induction n as [|n IH]; intros lo hi lo' hi' Hlt Hall Hloop.
  - simpl in Hloop. now injection Hloop as <- <-.
  - assert (Hpos : 0 < npv_test yrs ((lo + hi) / 2)) by (apply Hall; lra).
    destruct (Rlt_dec ((hi - lo) / 2) 0.0001) as [Hw | Hw].
    + rewrite irr_loop_stop_lo in Hloop by assumption.
      now injection Hloop as <- <-.
    + rewrite irr_loop_step_lo in Hloop by (try assumption; lra).
      apply IH in Hloop; [exact Hloop | lra |].
      intros r Hr. apply Hall. lra.
Qed.

(** When the test is never positive, [lo] never moves. *)
Lemma irr_loop_lo_fixed (n : nat) :
  forall lo hi lo' hi' : R,
    lo < hi ->
    (forall r, lo < r < hi -> npv_test yrs r <= 0) ->
    irr_loop yrs n lo hi = (lo', hi') -> lo' = lo.
Proof.
  induction n as [|n IH]; intros lo hi lo' hi' Hlt Hall Hloop.
  - simpl in Hloop. now injection Hloop as <- <-.
  - assert (Hneg : npv_test yrs ((lo + hi) / 2) <= 0) by (apply Hall; lra).
    destruct (Rlt_dec ((hi - lo) / 2) 0.0001) as [Hw | Hw].
    + rewrite irr_loop_stop_hi in Hloop by assumption.
      now injection Hloop as <- <-.
    + rewrite irr_loop_step_hi in Hloop by (try assumption; lra).
      apply IH in Hloop; [exact Hloop | lra |].
      intros r Hr. apply Hall. lra.
Qed.

Lemma irr_of_none_positive :
  (forall r, -0.5 < r < 2.0 -> 0 < npv_test yrs r) -> irr_of yrs = None.
Proof.
  intros Hall. unfold irr_of.
  destruct (irr_loop yrs 100 (-0.5) 2.0) as [lo' hi'] eqn:E.
  apply irr_loop_hi_fixed in E; [| lra | exact Hall]. subst hi'.
  replace (2.0 - 2.0) with 0 by lra. rewrite Rabs_R0.
  rewrite (Rltb_false 0.01 0) by lra. now rewrite andb_false_r.
Qed.

Lemma irr_of_none_nonpositive :
  (forall r, -0.5 < r < 2.0 -> npv_test yrs r <= 0) -> irr_of yrs = None.
Proof.
  intros Hall. unfold irr_of.
  destruct (irr_loop yrs 100 (-0.5) 2.0) as [lo' hi'] eqn:E.
  apply irr_loop_lo_fixed in E; [| lra | exact Hall]. subst lo'.
  replace (-0.5 - -0.5) with 0 by lra. rewrite Rabs_R0.
  now rewrite (Rltb_false 0.01 0) by lra.
Qed.

End Bisection.

(** ** A single unit *)

Lemma js_floor_nonneg (x : R) : 0 <= x -> (0 <= js_floor x)%Z.
Proof.
  intros Hx. unfold js_floor.
  destruct (base_Int_part x) as [_ H].
  assert (Hlt : IZR (-1) < IZR (Int_part x)) by (simpl; lra).
  apply lt_IZR in Hlt. lia.
Qed.

Section SingleUnit.

Variable i : Inputs.
Hypothesis one_unit : N_units i = 1%Z.
Hypothesis deploy_rate : 0 <= units_per_year i.

Lemma N_deployed_single (y : nat) : N_deployed i y = 1%Z.
Proof.
  unfold N_deployed. rewrite one_unit.
  assert (0 <= js_floor (INR y * units_per_year i))%Z.
  { apply js_floor_nonneg. apply Rmult_le_pos; [apply pos_INR | exact deploy_rate]. }
  lia.
Qed.

Lemma N_prev_single_0 : N_prev i 0 = 0%Z.
Proof. reflexivity. Qed.

Lemma N_prev_single_S (y : nat) : N_prev i (S y) = 1%Z.
Proof.
  unfold N_prev. simpl Nat.eqb. cbv iota. rewrite one_unit.
  assert (0 <= js_floor ((INR (S y) - 1) * units_per_year i))%Z.
  { apply js_floor_nonneg. apply Rmult_le_pos; [|exact deploy_rate].
    rewrite S_INR. pose proof (pos_INR y). lra. }
  lia.
Qed.

Lemma unit_capex_single : unit_capex i = [CAPEX_unit1 i].
Proof.
  unfold unit_capex. rewrite one_unit, zrange_single. simpl.
  now rewrite Rpower_one_base, Rmult_1_r.
Qed.

Lemma capex_fleet_total_single : capex_fleet_total i = CAPEX_unit1 i.
Proof.
  unfold capex_fleet_total. rewrite unit_capex_single. simpl. lra.
Qed.

Lemma capex_year_single_0 : capex_year i 0 = CAPEX_unit1 i.
Proof.
  unfold capex_year. rewrite N_prev_single_0, N_deployed_single.
  rewrite zrange_single, unit_capex_single. simpl.
  unfold index_or_0. simpl. lra.
Qed.

Lemma capex_year_single_S (y : nat) : capex_year i (S y) = 0.
Proof.
  unfold capex_year. rewrite N_prev_single_S, N_deployed_single.
  rewrite zrange_empty by lia. reflexivity.
Qed.

End SingleUnit.

Lemma debt_financed_loan :
  CAPEX_debt debt_financed = 100000 /\ loan_amount debt_financed = 100000.
Proof.
  assert (H : CAPEX_debt debt_financed = 100000).
  { unfold CAPEX_debt. rewrite capex_fleet_total_single by reflexivity.
    unfold CAPEX_unit1. simpl. lra. }
  split; [exact H|]. unfold loan_amount. rewrite H. simpl. lra.
Qed.

Lemma annual_debt_service_cases_witness :
  23199 < annual_debt_service debt_financed < 23200.
Proof.
  destruct debt_financed_loan as [Hd Hl].
  apply (annual_debt_service_cases debt_financed).
  - rewrite Hd. lra.
  - exact Hl.
  - reflexivity.
  - reflexivity.
Defined.

(** ** A single unit that sells power only, on equity *)

Section PowerOnly.

Variable i : Inputs.
Hypothesis one_unit : N_units i = 1%Z.
Hypothesis deploy_rate : 0 <= units_per_year i.
Hypothesis no_power_escalation : r_power i = 0.
Hypothesis no_thermal : R_therm i = 0.
Hypothesis no_tipping : R_tipping i = 0.
Hypothesis no_carbon : P_carbon i = 0.
Hypothesis no_maintenance : R_maint i = 0.
Hypothesis no_fuel_processing : C_fuel_process i = 0.
Hypothesis full_equity : f_equity i = 1.

Lemma R_pwr_power_only (y : nat) :
  R_pwr i y = E_power_yr i * f_power_util i * R_power i.
Proof.
  unfold R_pwr, esc_power.
  rewrite N_deployed_single, no_power_escalation by assumption.
  replace (1 + 0 / 100) with 1 by lra. rewrite pow1. lra.
Qed.

Lemma R_total_power_only (y : nat) :
  R_total i y = E_power_yr i * f_power_util i * R_power i.
Proof.
  unfold R_total. rewrite R_pwr_power_only.
  unfold R_thrm, R_tip, R_crb.
  rewrite no_thermal, no_tipping, no_carbon. lra.
Qed.

Lemma OPEX_power_only (y : nat) :
  OPEX i y = (C_insurance i + C_acct_mgmt i) * 1.03 ^ y.
Proof.
  unfold OPEX, C_maint, C_fuel, C_fixed, esc_fixed.
  rewrite N_deployed_single, no_maintenance, no_fuel_processing by assumption.
  lra.
Qed.

Lemma DS_power_only (y : nat) : DS i y = 0.
Proof.
  apply DS_zero. now apply annual_debt_service_full_equity.
Qed.

Lemma CF_power_only_0 :
  CF i 0 =
    E_power_yr i * f_power_util i * R_power i
    - (C_insurance i + C_acct_mgmt i) - CAPEX_unit1 i.
Proof.
  unfold CF.
  rewrite R_total_power_only, OPEX_power_only, DS_power_only.
  rewrite capex_year_single_0 by assumption. simpl. lra.
Qed.

Lemma CF_power_only_S (y : nat) :
  CF i (S y) =
    E_power_yr i * f_power_util i * R_power i
    - (C_insurance i + C_acct_mgmt i) * 1.03 ^ S y.
Proof.
  unfold CF.
  rewrite R_total_power_only, OPEX_power_only, DS_power_only.
  rewrite capex_year_single_S by assumption. lra.
Qed.

End PowerOnly.

(** ** A horizon of one year *)

Lemma year_loop_horizon_1 (i : Inputs) :
  T_project i = 1%Z ->
  years (year_loop i) =
    [year_record i 0 (0 + DCF i 0); year_record i 1 (0 + DCF i 0 + DCF i 1)] /\
  NPV i = 0 + DCF i 0 + DCF i 1 /\
  payback_disc (year_loop i) =
    payback_update (payback_update None 0 (0 + DCF i 0)) 1 (0 + DCF i 0 + DCF i 1).
Proof.
  intros HT. unfold NPV, year_loop, project_years. rewrite HT.
  repeat split.
Qed.

Lemma run_horizon_1 (i : Inputs) :
  T_project i = 1%Z ->
  exists res : ModelResult,
    runFinancialModel i = Some res /\
    res_years res =
      [year_record i 0 (0 + DCF i 0); year_record i 1 (0 + DCF i 0 + DCF i 1)] /\
    res_NPV res = 0 + DCF i 0 + DCF i 1 /\
    res_IRR res = IRR i /\
    res_E_power_yr res = E_power_yr i /\
    res_payback_disc res =
      payback_update (payback_update None 0 (0 + DCF i 0)) 1 (0 + DCF i 0 + DCF i 1).
Proof.
  intros HT.
  destruct (runFinancialModel_returns i) as [res Hres]; [lia|].
  destruct (runFinancialModel_fields i res Hres)
    as (Hyears & Hnpv & Hirr & Hpb & _ & _ & _ & HE & _).
  destruct (year_loop_horizon_1 i HT) as (Hy & Hn & Hp).
  exists res. rewrite Hyears, Hnpv, Hpb, Hy, Hn, Hp.
  repeat split; assumption.
Qed.

(** ** The worked scenario *)

Lemma worked_scenario_cash_flows (i : Inputs) :
  worked_scenario i ->
  E_power_yr i = 876000 /\
  R_pwr i 1 = 87600 /\
  CF i 0 = 87600 /\ CF i 1 = 87600 /\
  DCF i 0 = 87600 /\ DCF i 1 = 87600.
Proof.
  unfold worked_scenario.
  intros (HN & Hav & HP & Hu & HR & Hrp & Hrt & Hrti & Hrc & Hrm & Hrf &
          Hcb & Hce & Hci & HRm & Hcf & Hins & Hacct & Heq & Hrd & HT &
          HRt & HRti & HPc & Hupy & HLR).
  assert (HE : E_power_yr i = 876000).
  { unfold E_power_yr, hours_yr. rewrite HP, Hav. lra. }
  assert (HC : CAPEX_unit1 i = 0).
  { unfold CAPEX_unit1. rewrite Hcb, Hce, Hci. lra. }
  assert (H0 : CF i 0 = 87600).
  { rewrite CF_power_only_0 by assumption.
    rewrite HE, Hu, HR, Hins, Hacct, HC. lra. }
  assert (H1 : CF i 1 = 87600).
  { rewrite CF_power_only_S by assumption.
    rewrite HE, Hu, HR, Hins, Hacct. lra. }
  repeat split; try assumption.
  - rewrite R_pwr_power_only by assumption. rewrite HE, Hu, HR. lra.
  - unfold DCF, discount_factor. rewrite H0. simpl. lra.
  - unfold DCF, discount_factor. rewrite H1, Hrd. simpl. lra.
Qed.

(** C1 (amended).  In the worked scenario a run returns annual energy
    876,000, year-1 power revenue 87,600, a cash flow of 87,600 in year 0 and
    in year 1 (the unit earns from year 0 on), NPV 175,200, IRR null and
    discounted payback year 1. *)
Theorem worked_scenario_result (i : Inputs) :
  worked_scenario i ->
  exists (res : ModelResult) (yr0 yr1' : YearRecord),
    runFinancialModel i = Some res /\
    res_years res = [yr0; yr1'] /\
    yr_y yr0 = 0%nat /\ yr_y yr1' = 1%nat /\
    res_E_power_yr res = 876000 /\
    yr_R_pwr yr1' = 87600 /\
    yr_CF yr0 = 87600 /\
    yr_CF yr1' = 87600 /\
    res_NPV res = 175200 /\
    res_IRR res = None /\
    res_payback_disc res = Some 1%nat.
Proof.
  intros Hw.
  destruct (worked_scenario_cash_flows i Hw) as (HE & HR & H0 & H1 & HD0 & HD1).
  assert (HT : T_project i = 1%Z) by (unfold worked_scenario in Hw; tauto).
  destruct (run_horizon_1 i HT) as (res & Hres & Hyears & Hnpv & Hirr & HEr & Hpb).
  exists res, (year_record i 0 (0 + DCF i 0)),
    (year_record i 1 (0 + DCF i 0 + DCF i 1)).
  split; [exact Hres|]. split; [exact Hyears|].
  split; [reflexivity|]. split; [reflexivity|].
  split; [now rewrite HEr|].
  split; [exact HR|]. split; [exact H0|]. split; [exact H1|].
  split; [rewrite Hnpv, HD0, HD1; lra|].
  split.
  - rewrite Hirr, IRR_unfold.
    destruct (year_loop_horizon_1 i HT) as (Hy & _ & _). rewrite Hy.
    apply irr_of_none_positive. intros r Hr.
    apply npv_test_pos; [lra | |].
    + intros yr [<- | [<- | []]]; simpl; lra.
    + exists (year_record i 0 (0 + DCF i 0)). split; [now left | simpl; lra].
  - rewrite Hpb, HD0, HD1. unfold payback_update. simpl.
    now rewrite Rleb_true by lra.
Qed.

Lemma worked_is_worked_scenario : worked_scenario worked.
Proof.
  unfold worked_scenario, worked, single_unit. simpl.
  repeat split; try reflexivity; lra.
Qed.

(** The worked scenario against the figures of the specification: the cash
    flow of year 0 is not 0 and the NPV is not 87,600. *)
Lemma worked_scenario_year0_counterexample :
  worked_scenario worked /\
  exists (res : ModelResult) (yr0 : YearRecord),
    runFinancialModel worked = Some res /\
    nth_error (res_years res) 0 = Some yr0 /\
    yr_y yr0 = 0%nat /\
    yr_CF yr0 <> 0 /\
    res_NPV res <> 87600.
Proof.
  split; [exact worked_is_worked_scenario|].
  destruct (worked_scenario_cash_flows worked worked_is_worked_scenario)
    as (_ & _ & H0 & _ & HD0 & HD1).
  destruct (run_horizon_1 worked eq_refl) as (res & Hres & Hyears & Hnpv & _).
  exists res, (year_record worked 0 (0 + DCF worked 0)).
  split; [exact Hres|]. rewrite Hyears, Hnpv.
  split; [reflexivity|]. split; [reflexivity|]. split.
  - change (yr_CF (year_record worked 0 (0 + DCF worked 0))) with (CF worked 0).
    rewrite H0. lra.
  - rewrite HD0, HD1. lra.
Qed.

Lemma worked_scenario_result_witness :
  exists (res : ModelResult) (yr0 yr1' : YearRecord),
    runFinancialModel worked = Some res /\
    res_years res = [yr0; yr1'] /\
    yr_y yr0 = 0%nat /\ yr_y yr1' = 1%nat /\
    res_E_power_yr res = 876000 /\
    yr_R_pwr yr1' = 87600 /\
    yr_CF yr0 = 87600 /\
    yr_CF yr1' = 87600 /\
    res_NPV res = 175200 /\
    res_IRR res = None /\
    res_payback_disc res = Some 1%nat.
Proof.
  apply (worked_scenario_result worked).
  unfold worked_scenario, worked, single_unit. simpl.
  repeat split; try reflexivity; lra.
Defined.

(** ** IRR is null without a sign change *)

Lemma cash_flows_positive_or_null (l : list YearRecord) :
  (forall yr, In yr l -> 0 <= yr_CF yr) ->
  (exists yr, In yr l /\ 0 < yr_CF yr) \/ (forall yr, In yr l -> yr_CF yr <= 0).
Proof.
  induction l as [|yr l IH]; intros H.
  - right. intros yr [].
  - destruct (Rlt_dec 0 (yr_CF yr)) as [Hpos | Hnpos].
    + left. exists yr. split; [now left | exact Hpos].
    + destruct IH as [[yr' [Hin Hpos]] | Hall].
      * intros yr' Hin. apply H. now right.
      * left. exists yr'. split; [now right | exact Hpos].
      * right. intros yr' [<- | Hin]; [lra | now apply Hall].
Qed.

Lemma irr_of_none_same_sign (l : list YearRecord) :
  (forall yr, In yr l -> 0 <= yr_CF yr) \/ (forall yr, In yr l -> yr_CF yr <= 0) ->
  irr_of l = None.
Proof.
  intros [Hnonneg | Hnonpos].
  - destruct (cash_flows_positive_or_null l Hnonneg) as [Hex | Hall].
    + apply irr_of_none_positive. intros r Hr. apply npv_test_pos; [lra | assumption..].
    + apply irr_of_none_nonpositive. intros r Hr. apply npv_test_nonpos; [lra | assumption].
  - apply irr_of_none_nonpositive. intros r Hr. apply npv_test_nonpos; [lra | assumption].
Qed.

(** C4 (amended).  A run reports IRR as null whenever the NPV-at-rate
    function over its cash flows is positive at every rate from -0.5 to 2.0
    or positive at none of them; in particular whenever no cash flow is
    negative or no cash flow is positive. *)
Theorem irr_null_without_sign_change (i : Inputs) :
  (0 <= T_project i)%Z ->
  exists res : ModelResult,
    runFinancialModel i = Some res /\
    ((forall rate, -0.5 <= rate <= 2.0 -> 0 < npv_test (res_years res) rate) \/
     (forall rate, -0.5 <= rate <= 2.0 -> npv_test (res_years res) rate <= 0) ->
     res_IRR res = None) /\
    ((forall yr, In yr (res_years res) -> 0 <= yr_CF yr) \/
     (forall yr, In yr (res_years res) -> yr_CF yr <= 0) ->
     res_IRR res = None).
Proof.
  intros HT. destruct (runFinancialModel_returns i HT) as [res Hres].
  destruct (runFinancialModel_fields i res Hres) as (Hyears & _ & Hirr & _).
  exists res. split; [exact Hres|]. rewrite Hirr, Hyears, IRR_unfold. split.
  - intros [Hpos | Hnonpos].
    + apply irr_of_none_positive. intros r Hr. apply Hpos. lra.
    + apply irr_of_none_nonpositive. intros r Hr. apply Hnonpos. lra.
  - apply irr_of_none_same_sign.
Qed.

Lemma irr_null_without_sign_change_witness :
  exists res : ModelResult,
    runFinancialModel worked = Some res /\
    ((forall rate, -0.5 <= rate <= 2.0 -> 0 < npv_test (res_years res) rate) \/
     (forall rate, -0.5 <= rate <= 2.0 -> npv_test (res_years res) rate <= 0) ->
     res_IRR res = None) /\
    ((forall yr, In yr (res_years res) -> 0 <= yr_CF yr) \/
     (forall yr, In yr (res_years res) -> yr_CF yr <= 0) ->
     res_IRR res = None).
Proof.
  apply (irr_null_without_sign_change worked). simpl. lia.
Defined.

(** ** A non-null IRR sits in a bracket with a sign change *)

Lemma irr_of_some (l : list YearRecord) (irr : R) :
  irr_of l = Some irr ->
  exists lo hi : R,
    irr_loop l 100 (-0.5) 2.0 = (lo, hi) /\
    -0.5 < lo /\ lo < irr < hi /\ hi < 2.0 /\
    irr = (lo + hi) / 2 /\
    hi - lo < 0.0001 /\
    0 < npv_test l lo /\ npv_test l hi <= 0.
Proof.
  unfold irr_of. destruct (irr_loop l 100 (-0.5) 2.0) as [lo hi] eqn:E.
  destruct (Rltb 0.01 (Rabs (lo - -0.5))) eqn:Elo; [|discriminate].
  destruct (Rltb 0.01 (Rabs (hi - 2.0))) eqn:Ehi; [|discriminate].
  simpl. intros H. injection H as <-.
  apply Rltb_true_inv in Elo, Ehi.
  pose proof (irr_loop_bracket l 100 (-0.5) 2.0 lo hi) as Hb.
  destruct Hb as (H1 & H2 & H3 & H4 & H5 & H6); [lra | exact E |].
  assert (Hlo : lo <> -0.5).
  { intros ->. replace (-0.5 - -0.5) with 0 in Elo by lra.
    rewrite Rabs_R0 in Elo. lra. }
  assert (Hhi : hi <> 2.0).
  { intros ->. replace (2.0 - 2.0) with 0 in Ehi by lra.
    rewrite Rabs_R0 in Ehi. lra. }
  exists lo, hi. split; [reflexivity|].
  split; [lra|]. split; [lra|]. split; [lra|]. split; [reflexivity|].
  split.
  - destruct H6 as [H6 | H6]; [exact H6|]. rewrite H6.
    apply Rmult_lt_reg_r with (2 ^ 100); [apply pow_lt; lra|].
    unfold Rdiv. rewrite Rmult_assoc, Rinv_l by (apply pow_nonzero; lra). lra.
  - split.
    + destruct H4 as [H4 | H4]; [contradiction | exact H4].
    + destruct H5 as [H5 | H5]; [contradiction | exact H5].
Qed.

(** C3 (amended).  When a run returns a non-null IRR, that IRR is the middle
    of a bracket of rates narrower than 1e-4 inside (-0.5, 2.0) at whose
    lower end the NPV formula over the run's cash flows is positive and at
    whose upper end it is not. *)
Theorem irr_within_tolerance_of_sign_change
    (i : Inputs) (res : ModelResult) (irr : R) :
  runFinancialModel i = Some res ->
  res_IRR res = Some irr ->
  exists lo hi : R,
    -0.5 < lo /\ lo < irr < hi /\ hi < 2.0 /\
    irr = (lo + hi) / 2 /\
    hi - lo < 0.0001 /\
    0 < npv_test (res_years res) lo /\
    npv_test (res_years res) hi <= 0.
Proof.
  intros Hres Hirr.
  destruct (runFinancialModel_fields i res Hres) as (Hyears & _ & HI & _).
  rewrite HI, IRR_unfold in Hirr. rewrite Hyears.
  destruct (irr_of_some _ _ Hirr) as (lo & hi & _ & H).
  exists lo, hi. exact H.
Qed.

(** ** Concrete runs *)


Lemma no_debt_no_coverage_ratio_witness :
  exists res : ModelResult,
    runFinancialModel worked = Some res /\
    (forall yr, In yr (res_years res) -> yr_DS yr = 0 /\ yr_DSCR yr = None) /\
    res_DSCR_min res = None /\
    ~ In DSCR_below_1 (res_warnings res) /\
    ~ In DSCR_below_covenant (res_warnings res).
Proof.
  apply (no_debt_no_coverage_ratio worked).
  - simpl. lia.
  - left. reflexivity.
Defined.

Lemma horizon_zero_year1_fields_witness :
  exists (res : ModelResult) (yr0 : YearRecord),
    runFinancialModel year_0_only = Some res /\
    res_years res = [yr0] /\
    yr_y yr0 = 0%nat /\
    res_R_per_unit res =
      (if (0 <? yr_N_deployed yr0)%Z
       then yr_R_total yr0 / IZR (yr_N_deployed yr0) else 0) /\
    res_R_per_unit_power res =
      (if (0 <? yr_N_deployed yr0)%Z
       then yr_R_pwr yr0 / IZR (yr_N_deployed yr0) else 0) /\
    res_R_per_unit_therm res =
      (if (0 <? yr_N_deployed yr0)%Z
       then yr_R_thrm yr0 / IZR (yr_N_deployed yr0) else 0) /\
    res_R_per_unit_tip res =
      (if (0 <? yr_N_deployed yr0)%Z
       then yr_R_tip yr0 / IZR (yr_N_deployed yr0) else 0) /\
    res_R_per_unit_carbon res =
      (if (0 <? yr_N_deployed yr0)%Z
       then yr_R_crb yr0 / IZR (yr_N_deployed yr0) else 0) /\
    res_yr1_revenue res = yr_R_total yr0 /\
    res_yr1_opex res = yr_OPEX yr0 /\
    res_yr1_ebitda res = yr_EBITDA yr0.
Proof.
  apply (horizon_zero_year1_fields year_0_only). reflexivity.
Defined.
Lemma irr_loop_step_lo_at (yrs : list YearRecord) (n : nat) (lo hi mid : R) :
  mid = (lo + hi) / 2 -> lo < hi -> 0 < npv_test yrs mid -> 0.0001 <= hi - mid ->
  irr_loop yrs (S n) lo hi = irr_loop yrs n mid hi.
Proof.
  intros -> Hlt Hpos Hw. apply irr_loop_step_lo; try assumption. lra.
Qed.

Lemma irr_loop_step_hi_at (yrs : list YearRecord) (n : nat) (lo hi mid : R) :
  mid = (lo + hi) / 2 -> lo < hi -> npv_test yrs mid <= 0 -> 0.0001 <= mid - lo ->
  irr_loop yrs (S n) lo hi = irr_loop yrs n lo mid.
Proof.
  intros -> Hlt Hneg Hw. apply irr_loop_step_hi; try assumption. lra.
Qed.

Lemma irr_loop_stop_hi_at (yrs : list YearRecord) (n : nat) (lo hi mid : R) :
  mid = (lo + hi) / 2 -> lo < hi -> npv_test yrs mid <= 0 -> mid - lo < 0.0001 ->
  irr_loop yrs (S n) lo hi = (lo, mid).
Proof.
  intros -> Hlt Hneg Hw. apply irr_loop_stop_hi; try assumption. lra.
Qed.

Lemma with_equipment_cash_flows :
  CF with_equipment 0 = -50000 /\ CF with_equipment 1 = 87600.
Proof.
  split.
  - rewrite CF_power_only_0; try reflexivity; [|simpl; lra].
    unfold E_power_yr, hours_yr, CAPEX_unit1. simpl. lra.
  - rewrite CF_power_only_S; try reflexivity; [|simpl; lra].
    unfold E_power_yr, hours_yr. simpl. lra.
Qed.

Lemma with_equipment_npv_test (r : R) :
  -1 < r ->
  npv_test (years (year_loop with_equipment)) r = -50000 + 87600 / (1 + r).
Proof.
  intros Hr. destruct (year_loop_horizon_1 with_equipment eq_refl) as (Hy & _).
  destruct with_equipment_cash_flows as [H0 H1].
  rewrite Hy, !npv_test_cons, npv_test_nil. simpl yr_CF. simpl yr_y.
  rewrite H0, H1. simpl. field. lra.
Qed.

Lemma with_equipment_npv_sign (r : R) :
  -1 < r ->
  (r < 0.752 -> 0 < npv_test (years (year_loop with_equipment)) r) /\
  (0.752 <= r -> npv_test (years (year_loop with_equipment)) r <= 0).
Proof.
  intros Hr. rewrite with_equipment_npv_test by exact Hr.
  assert (Hd : 0 < 1 + r) by lra.
  assert (E : -50000 + 87600 / (1 + r) = (87600 - 50000 * (1 + r)) / (1 + r))
    by (field; lra).
  rewrite E. split; intros H.
  - apply Rdiv_lt_0_compat; lra.
  - unfold Rdiv. 
    assert (0 < / (1 + r)) by (apply Rinv_0_lt_compat; lra).
    assert (87600 - 50000 * (1 + r) <= 0) by lra. nra.
Qed.

Lemma with_equipment_bracket :
  irr_loop (years (year_loop with_equipment)) 100 (-0.5) 2.0 =
    (0.751983642578125, 0.7520599365234375).
Proof.
  set (l := years (year_loop with_equipment)).
  assert (Hlo : forall r, -1 < r -> r < 0.752 -> 0 < npv_test l r)
    by (intros r Hr; apply with_equipment_npv_sign; exact Hr).
  assert (Hhi : forall r, -1 < r -> 0.752 <= r -> npv_test l r <= 0)
    by (intros r Hr; apply with_equipment_npv_sign; exact Hr).
  rewrite (irr_loop_step_lo_at l _ _ _ 0.75); [| lra | lra | apply Hlo; lra | lra].
  rewrite (irr_loop_step_hi_at l _ _ _ 1.375); [| lra | lra | apply Hhi; lra | lra].
  rewrite (irr_loop_step_hi_at l _ _ _ 1.0625); [| lra | lra | apply Hhi; lra | lra].
  rewrite (irr_loop_step_hi_at l _ _ _ 0.90625); [| lra | lra | apply Hhi; lra | lra].
  rewrite (irr_loop_step_hi_at l _ _ _ 0.828125); [| lra | lra | apply Hhi; lra | lra].
  rewrite (irr_loop_step_hi_at l _ _ _ 0.7890625); [| lra | lra | apply Hhi; lra | lra].
  rewrite (irr_loop_step_hi_at l _ _ _ 0.76953125); [| lra | lra | apply Hhi; lra | lra].
  rewrite (irr_loop_step_hi_at l _ _ _ 0.759765625); [| lra | lra | apply Hhi; lra | lra].
  rewrite (irr_loop_step_hi_at l _ _ _ 0.7548828125); [| lra | lra | apply Hhi; lra | lra].
  rewrite (irr_loop_step_hi_at l _ _ _ 0.75244140625); [| lra | lra | apply Hhi; lra | lra].
  rewrite (irr_loop_step_lo_at l _ _ _ 0.751220703125); [| lra | lra | apply Hlo; lra | lra].
  rewrite (irr_loop_step_lo_at l _ _ _ 0.7518310546875); [| lra | lra | apply Hlo; lra | lra].
  rewrite (irr_loop_step_hi_at l _ _ _ 0.75213623046875); [| lra | lra | apply Hhi; lra | lra].
  rewrite (irr_loop_step_lo_at l _ _ _ 0.751983642578125); [| lra | lra | apply Hlo; lra | lra].
  apply (irr_loop_stop_hi_at l _ _ _ 0.7520599365234375); [lra | lra | apply Hhi; lra | lra].
Qed.

Lemma with_equipment_irr :
  irr_of (years (year_loop with_equipment)) = Some 0.75202178955078125.
Proof.
  unfold irr_of. rewrite with_equipment_bracket.
  rewrite !Rabs_right by lra.
  rewrite (Rltb_true 0.01) by lra.
  rewrite Rabs_left by lra.
  rewrite (Rltb_true 0.01) by lra.
  simpl. f_equal. lra.
Qed.

Lemma with_equipment_run :
  exists res : ModelResult,
    runFinancialModel with_equipment = Some res /\
    res_years res = years (year_loop with_equipment) /\
    res_IRR res = Some 0.75202178955078125.
Proof.
  destruct (runFinancialModel_returns with_equipment) as [res Hres];
    [simpl; lia|].
  destruct (runFinancialModel_fields _ _ Hres) as (Hyears & _ & Hirr & _).
  exists res. split; [exact Hres|]. split; [exact Hyears|].
  now rewrite Hirr, IRR_unfold, with_equipment_irr.
Qed.

(** With equipment of 137,600 the cash flows are -50,000 and 87,600; the
    solver returns IRR 0.75202..., within 1e-4 of the root 0.752, and the NPV
    formula at that IRR is about -0.62, more than 1e-4 away from zero. *)
Lemma irr_npv_tolerance_counterexample :
  exists (res : ModelResult) (irr : R),
    runFinancialModel with_equipment = Some res /\
    res_IRR res = Some irr /\
    0.0001 < Rabs (npv_test (res_years res) irr).
Proof.
  destruct with_equipment_run as (res & Hres & Hyears & Hirr).
  exists res, 0.75202178955078125.
  split; [exact Hres|]. split; [exact Hirr|].
  rewrite Hyears, with_equipment_npv_test by lra.
  assert (H : 87600 / (1 + 0.75202178955078125) < 49999.5).
  { apply Rmult_lt_reg_r with (1 + 0.75202178955078125); [lra|].
    unfold Rdiv. rewrite Rmult_assoc, Rinv_l by lra. lra. }
  rewrite Rabs_left by lra. lra.
Qed.

Lemma irr_within_tolerance_of_sign_change_witness :
  exists (res : ModelResult) (irr : R),
    runFinancialModel with_equipment = Some res /\
    res_IRR res = Some irr /\
    exists lo hi : R,
      -0.5 < lo /\ lo < irr < hi /\ hi < 2.0 /\
      irr = (lo + hi) / 2 /\
      hi - lo < 0.0001 /\
      0 < npv_test (res_years res) lo /\
      npv_test (res_years res) hi <= 0.
Proof.
  destruct with_equipment_run as (res & Hres & Hyears & Hirr).
  exists res, 0.75202178955078125.
  split; [exact Hres|]. split; [exact Hirr|].
  exact (irr_within_tolerance_of_sign_change with_equipment res _ Hres Hirr).
Defined.

(** ** NPV and the discount rate *)

Lemma CF_with_r_disc (i : Inputs) (r : R) (y : nat) :
  CF (with_r_disc i r) y = CF i y.
Proof. reflexivity. Qed.

Lemma project_years_with_r_disc (i : Inputs) (r : R) :
  project_years (with_r_disc i r) = project_years i.
Proof. reflexivity. Qed.

Lemma DCF_with_r_disc (i : Inputs) (r : R) (y : nat) :
  DCF (with_r_disc i r) y = CF i y / (1 + r / 100) ^ y.
Proof. reflexivity. Qed.

Lemma years_cash_flows (i : Inputs) :
  map yr_CF (years (year_loop i)) = map (CF i) (project_years i).
Proof.
  rewrite <- years_y, map_map.
  apply map_ext_in. intros yr Hin.
  destruct (in_years_record i yr Hin) as [cum Hrec].
  rewrite Hrec at 1. reflexivity.
Qed.

Lemma pow_lt_strict (a b : R) (n : nat) :
  0 < a -> a < b -> (1 <= n)%nat -> a ^ n < b ^ n.
Proof.
  intros Ha Hab Hn. destruct n as [|n]; [lia|]. clear Hn.
  induction n as [|n IH].
  - simpl. lra.
  - change (a ^ S (S n)) with (a * a ^ S n).
    change (b ^ S (S n)) with (b * b ^ S n).
    assert (0 < a ^ S n) by (apply pow_lt; exact Ha).
    nra.
Qed.

Lemma discounted_le (c a b : R) (n : nat) :
  0 < a -> a < b -> (n = 0%nat \/ 0 <= c) -> c / b ^ n <= c / a ^ n.
Proof.
  intros Ha Hab [-> | Hc].
  - simpl. lra.
  - destruct n as [|n]; [simpl; lra|].
    assert (Hlt : a ^ S n < b ^ S n) by (apply pow_lt_strict; [assumption.. | lia]).
    assert (Hpa : 0 < a ^ S n) by (apply pow_lt; exact Ha).
    assert (Hinv : / b ^ S n < / a ^ S n).
    { apply Rinv_lt_contravar; [|exact Hlt]. apply Rmult_lt_0_compat; lra. }
    unfold Rdiv. nra.
Qed.

Lemma discounted_lt (c a b : R) (n : nat) :
  0 < a -> a < b -> (1 <= n)%nat -> 0 < c -> c / b ^ n < c / a ^ n.
Proof.
  intros Ha Hab Hn Hc.
  assert (Hlt : a ^ n < b ^ n) by (apply pow_lt_strict; assumption).
  assert (Hpa : 0 < a ^ n) by (apply pow_lt; exact Ha).
  assert (Hinv : / b ^ n < / a ^ n).
  { apply Rinv_lt_contravar; [|exact Hlt]. apply Rmult_lt_0_compat; lra. }
  unfold Rdiv. nra.
Qed.

Lemma fold_sum_le (f g : nat -> R) (l : list nat) :
  forall a b : R,
    a <= b -> (forall y, In y l -> f y <= g y) ->
    fold_left (fun acc y => acc + f y) l a <= fold_left (fun acc y => acc + g y) l b.
Proof.
  induction l as [|y l IH]; intros a b Hab H; simpl.
  - exact Hab.
  - apply IH.
    + specialize (H y (or_introl eq_refl)). lra.
    + intros y' Hin. apply H. now right.
Qed.

Lemma fold_sum_lt_acc (f g : nat -> R) (l : list nat) :
  forall a b : R,
    a < b -> (forall y, In y l -> f y <= g y) ->
    fold_left (fun acc y => acc + f y) l a < fold_left (fun acc y => acc + g y) l b.
Proof.
  induction l as [|y l IH]; intros a b Hab H; simpl.
  - exact Hab.
  - apply IH.
    + specialize (H y (or_introl eq_refl)). lra.
    + intros y' Hin. apply H. now right.
Qed.

Lemma fold_sum_lt (f g : nat -> R) (l : list nat) :
  forall a b : R,
    a <= b -> (forall y, In y l -> f y <= g y) ->
    (exists y, In y l /\ f y < g y) ->
    fold_left (fun acc y => acc + f y) l a < fold_left (fun acc y => acc + g y) l b.
Proof.
  induction l as [|y l IH]; intros a b Hab H [y0 [Hin Hlt]]; simpl.
  - destruct Hin.
  - destruct Hin as [-> | Hin].
    + apply fold_sum_lt_acc; [lra|]. intros y' Hin'. apply H. now right.
    + apply IH.
      * specialize (H y (or_introl eq_refl)). lra.
      * intros y' Hin'. apply H. now right.
      * exists y0. split; assumption.
Qed.

Lemma NPV_decreasing (i : Inputs) (r1 r2 : R) :
  -100 < r1 -> r1 < r2 ->
  (forall y, (1 <= y)%nat -> (Z.of_nat y <= T_project i)%Z -> 0 <= CF i y) ->
  (exists y, (1 <= y)%nat /\ (Z.of_nat y <= T_project i)%Z /\ 0 < CF i y) ->
  NPV (with_r_disc i r2) < NPV (with_r_disc i r1).
Proof.
  intros Hr1 Hr12 Hnonneg [y0 (Hy1 & HyT & Hpos)].
  rewrite !NPV_sum, !project_years_with_r_disc.
  assert (Hin : forall y, In y (project_years i) -> (Z.of_nat y <= T_project i)%Z).
  { intros y Hy. unfold project_years in Hy. apply in_seq in Hy. lia. }
  apply fold_sum_lt; [lra | |].
  - intros y Hy. rewrite !DCF_with_r_disc.
    apply discounted_le; [lra | lra |].
    destruct y as [|y]; [now left | right].
    apply Hnonneg; [lia | now apply Hin].
  - exists y0. split.
    + unfold project_years. apply in_seq. lia.
    + rewrite !DCF_with_r_disc. apply discounted_lt; [lra | lra | assumption..].
Qed.

(** C2 (amended).  Holding every other input fixed, the NPV a run returns is
    strictly decreasing in the discount rate, over rates above -100%, for
    every scenario whose cash flows after year 0 are all non-negative and
    not all zero; the cash flows themselves do not depend on the rate. *)
Theorem npv_decreasing_in_discount_rate (i : Inputs) (r1 r2 : R) :
  (0 <= T_project i)%Z ->
  -100 < r1 -> r1 < r2 ->
  (forall y, (1 <= y)%nat -> (Z.of_nat y <= T_project i)%Z -> 0 <= CF i y) ->
  (exists y, (1 <= y)%nat /\ (Z.of_nat y <= T_project i)%Z /\ 0 < CF i y) ->
  exists res1 res2 : ModelResult,
    runFinancialModel (with_r_disc i r1) = Some res1 /\
    runFinancialModel (with_r_disc i r2) = Some res2 /\
    map yr_CF (res_years res1) = map (CF i) (project_years i) /\
    map yr_CF (res_years res2) = map (CF i) (project_years i) /\
    res_NPV res2 < res_NPV res1.
Proof.
  intros HT Hr1 Hr12 Hnonneg Hpos.
  destruct (runFinancialModel_returns (with_r_disc i r1)) as [res1 Hres1];
    [exact HT|].
  destruct (runFinancialModel_returns (with_r_disc i r2)) as [res2 Hres2];
    [exact HT|].
  destruct (runFinancialModel_fields _ _ Hres1) as (Hy1 & Hn1 & _).
  destruct (runFinancialModel_fields _ _ Hres2) as (Hy2 & Hn2 & _).
  exists res1, res2.
  split; [exact Hres1|]. split; [exact Hres2|].
  split; [rewrite Hy1; apply (years_cash_flows (with_r_disc i r1))|].
  split; [rewrite Hy2; apply (years_cash_flows (with_r_disc i r2))|].
  rewrite Hn1, Hn2. now apply NPV_decreasing.
Qed.

Lemma npv_decreasing_in_discount_rate_witness :
  exists res1 res2 : ModelResult,
    runFinancialModel (with_r_disc worked 0) = Some res1 /\
    runFinancialModel (with_r_disc worked 10) = Some res2 /\
    map yr_CF (res_years res1) = map (CF worked) (project_years worked) /\
    map yr_CF (res_years res2) = map (CF worked) (project_years worked) /\
    res_NPV res2 < res_NPV res1.
Proof.
  destruct (worked_scenario_cash_flows worked worked_is_worked_scenario)
    as (_ & _ & _ & H1 & _).
  apply (npv_decreasing_in_discount_rate worked 0 10).
  - simpl. lia.
  - lra.
  - lra.
  - intros y Hy HyT. simpl in HyT.
    replace y with 1%nat by lia. rewrite H1. lra.
  - exists 1%nat. split; [lia|]. split; [simpl; lia|]. rewrite H1. lra.
Defined.

Lemma loss_making_cash_flows :
  CF loss_making 0 = -100 /\ CF loss_making 1 = -103.
Proof.
  split.
  - rewrite CF_power_only_0; try reflexivity; [|simpl; lra].
    unfold E_power_yr, hours_yr, CAPEX_unit1. simpl. lra.
  - rewrite CF_power_only_S; try reflexivity; [|simpl; lra].
    unfold E_power_yr, hours_yr. simpl. lra.
Qed.

Lemma loss_making_run (r : R) :
  -100 < r ->
  exists res : ModelResult,
    runFinancialModel (with_r_disc loss_making r) = Some res /\
    map yr_CF (res_years res) = [-100; -103] /\
    res_NPV res = -100 - 103 / (1 + r / 100).
Proof.
  intros Hr. destruct loss_making_cash_flows as [H0 H1].
  destruct (run_horizon_1 (with_r_disc loss_making r) eq_refl)
    as (res & Hres & Hyears & Hnpv & _).
  exists res. split; [exact Hres|].
  rewrite Hyears, Hnpv, !DCF_with_r_disc. simpl map.
  rewrite !CF_with_r_disc, H0, H1.
  split; [reflexivity|]. simpl. field. lra.
Qed.

(** A unit without revenue that pays 100 a year for insurance, escalated by
    3%: the cash flows are -100 and -103, and the NPV rises from -203 to -200
    when the discount rate rises from 0% to 3%. *)
Lemma npv_increasing_counterexample :
  exists res1 res2 : ModelResult,
    runFinancialModel (with_r_disc loss_making 0) = Some res1 /\
    runFinancialModel (with_r_disc loss_making 3) = Some res2 /\
    map yr_CF (res_years res1) = [-100; -103] /\
    map yr_CF (res_years res2) = [-100; -103] /\
    0 < 3 /\
    res_NPV res1 = -203 /\ res_NPV res2 = -200 /\
    ~ res_NPV res2 < res_NPV res1.
Proof.
  destruct (loss_making_run 0) as (res1 & Hres1 & Hcf1 & Hn1); [lra|].
  destruct (loss_making_run 3) as (res2 & Hres2 & Hcf2 & Hn2); [lra|].
  exists res1, res2.
  assert (E1 : res_NPV res1 = -203) by (rewrite Hn1; field).
  assert (E2 : res_NPV res2 = -200) by (rewrite Hn2; field).
  rewrite E1, E2. repeat split; try assumption; lra.
Qed.

(** ** Sensitivity *)

Lemma set_key_same (k : ParamKey) (v : R) (i : Inputs) :
  get_key k (set_key k v i) = v.
Proof. destruct k; reflexivity. Qed.

Lemma set_key_other (k k' : ParamKey) (v : R) (i : Inputs) :
  k' <> k -> get_key k' (set_key k v i) = get_key k' i.
Proof. intros Hne. destruct k, k'; try reflexivity; contradiction. Qed.

(** The fields outside the tracked eight are copied by every update. *)
Lemma set_key_untracked (k : ParamKey) (v : R) (i : Inputs) :
  let i' := set_key k v i in
  P_elec i' = P_elec i /\ P_therm i' = P_therm i /\ F_tpd i' = F_tpd i /\
  N_units i' = N_units i /\ f_power_util i' = f_power_util i /\
  r_power i' = r_power i /\ f_therm_util i' = f_therm_util i /\
  r_therm i' = r_therm i /\ W_tpy i' = W_tpy i /\ r_tipping i' = r_tipping i /\
  CC_methane i' = CC_methane i /\ CC_fuel i' = CC_fuel i /\
  CC_emissions i' = CC_emissions i /\ r_carbon i' = r_carbon i /\
  C_cust_power i' = C_cust_power i /\ C_cust_therm i' = C_cust_therm i /\
  C_cust_waste i' = C_cust_waste i /\ C_enexfuel i' = C_enexfuel i /\
  C_install i' = C_install i /\ C_site i' = C_site i /\
  R_maint i' = R_maint i /\ C_insurance i' = C_insurance i /\
  C_acct_mgmt i' = C_acct_mgmt i /\ r_maint i' = r_maint i /\
  r_fuel i' = r_fuel i /\ f_equity i' = f_equity i /\ r_debt i' = r_debt i /\
  T_loan i' = T_loan i /\ f_loan_fees i' = f_loan_fees i /\
  T_project i' = T_project i /\ Y_start i' = Y_start i /\ LR i' = LR i /\
  units_per_year i' = units_per_year i.
Proof. destruct k; repeat split. Qed.

Lemma set_key_T_project (k : ParamKey) (v : R) (i : Inputs) :
  T_project (set_key k v i) = T_project i.
Proof. now destruct k. Qed.

Lemma call_returns (i : Inputs) (log : list Inputs) :
  (0 <= T_project i)%Z ->
  exists res : ModelResult,
    call_runFinancialModel i log = Some (res, log ++ [i]) /\
    res_NPV res = NPV i.
Proof.
  intros HT. destruct (runFinancialModel_returns i HT) as [res Hres].
  destruct (runFinancialModel_fields i res Hres) as (_ & Hnpv & _).
  exists res. unfold call_runFinancialModel. rewrite Hres. now split.
Qed.

Section Sensitivity.

Variable baseInputs : Inputs.
Hypothesis horizon : (0 <= T_project baseInputs)%Z.

Lemma sens_row_returns (p : Param) (log : list Inputs) :
  sens_row baseInputs (NPV baseInputs) p log =
    Some (npv_row baseInputs p, log ++ [lo_inputs baseInputs p; hi_inputs baseInputs p]).
Proof.
  unfold sens_row, bind.
  destruct (call_returns (lo_inputs baseInputs p) log) as (rlo & Hlo & Hnlo).
  { unfold lo_inputs. now rewrite set_key_T_project. }
  rewrite Hlo.
  destruct (call_returns (hi_inputs baseInputs p) (log ++ [lo_inputs baseInputs p]))
    as (rhi & Hhi & Hnhi).
  { unfold hi_inputs. now rewrite set_key_T_project. }
  rewrite Hhi. unfold ret, npv_row. rewrite Hnlo, Hnhi, <- app_assoc. reflexivity.
Qed.

Lemma mapM_sens_row_returns (ps : list Param) :
  forall log : list Inputs,
    mapM (sens_row baseInputs (NPV baseInputs)) ps log =
      Some (map (npv_row baseInputs) ps,
            log ++ flat_map (fun p => [lo_inputs baseInputs p; hi_inputs baseInputs p]) ps).
Proof.
  induction ps as [|p ps IH]; intros log; simpl.
  - unfold ret. now rewrite app_nil_r.
  - unfold bind at 1. rewrite sens_row_returns.
    unfold bind at 1. rewrite IH. unfold ret.
    now rewrite <- app_assoc.
Qed.

Lemma runSensitivity_calls_returns :
  runSensitivity_calls baseInputs [] =
    Some (sort_rows (map (npv_row baseInputs) params),
          baseInputs ::
            flat_map (fun p => [lo_inputs baseInputs p; hi_inputs baseInputs p]) params).
Proof.
  unfold runSensitivity_calls. unfold bind at 1.
  destruct (call_returns baseInputs [] horizon) as (base & Hbase & Hnpv).
  rewrite Hbase, Hnpv. unfold bind at 1.
  rewrite mapM_sens_row_returns. reflexivity.
Qed.

End Sensitivity.

(** The stable insertion sort orders by descending range. *)
Lemma insert_row_perm (x : SensRow) (l : list SensRow) :
  Permutation (insert_row x l) (x :: l).
Proof.
  induction l as [|e l IH]; simpl.
  - apply Permutation_refl.
  - destruct (Rltb 0 (sens_range e - sens_range x)).
    + eapply perm_trans; [apply perm_skip, IH | apply perm_swap].
    + apply Permutation_refl.
Qed.

Lemma sort_rows_perm (l : list SensRow) : Permutation (sort_rows l) l.
Proof.
  induction l as [|x l IH]; simpl.
  - apply perm_nil.
  - eapply perm_trans; [apply insert_row_perm | now apply perm_skip].
Qed.

Lemma insert_row_sorted (x : SensRow) (l : list SensRow) :
  StronglySorted (fun a b => sens_range b <= sens_range a) l ->
  StronglySorted (fun a b => sens_range b <= sens_range a) (insert_row x l).
Proof.
  induction l as [|e l IH]; intros Hs; simpl.
  - constructor; constructor.
  - inversion Hs as [|? ? Hl He]; subst.
    destruct (Rltb 0 (sens_range e - sens_range x)) eqn:E.
    + apply Rltb_true_inv in E. constructor; [now apply IH|].
      rewrite Forall_forall. intros r Hin.
      apply (Permutation_in _ (insert_row_perm x l)) in Hin.
      destruct Hin as [<- | Hin]; [lra|].
      rewrite Forall_forall in He. now apply He.
    + apply Rltb_false_inv in E. constructor; [exact Hs|].
      constructor; [lra|].
      rewrite Forall_forall in He |- *. intros r Hin.
      specialize (He r Hin). lra.
Qed.

Lemma sort_rows_sorted (l : list SensRow) :
  StronglySorted (fun a b => sens_range b <= sens_range a) (sort_rows l).
Proof.
  induction l as [|x l IH]; simpl.
  - constructor.
  - now apply insert_row_sorted.
Qed.

(** C7.  For a positive learning rate and discount rates (baseline and
    scaled) other than -100%, a sensitivity run calls the model 17 times:
    once on the baseline, then for each of the 8 tracked parameters on the
    copy with that parameter scaled by 0.8 and on the copy with it scaled by
    1.2, every other input field unchanged.  It returns the 8 rows of NPV
    deltas against the baseline NPV, sorted by descending range
    |NPV(+20%) - NPV(-20%)|, so the first row has the largest range. *)
Theorem sensitivity_rows_sorted_by_range (i : Inputs) :
  (0 <= T_project i)%Z ->
  0 < LR i ->
  r_disc i <> -100 ->
  r_disc i * 0.8 <> -100 ->
  r_disc i * 1.2 <> -100 ->
  exists (rows : list SensRow) (log : list Inputs),
    runSensitivity_calls i [] = Some (rows, log) /\
    runSensitivity i = Some rows /\
    log = i :: flat_map (fun p => [lo_inputs i p; hi_inputs i p]) params /\
    length log = 17%nat /\
    map key params =
      [K_R_power; K_R_therm; K_R_tipping; K_P_carbon;
       K_f_avail; K_C_biochp; K_C_fuel_process; K_r_disc] /\
    (forall p, In p params ->
       scaled_copy i (key p) 0.8 (lo_inputs i p) /\
       scaled_copy i (key p) 1.2 (hi_inputs i p)) /\
    Permutation rows
      (map (fun p =>
              mkRow (label p)
                (NPV (lo_inputs i p) - NPV i)
                (NPV (hi_inputs i p) - NPV i)
                (Rabs (NPV (hi_inputs i p) - NPV (lo_inputs i p))))
           params) /\
    length rows = 8%nat /\
    StronglySorted (fun a b => sens_range b <= sens_range a) rows /\
    (forall first rest, rows = first :: rest ->
       forall r, In r rows -> sens_range r <= sens_range first).
Proof.
  intros HT _ _ _ _.
  pose proof (runSensitivity_calls_returns i HT) as Hrun.
  unfold npv_row in Hrun.
  eexists. eexists.
  split; [exact Hrun|].
  split; [unfold runSensitivity; rewrite Hrun; reflexivity|].
  split; [reflexivity|].
  split; [reflexivity|].
  split; [reflexivity|].
  split.
  { intros p _. unfold lo_inputs, hi_inputs, scaled_copy.
    destruct (key p); simpl; repeat split. }
  split; [apply sort_rows_perm|].
  split.
  { rewrite (Permutation_length (sort_rows_perm _)). reflexivity. }
  split; [apply sort_rows_sorted|].
  intros first rest Hrows r Hin.
  pose proof (sort_rows_sorted
    (map (fun p =>
            mkRow (label p)
              (NPV (lo_inputs i p) - NPV i)
              (NPV (hi_inputs i p) - NPV i)
              (Rabs (NPV (hi_inputs i p) - NPV (lo_inputs i p))))
         params)) as Hs.
  rewrite Hrows in Hs, Hin. inversion Hs as [|? ? _ Hall]; subst.
  destruct Hin as [<- | Hin]; [lra|].
  rewrite Forall_forall in Hall. now apply Hall.
Qed.

Lemma sensitivity_rows_sorted_by_range_witness :
  exists (rows : list SensRow) (log : list Inputs),
    runSensitivity_calls defaults [] = Some (rows, log) /\
    runSensitivity defaults = Some rows /\
    log = defaults :: flat_map (fun p => [lo_inputs defaults p; hi_inputs defaults p]) params /\
    length log = 17%nat /\
    map key params =
      [K_R_power; K_R_therm; K_R_tipping; K_P_carbon;
       K_f_avail; K_C_biochp; K_C_fuel_process; K_r_disc] /\
    (forall p, In p params ->
       scaled_copy defaults (key p) 0.8 (lo_inputs defaults p) /\
       scaled_copy defaults (key p) 1.2 (hi_inputs defaults p)) /\
    Permutation rows
      (map (fun p =>
              mkRow (label p)
                (NPV (lo_inputs defaults p) - NPV defaults)
                (NPV (hi_inputs defaults p) - NPV defaults)
                (Rabs (NPV (hi_inputs defaults p) - NPV (lo_inputs defaults p))))
           params) /\
    length rows = 8%nat /\
    StronglySorted (fun a b => sens_range b <= sens_range a) rows /\
    (forall first rest, rows = first :: rest ->
       forall r, In r rows -> sens_range r <= sens_range first).
Proof.
  apply (sensitivity_rows_sorted_by_range defaults).
  - simpl. lia.
  - simpl. lra.
  - simpl. lra.
  - simpl. lra.
  - simpl. lra.
Defined.

(** ** A root the NPV formula touches without crossing *)

Lemma npv_test_records (i : Inputs) (l : list YearRecord) (r : R) :
  Forall (is_year_record i) l ->
  npv_test l r =
    fold_right (fun y acc => CF i y / (1 + r) ^ y + acc) 0 (map yr_y l).
Proof.
  induction l as [|yr l IH]; intros H.
  - reflexivity.
  - inversion H as [|? ? [cum Hrec] Hl]; subst.
    rewrite npv_test_cons, IH by exact Hl. simpl.
    rewrite Hrec at 1. reflexivity.
Qed.

Lemma npv_test_years (i : Inputs) (r : R) :
  npv_test (years (year_loop i)) r =
    fold_right (fun y acc => CF i y / (1 + r) ^ y + acc) 0 (project_years i).
Proof.
  rewrite (npv_test_records i) by apply years_records.
  now rewrite years_y.
Qed.

Lemma js_floor_INR (n : nat) : js_floor (INR n) = Z.of_nat n.
Proof. apply Int_part_INR. Qed.

Lemma capped_waste_deployment :
  N_deployed capped_waste 0 = 1%Z /\ N_prev capped_waste 0 = 0%Z /\
  N_deployed capped_waste 1 = 2%Z /\ N_prev capped_waste 1 = 1%Z /\
  N_deployed capped_waste 2 = 2%Z /\ N_prev capped_waste 2 = 2%Z.
Proof.
  unfold N_deployed, N_prev. simpl Nat.eqb. cbv iota.
  change (units_per_year capped_waste) with 1.
  change (N_units capped_waste) with 2%Z.
  rewrite !Rmult_1_r.
  replace (INR 1 - 1) with (INR 0) by (simpl; lra).
  replace (INR 2 - 1) with (INR 1) by (simpl; lra).
  rewrite !js_floor_INR. repeat split.
Qed.

Lemma capped_waste_unit_capex : unit_capex capped_waste = [38325; 38325].
Proof.
  unfold unit_capex, zrange, lr_exp, CAPEX_unit1. simpl.
  rewrite ln_1. unfold Rdiv. rewrite Rmult_0_l.
  unfold Rpower. rewrite !Rmult_0_l, exp_0.
  repeat f_equal; lra.
Qed.

Lemma capped_waste_capex_year :
  capex_year capped_waste 0 = 38325 /\
  capex_year capped_waste 1 = 38325 /\
  capex_year capped_waste 2 = 0.
Proof.
  destruct capped_waste_deployment as (D0 & P0 & D1 & P1 & D2 & P2).
  unfold capex_year.
  rewrite D0, P0, D1, P1, D2, P2, capped_waste_unit_capex.
  unfold zrange, index_or_0. simpl. repeat split; lra.
Qed.

Lemma capped_waste_cash_flows :
  CF capped_waste 0 = 5840 /\
  CF capped_waste 1 = -20440 /\
  CF capped_waste 2 = 17885.
Proof.
  destruct capped_waste_deployment as (D0 & _ & D1 & _ & D2 & _).
  destruct capped_waste_capex_year as (C0 & C1 & C2).
  assert (HDS : forall y, DS capped_waste y = 0).
  { intros y. apply DS_zero. now apply annual_debt_service_full_equity. }
  unfold CF. rewrite !HDS, C0, C1, C2.
  unfold R_total, OPEX, R_pwr, R_thrm, R_tip, R_crb, C_maint, C_fuel, C_fixed,
    W_tipped, E_power_yr, E_therm_yr, F_tpy, hours_yr,
    esc_power, esc_therm, esc_tip, esc_carbon, esc_maint, esc_fuel, esc_fixed.
  rewrite D0, D1, D2. simpl.
  replace (1 * (1 * 365 * 1)) with 365 by lra.
  replace (2 * (1 * 365 * 1)) with 730 by lra.
  rewrite (Rmin_left 365 365) by lra.
  rewrite (Rmin_right 730 365) by lra.
  repeat split; lra.
Qed.

Lemma capped_waste_npv_test (r : R) :
  -1 < r ->
  npv_test (years (year_loop capped_waste)) r = 365 * (4 - 7 / (1 + r)) ^ 2.
Proof.
  intros Hr. destruct capped_waste_cash_flows as (H0 & H1 & H2).
  rewrite npv_test_years. unfold project_years.
  change (seq 0 (Z.to_nat (T_project capped_waste + 1))) with [0; 1; 2]%nat.
  cbn [fold_right]. rewrite H0, H1, H2. field. lra.
Qed.

Lemma capped_waste_npv_nonneg (r : R) :
  -1 < r -> 0 <= npv_test (years (year_loop capped_waste)) r.
Proof.
  intros Hr. rewrite capped_waste_npv_test by exact Hr.
  apply Rmult_le_pos; [lra|]. apply pow2_ge_0.
Qed.

Lemma capped_waste_npv_pos (r : R) :
  -1 < r -> r < 0.75 -> 0 < npv_test (years (year_loop capped_waste)) r.
Proof.
  intros Hr Hlt. rewrite capped_waste_npv_test by exact Hr.
  apply Rmult_lt_0_compat; [lra|].
  assert (H : 4 < 7 / (1 + r)).
  { apply Rmult_lt_reg_r with (1 + r); [lra|].
    unfold Rdiv. rewrite Rmult_assoc, Rinv_l by lra. lra. }
  simpl. nra.
Qed.

Lemma capped_waste_npv_root :
  npv_test (years (year_loop capped_waste)) 0.75 = 0.
Proof.
  rewrite capped_waste_npv_test by lra.
  replace (1 + 0.75) with (7 / 4) by lra.
  replace (7 / (7 / 4)) with 4 by (field; lra).
  simpl. lra.
Qed.

Lemma irr_loop_stop_lo_at (yrs : list YearRecord) (n : nat) (lo hi mid : R) :
  mid = (lo + hi) / 2 -> lo < hi -> 0 < npv_test yrs mid -> hi - mid < 0.0001 ->
  irr_loop yrs (S n) lo hi = (mid, hi).
Proof.
  intros -> Hlt Hpos Hw. apply irr_loop_stop_lo; try assumption. lra.
Qed.

Lemma capped_waste_bracket :
  irr_loop (years (year_loop capped_waste)) 100 (-0.5) 2.0 =
    (0.7499237060546875, 0.75).
Proof.
  set (l := years (year_loop capped_waste)).
  assert (Hlo : forall r, -1 < r -> r < 0.75 -> 0 < npv_test l r)
    by exact capped_waste_npv_pos.
  rewrite (irr_loop_step_hi_at l _ _ _ 0.75);
    [| lra | lra | subst l; rewrite capped_waste_npv_root; lra | lra].
  rewrite (irr_loop_step_lo_at l _ _ _ 0.125); [| lra | lra | apply Hlo; lra | lra].
  rewrite (irr_loop_step_lo_at l _ _ _ 0.4375); [| lra | lra | apply Hlo; lra | lra].
  rewrite (irr_loop_step_lo_at l _ _ _ 0.59375); [| lra | lra | apply Hlo; lra | lra].
  rewrite (irr_loop_step_lo_at l _ _ _ 0.671875); [| lra | lra | apply Hlo; lra | lra].
  rewrite (irr_loop_step_lo_at l _ _ _ 0.7109375); [| lra | lra | apply Hlo; lra | lra].
  rewrite (irr_loop_step_lo_at l _ _ _ 0.73046875); [| lra | lra | apply Hlo; lra | lra].
  rewrite (irr_loop_step_lo_at l _ _ _ 0.740234375); [| lra | lra | apply Hlo; lra | lra].
  rewrite (irr_loop_step_lo_at l _ _ _ 0.7451171875); [| lra | lra | apply Hlo; lra | lra].
  rewrite (irr_loop_step_lo_at l _ _ _ 0.74755859375); [| lra | lra | apply Hlo; lra | lra].
  rewrite (irr_loop_step_lo_at l _ _ _ 0.748779296875); [| lra | lra | apply Hlo; lra | lra].
  rewrite (irr_loop_step_lo_at l _ _ _ 0.7493896484375); [| lra | lra | apply Hlo; lra | lra].
  rewrite (irr_loop_step_lo_at l _ _ _ 0.74969482421875); [| lra | lra | apply Hlo; lra | lra].
  rewrite (irr_loop_step_lo_at l _ _ _ 0.749847412109375); [| lra | lra | apply Hlo; lra | lra].
  apply (irr_loop_stop_lo_at l _ _ _ 0.7499237060546875); [lra | lra | apply Hlo; lra | lra].
Qed.

Lemma capped_waste_irr :
  irr_of (years (year_loop capped_waste)) = Some 0.74996185302734375.
Proof.
  unfold irr_of. rewrite capped_waste_bracket.
  rewrite Rabs_right by lra.
  rewrite (Rltb_true 0.01) by lra.
  rewrite Rabs_left by lra.
  rewrite (Rltb_true 0.01) by lra.
  simpl. f_equal. lra.
Qed.

(** The NPV formula over the cash flows 5,840, -20,440, 17,885 is
    365 * (4 - 7 / (1 + rate))^2: it is never negative, so it has no sign
    change, and it is zero at rate 0.75 alone.  The solver probes 0.75 first,
    moves its upper end there, and returns IRR 0.74996... *)
Lemma irr_tangent_root_counterexample :
  exists (res : ModelResult) (irr : R),
    runFinancialModel capped_waste = Some res /\
    map yr_CF (res_years res) = [5840; -20440; 17885] /\
    (forall rate, -0.5 <= rate <= 2.0 -> 0 <= npv_test (res_years res) rate) /\
    res_IRR res = Some irr.
Proof.
  destruct (runFinancialModel_returns capped_waste) as [res Hres]; [simpl; lia|].
  destruct (runFinancialModel_fields _ _ Hres) as (Hyears & _ & Hirr & _).
  destruct capped_waste_cash_flows as (H0 & H1 & H2).
  exists res, 0.74996185302734375.
  split; [exact Hres|]. rewrite Hyears. split.
  - rewrite years_cash_flows. unfold project_years. simpl.
    now rewrite H0, H1, H2.
  - split.
    + intros rate Hrate. apply capped_waste_npv_nonneg. lra.
    + now rewrite Hirr, IRR_unfold, capped_waste_irr.
Qed.

(** * Further properties of the engine *)

(** ** The year records *)

Lemma runFinancialModel_throws (i : Inputs) :
  (T_project i < 0)%Z -> runFinancialModel i = None.
Proof.
  intros HT. unfold runFinancialModel, yr1, year_loop, project_years.
  replace (Z.to_nat (T_project i + 1)) with 0%nat by lia. reflexivity.
Qed.

Section RunningTotals.

Variable i : Inputs.

(** The state of the loop after the passes for years [0 .. n-1]. *)
Lemma loop_state_S (n : nat) :
  fold_left (year_step i) (seq 0 (S n)) loop_init =
    year_step i (fold_left (year_step i) (seq 0 n) loop_init) n.
Proof. rewrite seq_S, fold_left_app. reflexivity. Qed.

Lemma loop_cumulative_dcf (n : nat) :
  cumulative_dcf (fold_left (year_step i) (seq 0 n) loop_init) =
    fold_left (fun acc k => acc + DCF i k) (seq 0 n) 0.
Proof. apply fold_year_step_dcf. Qed.

Lemma loop_cumulative_cf (n : nat) :
  cumulative_cf (fold_left (year_step i) (seq 0 n) loop_init) =
    fold_left (fun acc k => acc + CF i k) (seq 0 n) 0.
Proof.
  induction n as [|n IH]; [reflexivity|].
  rewrite loop_state_S, seq_S, fold_left_app. simpl. now rewrite IH.
Qed.

Lemma cumulative_dcf_after_S (n : nat) :
  cumulative_dcf_after i n =
    fold_left (fun acc k => acc + DCF i k) (seq 0 n) 0 + DCF i n.
Proof.
  unfold cumulative_dcf_after. rewrite seq_S, fold_left_app. reflexivity.
Qed.

Lemma cumulative_cf_after_S (n : nat) :
  cumulative_cf_after i n =
    fold_left (fun acc k => acc + CF i k) (seq 0 n) 0 + CF i n.
Proof.
  unfold cumulative_cf_after. rewrite seq_S, fold_left_app. reflexivity.
Qed.

Lemma loop_years (n : nat) :
  years (fold_left (year_step i) (seq 0 n) loop_init) =
    map (fun y => year_record i y (cumulative_dcf_after i y)) (seq 0 n).
Proof.
  induction n as [|n IH]; [reflexivity|].
  rewrite loop_state_S, year_step_years, IH, loop_cumulative_dcf.
  rewrite (seq_S n), map_app. simpl.
  now rewrite cumulative_dcf_after_S.
Qed.

Lemma years_explicit :
  years (year_loop i) =
    map (fun y => year_record i y (cumulative_dcf_after i y)) (project_years i).
Proof. apply loop_years. Qed.

Lemma in_years_explicit (yr : YearRecord) :
  In yr (years (year_loop i)) ->
  yr = year_record i (yr_y yr) (cumulative_dcf_after i (yr_y yr)) /\
  (Z.of_nat (yr_y yr) <= T_project i)%Z.
Proof.
  intros Hin. split; [|now apply in_years_y].
  rewrite years_explicit in Hin. apply in_map_iff in Hin.
  destruct Hin as (y & <- & _). reflexivity.
Qed.

Lemma payback_update_found (cum : nat -> R) (n : nat) (p : option nat) :
  payback_found cum n p ->
  payback_found cum (S n) (payback_update p n (cum n)).
Proof.
  unfold payback_found, payback_update. destruct p as [y|].
  - intros (Hy & Hc & Hk). split; [lia|]. split; assumption.
  - intros Hk. destruct n as [|n].
    + simpl. intros k Hk'. lia.
    + simpl Nat.ltb. cbv iota. simpl andb.
      destruct (Rleb 0 (cum (S n))) eqn:E.
      * apply Rleb_true_inv in E. split; [lia|]. split; [exact E|].
        intros k Hk'. apply Hk. lia.
      * intros k Hk'. destruct (Nat.eq_dec k (S n)) as [-> | Hne].
        -- unfold Rleb in E. destruct (Rle_dec 0 (cum (S n))); [discriminate | lra].
        -- apply Hk. lia.
Qed.

Lemma loop_payback_disc (n : nat) :
  payback_found (cumulative_dcf_after i) n
    (payback_disc (fold_left (year_step i) (seq 0 n) loop_init)).
Proof.
  induction n as [|n IH].
  - simpl. intros k Hk. lia.
  - rewrite loop_state_S. unfold year_step. simpl payback_disc.
    rewrite loop_cumulative_dcf, <- cumulative_dcf_after_S.
    now apply payback_update_found.
Qed.

Lemma loop_payback_simple (n : nat) :
  payback_found (cumulative_cf_after i) n
    (payback_simple (fold_left (year_step i) (seq 0 n) loop_init)).
Proof.
  induction n as [|n IH].
  - simpl. intros k Hk. lia.
  - rewrite loop_state_S. unfold year_step. simpl payback_simple.
    rewrite loop_cumulative_cf, <- cumulative_cf_after_S.
    now apply payback_update_found.
Qed.

End RunningTotals.

Lemma sum_list_acc (l : list R) (a : R) : fold_left Rplus l a = a + sum_list l.
Proof.
  unfold sum_list. revert a. induction l as [|x l IH]; intros a; simpl.
  - lra.
  - rewrite IH, (IH (0 + x)). lra.
Qed.

Lemma sum_list_cons (x : R) (l : list R) : sum_list (x :: l) = x + sum_list l.
Proof. unfold sum_list at 1. simpl. rewrite sum_list_acc. lra. Qed.

Lemma sum_list_app (l1 l2 : list R) :
  sum_list (l1 ++ l2) = sum_list l1 + sum_list l2.
Proof.
  induction l1 as [|x l1 IH]; simpl.
  - unfold sum_list at 2. simpl. lra.
  - rewrite !sum_list_cons, IH. lra.
Qed.

Lemma sum_list_map_fold {A : Type} (f : A -> R) (l : list A) (a : R) :
  fold_left (fun acc k => acc + f k) l a = a + sum_list (map f l).
Proof.
  revert a. induction l as [|x l IH]; intros a; simpl.
  - unfold sum_list. simpl. lra.
  - rewrite IH, sum_list_cons. lra.
Qed.

Lemma nth_error_map_seq {A : Type} (f : nat -> A) (n k : nat) :
  nth_error (map f (seq 0 n)) k = if Nat.ltb k n then Some (f k) else None.
Proof.
  rewrite nth_error_map, nth_error_seq.
  destruct (Nat.ltb k n); reflexivity.
Qed.

Lemma firstn_map_seq {A : Type} (f : nat -> A) (n k : nat) :
  (k <= n)%nat -> firstn k (map f (seq 0 n)) = map f (seq 0 k).
Proof.
  intros Hk. rewrite firstn_map. f_equal.
  revert n Hk. generalize 0%nat. induction k as [|k IH]; intros s n Hk.
  - reflexivity.
  - destruct n as [|n]; [lia|]. simpl. f_equal. apply IH. lia.
Qed.

Lemma nth_error_years (i : Inputs) (k : nat) (yr : YearRecord) :
  nth_error (years (year_loop i)) k = Some yr ->
  (Z.of_nat k <= T_project i)%Z /\
  yr = year_record i k (cumulative_dcf_after i k).
Proof.
  rewrite years_explicit. unfold project_years. rewrite nth_error_map_seq.
  destruct (Nat.ltb k (Z.to_nat (T_project i + 1))) eqn:E; [|discriminate].
  apply Nat.ltb_lt in E. intros H. injection H as <-. split; [lia | reflexivity].
Qed.

Lemma cumulative_dcf_after_records (i : Inputs) (k : nat) :
  (Z.of_nat k <= T_project i)%Z ->
  cumulative_dcf_after i k =
    sum_list (map yr_DCF (firstn (S k) (years (year_loop i)))).
Proof.
  intros Hk. rewrite years_explicit. unfold project_years.
  rewrite firstn_map_seq by lia. rewrite map_map.
  unfold cumulative_dcf_after. rewrite sum_list_map_fold, Rplus_0_l.
  reflexivity.
Qed.

Lemma cumulative_cf_after_records (i : Inputs) (k : nat) :
  (Z.of_nat k <= T_project i)%Z ->
  cumulative_cf_after i k =
    sum_list (map yr_CF (firstn (S k) (years (year_loop i)))).
Proof.
  intros Hk. rewrite years_explicit. unfold project_years.
  rewrite firstn_map_seq by lia. rewrite map_map.
  unfold cumulative_cf_after. rewrite sum_list_map_fold, Rplus_0_l.
  reflexivity.
Qed.

(** X1.  A run throws exactly when the horizon is negative.  Otherwise it
    returns one record per year 0 .. T_project, in order, each carrying its
    calendar year, and within every record total revenue is the sum of the
    four streams, EBITDA is revenue less operating cost and cash flow is
    EBITDA less capital cost and debt service. *)
Theorem run_year_records (i : Inputs) :
  ((T_project i < 0)%Z -> runFinancialModel i = None) /\
  ((0 <= T_project i)%Z ->
   exists res : ModelResult,
     runFinancialModel i = Some res /\
     map yr_y (res_years res) = seq 0 (Z.to_nat (T_project i + 1)) /\
     forall yr, In yr (res_years res) ->
       yr_year yr = (Y_start i + Z.of_nat (yr_y yr))%Z /\
       yr_R_total yr = yr_R_pwr yr + yr_R_thrm yr + yr_R_tip yr + yr_R_crb yr /\
       yr_EBITDA yr = yr_R_total yr - yr_OPEX yr /\
       yr_CF yr = yr_EBITDA yr - yr_capex_year yr - yr_DS yr).
Proof.
  split; [apply runFinancialModel_throws|].
  intros HT. destruct (runFinancialModel_returns i HT) as [res Hres].
  destruct (runFinancialModel_fields i res Hres) as (Hyears & _).
  exists res. split; [exact Hres|]. rewrite Hyears.
  split; [apply years_y|].
  intros yr Hin. destruct (in_years_explicit i yr Hin) as [Hrec _].
  rewrite Hrec. simpl. repeat split.
Qed.

(** X2.  In the records a run returns, the cumulative NPV of each year is the
    sum of the discounted cash flows of the records up to and including that
    year, and the NPV returned is the cumulative NPV of the last record. *)
Theorem cumulative_npv_is_running_sum (i : Inputs) :
  (0 <= T_project i)%Z ->
  exists res : ModelResult,
    runFinancialModel i = Some res /\
    (forall k yr, nth_error (res_years res) k = Some yr ->
       yr_cumNPV yr = sum_list (map yr_DCF (firstn (S k) (res_years res)))) /\
    last (map yr_cumNPV (res_years res)) 0 = res_NPV res /\
    res_NPV res = sum_list (map yr_DCF (res_years res)).
Proof.
  intros HT. destruct (runFinancialModel_returns i HT) as [res Hres].
  destruct (runFinancialModel_fields i res Hres) as (Hyears & Hnpv & _).
  exists res. split; [exact Hres|]. rewrite Hyears, Hnpv.
  assert (Hsum : NPV i = sum_list (map yr_DCF (years (year_loop i)))).
  { rewrite NPV_sum, sum_list_map_fold, years_explicit, map_map, Rplus_0_l.
    reflexivity. }
  split; [|split; [|exact Hsum]].
  - intros k yr Hk. destruct (nth_error_years i k yr Hk) as [HkT ->].
    simpl. now apply cumulative_dcf_after_records.
  - rewrite years_explicit, map_map. simpl yr_cumNPV.
    unfold project_years.
    replace (Z.to_nat (T_project i + 1)) with (S (Z.to_nat (T_project i))) by lia.
    rewrite seq_S, map_app. cbn [map]. rewrite last_last. cbn [Nat.add].
    rewrite NPV_sum. unfold project_years, cumulative_dcf_after.
    now replace (Z.to_nat (T_project i + 1)) with (S (Z.to_nat (T_project i))) by lia.
Qed.

(** X3.  For a discount rate other than -100%, the discounted payback year,
    when a run reports one, is the first
    year after year 0 whose record has a non-negative cumulative NPV; when it
    is null every record after year 0 has a negative cumulative NPV.  Year 0
    is never reported. *)
Theorem payback_disc_is_first_recovery (i : Inputs) :
  (0 <= T_project i)%Z ->
  r_disc i <> -100 ->
  exists res : ModelResult,
    runFinancialModel i = Some res /\
    match res_payback_disc res with
    | Some p =>
        (1 <= p)%nat /\
        (exists yr, nth_error (res_years res) p = Some yr /\ 0 <= yr_cumNPV yr) /\
        (forall k yr, (1 <= k < p)%nat ->
           nth_error (res_years res) k = Some yr -> yr_cumNPV yr < 0)
    | None =>
        forall k yr, (1 <= k)%nat ->
          nth_error (res_years res) k = Some yr -> yr_cumNPV yr < 0
    end.
Proof.
  intros HT _. destruct (runFinancialModel_returns i HT) as [res Hres].
  destruct (runFinancialModel_fields i res Hres) as (Hyears & _ & _ & Hpb & _).
  exists res. split; [exact Hres|]. rewrite Hyears, Hpb.
  pose proof (loop_payback_disc i (Z.to_nat (T_project i + 1))) as Hfound.
  fold (project_years i) in Hfound. fold (year_loop i) in Hfound.
  destruct (payback_disc (year_loop i)) as [p|]; simpl in Hfound.
  - destruct Hfound as (Hp & Hc & Hk). split; [lia|]. split.
    + exists (year_record i p (cumulative_dcf_after i p)). split; [|exact Hc].
      rewrite years_explicit. unfold project_years. rewrite nth_error_map_seq.
      destruct (Nat.ltb_spec p (Z.to_nat (T_project i + 1))); [reflexivity | lia].
    + intros k yr Hkp Hnth. destruct (nth_error_years i k yr Hnth) as [_ ->].
      simpl. now apply Hk.
  - intros k yr Hk Hnth. destruct (nth_error_years i k yr Hnth) as [HkT ->].
    simpl. apply Hfound. lia.
Qed.

(** X4.  The simple payback year, when a run reports one, is the first year
    after year 0 at which the cash flows of the records so far sum to a
    non-negative total; when it is null that sum is negative at every year
    after year 0. *)
Theorem payback_simple_is_first_recovery (i : Inputs) :
  (0 <= T_project i)%Z ->
  exists res : ModelResult,
    runFinancialModel i = Some res /\
    match res_payback_simple res with
    | Some p =>
        (1 <= p)%nat /\ (Z.of_nat p <= T_project i)%Z /\
        0 <= sum_list (map yr_CF (firstn (S p) (res_years res))) /\
        (forall k, (1 <= k < p)%nat ->
           sum_list (map yr_CF (firstn (S k) (res_years res))) < 0)
    | None =>
        forall k, (1 <= k)%nat -> (Z.of_nat k <= T_project i)%Z ->
          sum_list (map yr_CF (firstn (S k) (res_years res))) < 0
    end.
Proof.
  intros HT. destruct (runFinancialModel_returns i HT) as [res Hres].
  destruct (runFinancialModel_fields i res Hres) as (Hyears & _ & _ & _ & Hpb & _).
  exists res. split; [exact Hres|]. rewrite Hyears, Hpb.
  pose proof (loop_payback_simple i (Z.to_nat (T_project i + 1))) as Hfound.
  fold (project_years i) in Hfound. fold (year_loop i) in Hfound.
  destruct (payback_simple (year_loop i)) as [p|]; simpl in Hfound.
  - destruct Hfound as (Hp & Hc & Hk). split; [lia|]. split; [lia|]. split.
    + rewrite <- cumulative_cf_after_records by lia. exact Hc.
    + intros k Hkp. rewrite <- cumulative_cf_after_records by lia. now apply Hk.
  - intros k Hk HkT. rewrite <- cumulative_cf_after_records by lia.
    apply Hfound. lia.
Qed.

Lemma payback_found_unique (c1 c2 : nat -> R) (n : nat) (p q : option nat) :
  (forall k, c1 k = c2 k) ->
  payback_found c1 n p -> payback_found c2 n q -> p = q.
Proof.
  intros Hc. unfold payback_found.
  destruct p as [y|], q as [z|].
  - intros (Hy & Hcy & Hky) (Hz & Hcz & Hkz).
    destruct (Nat.lt_trichotomy y z) as [Hlt | [-> | Hgt]]; [| reflexivity |].
    + specialize (Hkz y). rewrite <- Hc in Hkz.
      assert (c1 y < 0) by (apply Hkz; lia). lra.
    + specialize (Hky z). rewrite Hc in Hky.
      assert (c2 z < 0) by (apply Hky; lia). lra.
  - intros (Hy & Hcy & _) Hk. specialize (Hk y). rewrite <- Hc in Hk.
    assert (c1 y < 0) by (apply Hk; lia). lra.
  - intros Hk (Hz & Hcz & _). specialize (Hk z). rewrite Hc in Hk.
    assert (c2 z < 0) by (apply Hk; lia). lra.
  - reflexivity.
Qed.

Lemma DCF_zero_rate (i : Inputs) (y : nat) : r_disc i = 0 -> DCF i y = CF i y.
Proof.
  intros Hr. unfold DCF, discount_factor. rewrite Hr.
  replace (1 + 0 / 100) with 1 by lra. rewrite pow1. lra.
Qed.

Lemma fold_sum_ext (f g : nat -> R) (l : list nat) (a : R) :
  (forall k, f k = g k) ->
  fold_left (fun acc k => acc + f k) l a = fold_left (fun acc k => acc + g k) l a.
Proof.
  intros H. revert a. induction l as [|x l IH]; intros a; simpl.
  - reflexivity.
  - now rewrite H, IH.
Qed.

(** X5.  With a discount rate of zero the discounted and the simple payback
    year coincide, and the NPV is the plain sum of the yearly cash flows. *)
Theorem zero_rate_paybacks_coincide (i : Inputs) :
  (0 <= T_project i)%Z ->
  r_disc i = 0 ->
  exists res : ModelResult,
    runFinancialModel i = Some res /\
    res_payback_disc res = res_payback_simple res /\
    res_NPV res = sum_list (map yr_CF (res_years res)).
Proof.
  intros HT Hr. destruct (runFinancialModel_returns i HT) as [res Hres].
  destruct (runFinancialModel_fields i res Hres)
    as (Hyears & Hnpv & _ & Hpd & Hps & _).
  exists res. split; [exact Hres|]. rewrite Hyears, Hnpv, Hpd, Hps. split.
  - apply (payback_found_unique (cumulative_dcf_after i) (cumulative_cf_after i)
             (Z.to_nat (T_project i + 1))).
    + intros k. unfold cumulative_dcf_after, cumulative_cf_after.
      apply fold_sum_ext. intros y. now apply DCF_zero_rate.
    + apply loop_payback_disc.
    + apply loop_payback_simple.
  - rewrite NPV_sum, years_cash_flows, sum_list_map_fold, Rplus_0_l.
    f_equal. apply map_ext. intros y. now apply DCF_zero_rate.
Qed.

(** ** Deployment and the capital schedule *)

Lemma js_floor_monotone (x y : R) : x <= y -> (js_floor x <= js_floor y)%Z.
Proof.
  intros Hxy. unfold js_floor.
  destruct (base_Int_part x) as [Hx _].
  destruct (base_Int_part y) as [_ Hy].
  assert (H : IZR (Int_part x) < IZR (Int_part y + 1)).
  { rewrite plus_IZR. simpl. lra. }
  apply lt_IZR in H. lia.
Qed.

Lemma N_deployed_le_fleet (i : Inputs) (y : nat) :
  (N_deployed i y <= N_units i)%Z.
Proof. unfold N_deployed. lia. Qed.

Lemma N_deployed_monotone (i : Inputs) (y1 y2 : nat) :
  0 <= units_per_year i -> (y1 <= y2)%nat ->
  (N_deployed i y1 <= N_deployed i y2)%Z.
Proof.
  intros Hu Hy. unfold N_deployed.
  assert (js_floor (INR y1 * units_per_year i)
          <= js_floor (INR y2 * units_per_year i))%Z.
  { apply js_floor_monotone. apply Rmult_le_compat_r; [exact Hu|].
    now apply le_INR. }
  lia.
Qed.

Lemma N_deployed_at_least_one (i : Inputs) (y : nat) :
  0 <= units_per_year i -> (1 <= N_units i)%Z -> (1 <= N_deployed i y)%Z.
Proof.
  intros Hu HN. unfold N_deployed.
  assert (0 <= js_floor (INR y * units_per_year i))%Z.
  { apply js_floor_nonneg. apply Rmult_le_pos; [apply pos_INR | exact Hu]. }
  lia.
Qed.

Lemma N_prev_S (i : Inputs) (y : nat) : N_prev i (S y) = N_deployed i y.
Proof.
  unfold N_prev, N_deployed. simpl Nat.eqb. cbv iota.
  rewrite S_INR. now replace (INR y + 1 - 1) with (INR y) by lra.
Qed.

(** X6.  When the deployment rate is not negative, the deployed unit count in
    the records never decreases from one year to a later one and never
    exceeds the fleet size; with a fleet of at least one unit, at least one
    unit is deployed in every year, year 0 included. *)
Theorem deployed_units_grow_to_fleet (i : Inputs) :
  (0 <= T_project i)%Z ->
  0 <= units_per_year i ->
  exists res : ModelResult,
    runFinancialModel i = Some res /\
    (forall yr, In yr (res_years res) ->
       (yr_N_deployed yr <= N_units i)%Z /\
       ((1 <= N_units i)%Z -> (1 <= yr_N_deployed yr)%Z)) /\
    (forall k1 k2 yr1 yr2, (k1 <= k2)%nat ->
       nth_error (res_years res) k1 = Some yr1 ->
       nth_error (res_years res) k2 = Some yr2 ->
       (yr_N_deployed yr1 <= yr_N_deployed yr2)%Z).
Proof.
  intros HT Hu. destruct (runFinancialModel_returns i HT) as [res Hres].
  destruct (runFinancialModel_fields i res Hres) as (Hyears & _).
  exists res. split; [exact Hres|]. rewrite Hyears. split.
  - intros yr Hin. destruct (in_years_explicit i yr Hin) as [-> _]. simpl.
    split; [apply N_deployed_le_fleet|].
    intros HN. now apply N_deployed_at_least_one.
  - intros k1 k2 yr1 yr2 Hk H1 H2.
    destruct (nth_error_years i k1 yr1 H1) as [_ ->].
    destruct (nth_error_years i k2 yr2 H2) as [_ ->].
    simpl. now apply N_deployed_monotone.
Qed.

Lemma zrange_snoc (lo hi : Z) :
  (lo <= hi + 1)%Z -> zrange lo (hi + 1) = zrange lo hi ++ [(hi + 1)%Z].
Proof.
  intros H. unfold zrange.
  replace (Z.to_nat (hi + 1 - lo + 1)) with (S (Z.to_nat (hi - lo + 1))) by lia.
  rewrite seq_S, map_app. simpl. do 2 f_equal. lia.
Qed.

Lemma sum_firstn_S (l : list R) (m : nat) :
  sum_list (firstn (S m) l) = sum_list (firstn m l) + nth m l 0.
Proof.
  revert m. induction l as [|x l IH]; intros m.
  - rewrite !firstn_nil. destruct m; unfold sum_list; simpl; lra.
  - destruct m as [|m].
    + simpl. rewrite sum_list_cons. unfold sum_list. simpl. lra.
    + change (firstn (S (S m)) (x :: l)) with (x :: firstn (S m) l).
      change (firstn (S m) (x :: l)) with (x :: firstn m l).
      rewrite !sum_list_cons, IH. simpl. lra.
Qed.

(** The units numbered [a+1 .. b] cost what the first [b] units cost less
    what the first [a] units cost. *)
Lemma unit_range_sum (l : list R) (a : Z) (n : nat) :
  (0 <= a)%Z ->
  fold_left (fun acc k => acc + index_or_0 l (k - 1))
            (zrange (a + 1) (a + Z.of_nat n)) 0 =
    sum_list (firstn (Z.to_nat (a + Z.of_nat n)) l)
    - sum_list (firstn (Z.to_nat a) l).
Proof.
  intros Ha. induction n as [|n IH].
  - rewrite zrange_empty by lia. simpl.
    replace (a + 0)%Z with a by lia. lra.
  - replace (a + Z.of_nat (S n))%Z with (a + Z.of_nat n + 1)%Z by lia.
    rewrite zrange_snoc by lia. rewrite fold_left_app, IH. simpl.
    replace (Z.to_nat (a + Z.of_nat n + 1)) with (S (Z.to_nat (a + Z.of_nat n)))
      by lia.
    rewrite sum_firstn_S. unfold index_or_0.
    replace (a + Z.of_nat n + 1 - 1)%Z with (a + Z.of_nat n)%Z by lia.
    destruct (a + Z.of_nat n <? 0)%Z eqn:E; [apply Z.ltb_lt in E; lia|].
    lra.
Qed.

Lemma capex_year_difference (i : Inputs) (y : nat) :
  (0 <= N_prev i y <= N_deployed i y)%Z ->
  capex_year i y =
    sum_list (firstn (Z.to_nat (N_deployed i y)) (unit_capex i))
    - sum_list (firstn (Z.to_nat (N_prev i y)) (unit_capex i)).
Proof.
  intros H. unfold capex_year.
  replace (N_deployed i y)
    with (N_prev i y + Z.of_nat (Z.to_nat (N_deployed i y - N_prev i y)))%Z
    at 1 2 by lia.
  apply unit_range_sum. lia.
Qed.

Lemma capex_schedule_total (i : Inputs) (n : nat) :
  0 <= units_per_year i -> (1 <= N_units i)%Z ->
  sum_list (map (capex_year i) (seq 0 (S n))) =
    sum_list (firstn (Z.to_nat (N_deployed i n)) (unit_capex i)).
Proof.
  intros Hu HN. induction n as [|n IH].
  - simpl. rewrite sum_list_cons. unfold sum_list at 1. simpl.
    rewrite capex_year_difference.
    + change (N_prev i 0) with 0%Z. simpl firstn at 2.
      unfold sum_list at 2. simpl. lra.
    + change (N_prev i 0) with 0%Z.
      pose proof (N_deployed_at_least_one i 0 Hu HN). lia.
  - rewrite seq_S, map_app, sum_list_app, IH. simpl map.
    rewrite sum_list_cons. unfold sum_list at 2. simpl fold_left.
    rewrite capex_year_difference.
    + rewrite N_prev_S. lra.
    + rewrite N_prev_S.
      pose proof (N_deployed_at_least_one i n Hu HN).
      pose proof (N_deployed_monotone i n (S n) Hu). lia.
Qed.

(** X7.  With a positive learning rate, a non-negative deployment rate and a fleet of at least one
    unit, the capital cost recognised over the years of a run is the cost of
    the units deployed by the last year, each counted once; when the whole
    fleet is deployed within the horizon it is the fleet total. *)
Theorem capital_recognised_once_per_unit (i : Inputs) :
  (0 <= T_project i)%Z ->
  0 < LR i ->
  0 <= units_per_year i ->
  (1 <= N_units i)%Z ->
  exists res : ModelResult,
    runFinancialModel i = Some res /\
    sum_list (map yr_capex_year (res_years res)) =
      sum_list (firstn (Z.to_nat (N_deployed i (Z.to_nat (T_project i))))
                       (res_unit_capex res)) /\
    (N_deployed i (Z.to_nat (T_project i)) = N_units i ->
     sum_list (map yr_capex_year (res_years res)) = res_capex_fleet_total res).
Proof.
  intros HT _ Hu HN.
  assert (Hret : exists res, runFinancialModel i = Some res)
    by now apply runFinancialModel_returns.
  destruct Hret as [res Hres].
  assert (Hy : res_years res = years (year_loop i))
    by apply (runFinancialModel_fields i res Hres).
  assert (HU : res_unit_capex res = unit_capex i /\
               res_capex_fleet_total res = capex_fleet_total i).
  { unfold runFinancialModel in Hres. destruct (yr1 i); [|discriminate].
    injection Hres as <-. split; reflexivity. }
  destruct HU as [HU HF].
  assert (Hsum : sum_list (map yr_capex_year (years (year_loop i))) =
                 sum_list (firstn (Z.to_nat (N_deployed i (Z.to_nat (T_project i))))
                                  (unit_capex i))).
  { rewrite years_explicit, map_map. unfold project_years.
    replace (Z.to_nat (T_project i + 1)) with (S (Z.to_nat (T_project i))) by lia.
    now apply capex_schedule_total. }
  exists res. split; [exact Hres|]. rewrite Hy, HU, HF. split; [exact Hsum|].
  intros Hfull. rewrite Hsum, Hfull.
  rewrite firstn_all2 by (rewrite unit_capex_length; lia).
  reflexivity.
Qed.

(** ** The solver's pass count and range *)

(** A bracket that needs [k] halvings to fall below the tolerance is halved
    exactly [k] times, whatever the pass budget beyond [k]. *)
Lemma irr_loop_passes (yrs : list YearRecord) (k : nat) :
  forall (n : nat) (lo hi : R),
    lo < hi ->
    (hi - lo) / 2 ^ S k < 0.0001 ->
    0.0001 <= (hi - lo) / 2 ^ k ->
    irr_loop yrs (S k + n) lo hi = irr_loop yrs (S k) lo hi /\
    snd (irr_loop yrs (S k) lo hi) - fst (irr_loop yrs (S k) lo hi) =
      (hi - lo) / 2 ^ S k.
Proof.
  induction k as [|k IH]; intros n lo hi Hlt Hsmall Hbig.
  - simpl pow in Hsmall. replace ((hi - lo) / (2 * 1)) with ((hi - lo) / 2) in Hsmall by lra.
    destruct (Rlt_dec 0 (npv_test yrs ((lo + hi) / 2))) as [Hpos | Hneg].
    + rewrite (irr_loop_stop_lo yrs (0 + n)), (irr_loop_stop_lo yrs 0) by assumption.
      split; [reflexivity|]. cbn [fst snd pow]. field.
    + rewrite (irr_loop_stop_hi yrs (0 + n)), (irr_loop_stop_hi yrs 0)
        by (try assumption; lra).
      split; [reflexivity|]. cbn [fst snd pow]. field.
  - assert (Hp : 0 < 2 ^ k) by (apply pow_lt; lra).
    assert (Hhalf : 0.0001 <= (hi - lo) / 2).
    { assert (H1 : 1 <= 2 ^ k) by (apply pow_R1_Rle; lra).
      apply Rle_trans with ((hi - lo) / 2 ^ S k); [exact Hbig|].
      apply Rmult_le_reg_r with (2 ^ S k); [apply pow_lt; lra|].
      unfold Rdiv at 1. rewrite Rmult_assoc, Rinv_l by (apply pow_nonzero; lra).
      simpl pow. nra. }
    assert (Hs : forall w, w / 2 / 2 ^ S k = w / 2 ^ S (S k)).
    { intros w. simpl. field. lra. }
    assert (Hb : forall w, w / 2 / 2 ^ k = w / 2 ^ S k).
    { intros w. simpl. field. lra. }
    destruct (Rlt_dec 0 (npv_test yrs ((lo + hi) / 2))) as [Hpos | Hneg].
    + change (S (S k) + n)%nat with (S (S k + n)).
      rewrite (irr_loop_step_lo yrs (S k + n)), (irr_loop_step_lo yrs (S k))
        by assumption.
      destruct (IH n ((lo + hi) / 2) hi) as [H1 H2]; try lra.
      * replace (hi - (lo + hi) / 2) with ((hi - lo) / 2) by lra.
        now rewrite Hs.
      * replace (hi - (lo + hi) / 2) with ((hi - lo) / 2) by lra.
        now rewrite Hb.
      * split; [exact H1|]. rewrite H2.
        replace (hi - (lo + hi) / 2) with ((hi - lo) / 2) by lra. apply Hs.
    + change (S (S k) + n)%nat with (S (S k + n)).
      rewrite (irr_loop_step_hi yrs (S k + n)), (irr_loop_step_hi yrs (S k))
        by (try assumption; lra).
      destruct (IH n lo ((lo + hi) / 2)) as [H1 H2]; try lra.
      * replace ((lo + hi) / 2 - lo) with ((hi - lo) / 2) by lra.
        now rewrite Hs.
      * replace ((lo + hi) / 2 - lo) with ((hi - lo) / 2) by lra.
        now rewrite Hb.
      * split; [exact H1|]. rewrite H2.
        replace ((lo + hi) / 2 - lo) with ((hi - lo) / 2) by lra. apply Hs.
Qed.

(** X8.  Whatever the cash flows, the bisection leaves its loop after exactly
    15 passes: the budget of 100 passes gives the bracket that 15 passes
    give, and that bracket has width 2.5 / 2^15. *)
Theorem irr_loop_exits_after_15_passes (yrs : list YearRecord) :
  irr_loop yrs 100 (-0.5) 2.0 = irr_loop yrs 15 (-0.5) 2.0 /\
  snd (irr_loop yrs 100 (-0.5) 2.0) - fst (irr_loop yrs 100 (-0.5) 2.0) =
    2.5 / 2 ^ 15.
Proof.
  destruct (irr_loop_passes yrs 14 85 (-0.5) 2.0) as [H1 H2]; try lra.
  change (15 + 85)%nat with 100%nat in H1.
  split; [exact H1|]. rewrite H1, H2. lra.
Qed.

Lemma irr_of_range (l : list YearRecord) (irr : R) :
  irr_of l = Some irr -> -0.49 < irr < 1.99.
Proof.
  unfold irr_of. destruct (irr_loop l 100 (-0.5) 2.0) as [lo hi] eqn:E.
  destruct (Rltb 0.01 (Rabs (lo - -0.5))) eqn:Elo; [|discriminate].
  destruct (Rltb 0.01 (Rabs (hi - 2.0))) eqn:Ehi; [|discriminate].
  simpl. intros H. injection H as <-.
  apply Rltb_true_inv in Elo, Ehi.
  destruct (irr_loop_bracket l 100 (-0.5) 2.0 lo hi) as (H1 & H2 & H3 & _);
    [lra | exact E |].
  rewrite Rabs_right in Elo by lra. rewrite Rabs_left1 in Ehi by lra.
  lra.
Qed.

(** X9.  A non-null IRR lies strictly between -0.49 and 1.99: a bracket that
    ends within 0.01 of either end of the search range is reported as null. *)
Theorem irr_strictly_inside_search_range
    (i : Inputs) (res : ModelResult) (irr : R) :
  runFinancialModel i = Some res ->
  res_IRR res = Some irr ->
  -0.49 < irr < 1.99.
Proof.
  intros Hres Hirr.
  destruct (runFinancialModel_fields i res Hres) as (_ & _ & HI & _).
  rewrite HI, IRR_unfold in Hirr. now apply irr_of_range in Hirr.
Qed.

Lemma irr_strictly_inside_search_range_witness :
  exists (res : ModelResult) (irr : R),
    runFinancialModel with_equipment = Some res /\
    res_IRR res = Some irr /\
    -0.49 < irr < 1.99.
Proof.
  destruct with_equipment_run as (res & Hres & _ & Hirr).
  exists res, 0.75202178955078125.
  split; [exact Hres|]. split; [exact Hirr|].
  exact (irr_strictly_inside_search_range with_equipment res _ Hres Hirr).
Defined.

(** ** Debt coverage and the diagnostics *)

Lemma fold_Rmin_spec (l : list R) (a : R) :
  In (fold_left Rmin l a) (a :: l) /\
  forall x, In x (a :: l) -> fold_left Rmin l a <= x.
Proof.
  revert a. induction l as [|b l IH]; intros a; simpl.
  - split; [now left|]. intros x [<- | []]. lra.
  - destruct (IH (Rmin a b)) as [Hin Hle]. split.
    + destruct Hin as [Hin | Hin]; [|now right; right].
      rewrite <- Hin. unfold Rmin. destruct (Rle_dec a b); [now left | right; now left].
    + intros x [<- | [<- | Hx]].
      * apply Rle_trans with (Rmin a b); [apply Hle; now left | apply Rmin_l].
      * apply Rle_trans with (Rmin a b); [apply Hle; now left | apply Rmin_r].
      * apply Hle. now right.
Qed.

Lemma list_min_spec (l : list R) :
  match list_min l with
  | Some m => In m l /\ forall x, In x l -> m <= x
  | None => l = []
  end.
Proof.
  destruct l as [|a l]; [reflexivity|]. simpl. apply fold_Rmin_spec.
Qed.

Lemma in_dscr_values (i : Inputs) (d : R) :
  In d (dscr_values i) <->
  exists yr, In yr (years (year_loop i)) /\ yr_DSCR yr = Some d.
Proof.
  unfold dscr_values. rewrite in_flat_map. split.
  - intros (yr & Hin & Hd). exists yr. split; [exact Hin|].
    destruct (yr_DSCR yr) as [d'|]; [|destruct Hd].
    destruct Hd as [-> | []]. reflexivity.
  - intros (yr & Hin & Hd). exists yr. split; [exact Hin|].
    rewrite Hd. now left.
Qed.

(** X10.  In the records a run returns, a year has a coverage ratio exactly
    when its debt service is positive, and the ratio is then EBITDA over
    debt service.  A non-null minimum DSCR is the ratio of some year and is
    at most the ratio of every year that has one; the minimum is null exactly
    when no year has a ratio. *)
Theorem minimum_dscr_is_least_yearly_ratio (i : Inputs) :
  (0 <= T_project i)%Z ->
  exists res : ModelResult,
    runFinancialModel i = Some res /\
    (forall yr, In yr (res_years res) ->
       (0 < yr_DS yr -> yr_DSCR yr = Some (yr_EBITDA yr / yr_DS yr)) /\
       (yr_DS yr <= 0 -> yr_DSCR yr = None)) /\
    match res_DSCR_min res with
    | Some m =>
        (exists yr, In yr (res_years res) /\ yr_DSCR yr = Some m) /\
        (forall yr d, In yr (res_years res) -> yr_DSCR yr = Some d -> m <= d)
    | None => forall yr, In yr (res_years res) -> yr_DSCR yr = None
    end.
Proof.
  intros HT. destruct (runFinancialModel_returns i HT) as [res Hres].
  destruct (runFinancialModel_fields i res Hres)
    as (Hyears & _ & _ & _ & _ & Hmin & _).
  exists res. split; [exact Hres|]. rewrite Hyears, Hmin. split.
  - intros yr Hin. destruct (in_years_explicit i yr Hin) as [-> _]. simpl.
    unfold DSCR. split; intros H.
    + now rewrite Rltb_true.
    + now rewrite Rltb_false.
  - unfold DSCR_min. pose proof (list_min_spec (dscr_values i)) as Hspec.
    destruct (list_min (dscr_values i)) as [m|].
    + destruct Hspec as [Hin Hle]. split.
      * now apply in_dscr_values.
      * intros yr d Hyr Hd. apply Hle. apply in_dscr_values. now exists yr.
    + intros yr Hin. destruct (yr_DSCR yr) as [d|] eqn:Hd; [|reflexivity].
      assert (Hd' : In d (dscr_values i)) by (apply in_dscr_values; now exists yr).
      rewrite Hspec in Hd'. destruct Hd'.
Qed.

Lemma in_warnings (i : Inputs) (w : Warning) :
  In w (warnings i) <->
  (NPV i < 0 /\ w = NPV_negative (r_disc i)) \/
  ((exists d, DSCR_min i = Some d /\ d < 1) /\ w = DSCR_below_1) \/
  ((exists d, DSCR_min i = Some d /\ 1 <= d < 1.25) /\ w = DSCR_below_covenant).
Proof.
  unfold warnings. rewrite !in_app_iff.
  assert (HA : In w (if Rltb (NPV i) 0 then [NPV_negative (r_disc i)] else [])
               <-> NPV i < 0 /\ w = NPV_negative (r_disc i)).
  { destruct (Rltb (NPV i) 0) eqn:E.
    - apply Rltb_true_inv in E. simpl. intuition.
    - apply Rltb_false_inv in E. simpl. intuition lra. }
  assert (HB : In w (match DSCR_min i with
                     | Some d => if Rltb d 1.0 then [DSCR_below_1] else []
                     | None => []
                     end)
               <-> (exists d, DSCR_min i = Some d /\ d < 1) /\ w = DSCR_below_1).
  { destruct (DSCR_min i) as [d|].
    - destruct (Rltb d 1.0) eqn:E.
      + apply Rltb_true_inv in E. simpl. split.
        * intros [<- | []]. split; [|reflexivity]. exists d. split; [reflexivity | lra].
        * intros [_ ->]. now left.
      + apply Rltb_false_inv in E. simpl. split; [intros []|].
        intros [(d' & Hd & Hlt) _]. injection Hd as <-. lra.
    - simpl. split; [intros []|]. intros [(d' & Hd & _) _]. discriminate. }
  assert (HC : In w (match DSCR_min i with
                     | Some d =>
                         if Rltb d 1.25 && Rleb 1.0 d then [DSCR_below_covenant] else []
                     | None => []
                     end)
               <-> (exists d, DSCR_min i = Some d /\ 1 <= d < 1.25) /\
                   w = DSCR_below_covenant).
  { destruct (DSCR_min i) as [d|].
    - destruct (Rltb d 1.25) eqn:E1; destruct (Rleb 1.0 d) eqn:E2; simpl;
        try apply Rltb_true_inv in E1; try apply Rltb_false_inv in E1;
        try apply Rleb_true_inv in E2.
      + split.
        * intros [<- | []]. split; [|reflexivity]. exists d. split; [reflexivity | lra].
        * intros [_ ->]. now left.
      + split; [intros []|]. intros [(d' & Hd & Hlt) _]. injection Hd as <-.
        unfold Rleb in E2. destruct (Rle_dec 1.0 d); [discriminate | lra].
      + split; [intros []|]. intros [(d' & Hd & Hlt) _]. injection Hd as <-. lra.
      + split; [intros []|]. intros [(d' & Hd & Hlt) _]. injection Hd as <-. lra.
    - simpl. split; [intros []|]. intros [(d' & Hd & _) _]. discriminate. }
  rewrite HA, HB, HC. reflexivity.
Qed.

Lemma dscr_status_cases (res : ModelResult) :
  (dscr_status res = Some status_error <->
   exists d, res_DSCR_min res = Some d /\ d < 1) /\
  (dscr_status res = Some status_warn <->
   exists d, res_DSCR_min res = Some d /\ 1 <= d < 1.25).
Proof.
  unfold dscr_status. destruct (res_DSCR_min res) as [d|].
  - unfold Rleb. destruct (Rle_dec 1.25 d), (Rle_dec 1.0 d); split; split;
      intros H; try discriminate H; try reflexivity;
      try (destruct H as (d' & Hd & H); injection Hd as <-; lra);
      exists d; (split; [reflexivity | lra]).
  - split; split; intros H; try discriminate H;
      destruct H as (d & Hd & _); discriminate.
Qed.

(** X11.  The warnings a run returns follow its figures and agree with the
    metric cards: the NPV warning is present exactly when NPV is negative,
    quotes the discount rate, and the NPV card is then red; the default-risk
    warning is present exactly when the DSCR card is red; the covenant
    warning exactly when the DSCR card is amber; the two DSCR warnings never
    appear together. *)
Theorem warnings_agree_with_cards (i : Inputs) :
  (0 <= T_project i)%Z ->
  exists res : ModelResult,
    runFinancialModel i = Some res /\
    (forall r, In (NPV_negative r) (res_warnings res) <->
               res_NPV res < 0 /\ r = r_disc i) /\
    (res_NPV res < 0 -> npv_status res = status_error) /\
    (In DSCR_below_1 (res_warnings res) <->
     dscr_status res = Some status_error) /\
    (In DSCR_below_covenant (res_warnings res) <->
     dscr_status res = Some status_warn) /\
    ~ (In DSCR_below_1 (res_warnings res) /\
       In DSCR_below_covenant (res_warnings res)).
Proof.
  intros HT. destruct (runFinancialModel_returns i HT) as [res Hres].
  destruct (runFinancialModel_fields i res Hres)
    as (_ & Hnpv & _ & _ & _ & Hmin & Hwarn & _).
  destruct (dscr_status_cases res) as [Herr Hwarns].
  exists res. split; [exact Hres|]. rewrite Hwarn.
  split; [|split; [|split; [|split]]].
  - intros r. rewrite in_warnings, Hnpv. split.
    + intros [[H E] | [[_ E] | [_ E]]]; try discriminate.
      injection E as ->. now split.
    + intros [H ->]. left. now split.
  - intros H. unfold npv_status. now rewrite Rltb_false by lra.
  - rewrite Herr, Hmin, in_warnings. split.
    + intros [[_ E] | [[H _] | [_ E]]]; try discriminate. exact H.
    + intros H. right. left. now split.
  - rewrite Hwarns, Hmin, in_warnings. split.
    + intros [[_ E] | [[_ E] | [H _]]]; try discriminate. exact H.
    + intros H. right. right. now split.
  - rewrite !in_warnings. intros [H1 H2].
    destruct H1 as [[_ E] | [[(d1 & Hd1 & Hlt1) _] | [_ E]]]; try discriminate.
    destruct H2 as [[_ E] | [[_ E] | [(d2 & Hd2 & Hlt2) _]]]; try discriminate.
    rewrite Hd1 in Hd2. injection Hd2 as <-. lra.
Qed.

(** X12.  The payback card of a run shows the discounted payback year
    whenever the run reports one: the reported year is never 0, so the
    truthiness test of the card never takes a reported year for a null. *)
Theorem payback_card_shows_reported_year (i : Inputs) :
  (0 <= T_project i)%Z ->
  exists res : ModelResult,
    runFinancialModel i = Some res /\
    payback_value i res =
      match res_payback_disc res with
      | Some p => inl p
      | None => inr (T_project i)
      end /\
    (forall p, res_payback_disc res = Some p ->
       (1 <= p)%nat /\ (Z.of_nat p <= T_project i)%Z /\
       payback_status res =
         if Nat.ltb p 4 then status_ok
         else if Nat.ltb p 7 then status_warn else status_error) /\
    (res_payback_disc res = None -> payback_status res = status_error).
Proof.
  intros HT. destruct (runFinancialModel_returns i HT) as [res Hres].
  destruct (runFinancialModel_fields i res Hres) as (_ & _ & _ & Hpb & _).
  pose proof (loop_payback_disc i (Z.to_nat (T_project i + 1))) as Hfound.
  fold (project_years i) in Hfound. fold (year_loop i) in Hfound.
  rewrite <- Hpb in Hfound.
  exists res. split; [exact Hres|].
  unfold payback_value, payback_status.
  destruct (res_payback_disc res) as [p|]; simpl in Hfound.
  - destruct Hfound as (Hp & _).
    destruct p as [|p]; [lia|]. simpl truthy. cbv iota.
    split; [reflexivity|]. split; [|discriminate].
    intros q Hq. injection Hq as <-. split; [lia|]. split; [lia | reflexivity].
  - split; [reflexivity|]. split; [discriminate | reflexivity].
Qed.

(** ** The cost of debt *)

Lemma bernoulli (x : R) (n : nat) : -1 <= x -> 1 + INR n * x <= (1 + x) ^ n.
Proof.
  intros Hx. induction n as [|n IH].
  - simpl. lra.
  - rewrite S_INR. simpl pow.
    assert (0 <= INR n) by apply pos_INR.
    assert (0 <= INR n * (x * x)) by (apply Rmult_le_pos; [assumption | nra]).
    nra.
Qed.

(** The discount [1 - (1 + r)^-n] of an annuity of [n >= 1] payments at a
    positive periodic rate [r] lies strictly between 0 and [n * r]. *)
Lemma annuity_discount_bounds (r : R) (n : nat) :
  0 < r -> (1 <= n)%nat ->
  0 < 1 - / (1 + r) ^ n < INR n * r.
Proof.
  intros Hr Hn.
  assert (Hq : 0 < (1 + r) ^ n) by (apply pow_lt; lra).
  assert (Hq1 : 1 < (1 + r) ^ n).
  { pose proof (bernoulli r n ltac:(lra)) as Hb.
    assert (1 <= INR n) by (change 1 with (INR 1); now apply le_INR).
    nra. }
  split.
  - assert (/ (1 + r) ^ n < / 1).
    { apply Rinv_lt_contravar; lra. }
    rewrite Rinv_1 in H. lra.
  - set (s := r / (1 + r)).
    assert (Hs : 0 < s < r).
    { unfold s. split.
      - apply Rdiv_lt_0_compat; lra.
      - apply Rmult_lt_reg_r with (1 + r); [lra|].
        unfold Rdiv. rewrite Rmult_assoc, Rinv_l by lra. nra. }
    assert (Hs1 : s < 1).
    { unfold s. apply Rmult_lt_reg_r with (1 + r); [lra|].
      unfold Rdiv. rewrite Rmult_assoc, Rinv_l by lra. lra. }
    assert (Hinv : / (1 + r) ^ n = (1 + - s) ^ n).
    { rewrite <- pow_inv. f_equal. unfold s. field. lra. }
    rewrite Hinv.
    pose proof (bernoulli (- s) n ltac:(lra)) as Hb.
    assert (0 < INR n) by (apply lt_0_INR; lia).
    nra.
Qed.

Lemma annual_debt_service_annuity_formula (i : Inputs) :
  0 < CAPEX_debt i -> (0 < T_loan i)%Z -> 0 < r_debt i ->
  annual_debt_service i =
    loan_amount i * r_monthly i /
      (1 - / (1 + r_monthly i) ^ Z.to_nat (n_months i)) * 12.
Proof.
  intros Hd Ht Hr. rewrite annual_debt_service_annuity by assumption.
  unfold monthly_payment. rewrite powerRZ_neg_nat; [reflexivity|].
  unfold n_months. lia.
Qed.

(** X13.  For a loan with positive principal, positive loan amount and a
    positive term: at a positive rate the payments over the term add up to
    more than the loan amount, at a rate of zero (or below) they add up to
    the loan amount exactly, and in both cases the annual payment is
    positive. *)
Theorem loan_repaid_with_interest (i : Inputs) :
  0 < CAPEX_debt i ->
  0 < loan_amount i ->
  (0 < T_loan i)%Z ->
  0 < annual_debt_service i /\
  (0 < r_debt i -> loan_amount i < annual_debt_service i * IZR (T_loan i)) /\
  (r_debt i <= 0 -> annual_debt_service i * IZR (T_loan i) = loan_amount i).
Proof.
  intros Hd HL Ht.
  assert (HT : 0 < IZR (T_loan i)) by now apply IZR_lt.
  assert (Hpos : 0 < r_debt i ->
                 0 < annual_debt_service i /\
                 loan_amount i < annual_debt_service i * IZR (T_loan i)).
  { intros Hr. rewrite annual_debt_service_annuity_formula by assumption.
    set (rm := r_monthly i). set (n := Z.to_nat (n_months i)).
    assert (Hrm : 0 < rm) by (unfold rm, r_monthly; lra).
    assert (Hn : (1 <= n)%nat) by (unfold n, n_months; lia).
    destruct (annuity_discount_bounds rm n Hrm Hn) as [HD1 HD2].
    assert (HnR : INR n = 12 * IZR (T_loan i)).
    { unfold n, n_months. rewrite INR_IZR_INZ, Z2Nat.id by lia.
      rewrite mult_IZR. lra. }
    set (D := 1 - / (1 + rm) ^ n) in *.
    assert (HLr : 0 < loan_amount i * rm) by (apply Rmult_lt_0_compat; lra).
    assert (Hq : 0 < loan_amount i * rm / D) by (apply Rdiv_lt_0_compat; lra).
    split; [lra|].
    apply Rmult_lt_reg_r with D; [exact HD1|].
    replace (loan_amount i * rm / D * 12 * IZR (T_loan i) * D)
      with (loan_amount i * (rm * (12 * IZR (T_loan i)))) by (field; lra).
    rewrite <- HnR. apply Rmult_lt_compat_l; [exact HL|]. lra. }
  split; [|split].
  - destruct (Rlt_dec 0 (r_debt i)) as [Hr | Hr].
    + now apply Hpos.
    + rewrite annual_debt_service_straight_line by (try assumption; lra).
      apply Rdiv_lt_0_compat; assumption.
  - intros Hr. now apply Hpos.
  - intros Hr. rewrite annual_debt_service_straight_line by assumption.
    field. lra.
Qed.

Lemma loan_repaid_with_interest_witness :
  0 < annual_debt_service debt_financed /\
  (0 < r_debt debt_financed ->
   loan_amount debt_financed <
     annual_debt_service debt_financed * IZR (T_loan debt_financed)) /\
  (r_debt debt_financed <= 0 ->
   annual_debt_service debt_financed * IZR (T_loan debt_financed) =
     loan_amount debt_financed).
Proof.
  destruct debt_financed_loan as [Hd HL].
  apply (loan_repaid_with_interest debt_financed).
  - rewrite Hd. lra.
  - rewrite HL. lra.
  - reflexivity.
Defined.

(** ** Customer savings *)

(** X14.  The savings percentage is 0 when the customer's current cost is not
    positive; otherwise it is 100 * (1 - new cost / current cost), it is
    positive exactly when the new cost is below the current cost, and it is
    at most 100 when the new cost is not negative.  When the three service
    rates equal the customer's current rates there are no savings. *)
Theorem customer_savings_percentage (i : Inputs) :
  (C_current_total i <= 0 -> savings_pct i = 0) /\
  (0 < C_current_total i ->
     savings_pct i = (1 - C_enexor_total i / C_current_total i) * 100 /\
     (0 < savings_pct i <-> C_enexor_total i < C_current_total i) /\
     (0 <= C_enexor_total i -> savings_pct i <= 100)) /\
  (R_power i = C_cust_power i -> R_therm i = C_cust_therm i ->
   R_tipping i = C_cust_waste i ->
     savings_annual i = 0 /\ savings_pct i = 0).
Proof.
  split; [|split].
  - intros H. unfold savings_pct. now rewrite Rltb_false.
  - intros H.
    assert (E : savings_pct i = (1 - C_enexor_total i / C_current_total i) * 100).
    { unfold savings_pct, savings_annual. rewrite Rltb_true by exact H.
      field. lra. }
    assert (Hinv : 0 < / C_current_total i) by now apply Rinv_0_lt_compat.
    assert (Hq : C_enexor_total i / C_current_total i * C_current_total i =
                 C_enexor_total i) by (field; lra).
    split; [exact E|]. rewrite E. split; [split|]; intros H'.
    + unfold Rdiv in *. nra.
    + unfold Rdiv in *. nra.
    + assert (0 <= C_enexor_total i / C_current_total i).
      { unfold Rdiv. apply Rmult_le_pos; lra. }
      lra.
  - intros Hp Ht Hw.
    assert (E : savings_annual i = 0).
    { unfold savings_annual, C_current_total, C_enexor_total,
        C_current_power, C_current_therm, C_current_waste,
        C_enexor_power, C_enexor_therm, C_enexor_waste.
      rewrite Hp, Ht, Hw. lra. }
    split; [exact E|]. unfold savings_pct. rewrite E.
    destruct (Rltb 0 (C_current_total i)); [|reflexivity].
    unfold Rdiv. now rewrite !Rmult_0_l.
Qed.

(** ** More on the sensitivity rows *)

Lemma set_key_zero (k : ParamKey) (c : R) (i : Inputs) :
  get_key k i = 0 -> set_key k (get_key k i * c) i = i.
Proof.
  intros H. rewrite H, Rmult_0_l. destruct i, k; simpl in *; now subst.
Qed.

Lemma runSensitivity_returns (i : Inputs) :
  (0 <= T_project i)%Z ->
  runSensitivity i = Some (sort_rows (map (npv_row i) params)).
Proof.
  intros HT. unfold runSensitivity.
  now rewrite (runSensitivity_calls_returns i HT).
Qed.

Lemma in_sort_rows (r : SensRow) (l : list SensRow) :
  In r (sort_rows l) <-> In r l.
Proof.
  split; apply Permutation_in; [|apply Permutation_sym]; apply sort_rows_perm.
Qed.

(** X15.  For a discount rate other than -100%, a tracked parameter whose baseline value is 0 is not perturbed at
    all by the scaling, so its row reports a delta of 0 on both sides and a
    range of 0. *)
Theorem zero_parameter_has_zero_row (i : Inputs) (p : Param) :
  (0 <= T_project i)%Z ->
  r_disc i <> -100 ->
  In p params ->
  get_key (key p) i = 0 ->
  lo_inputs i p = i /\ hi_inputs i p = i /\
  exists rows : list SensRow,
    runSensitivity i = Some rows /\
    In (mkRow (label p) 0 0 0) rows.
Proof.
  intros HT _ Hp H0.
  assert (Hlo : lo_inputs i p = i) by (unfold lo_inputs; now apply set_key_zero).
  assert (Hhi : hi_inputs i p = i) by (unfold hi_inputs; now apply set_key_zero).
  split; [exact Hlo|]. split; [exact Hhi|].
  eexists. split; [now apply runSensitivity_returns|].
  apply in_sort_rows, in_map_iff. exists p. split; [|exact Hp].
  unfold npv_row. rewrite Hlo, Hhi.
  replace (NPV i - NPV i) with 0 by lra. now rewrite Rabs_R0.
Qed.

Lemma zero_parameter_has_zero_row_witness :
  lo_inputs worked (mkParam K_R_therm "Thermal Rate") = worked /\
  hi_inputs worked (mkParam K_R_therm "Thermal Rate") = worked /\
  exists rows : list SensRow,
    runSensitivity worked = Some rows /\
    In (mkRow (label (mkParam K_R_therm "Thermal Rate")) 0 0 0) rows.
Proof.
  apply (zero_parameter_has_zero_row worked (mkParam K_R_therm "Thermal Rate")).
  - simpl. lia.
  - simpl. lra.
  - simpl. right. left. reflexivity.
  - reflexivity.
Defined.

Lemma insert_row_head (x : SensRow) (l : list SensRow) :
  Forall (fun e => sens_range e <= sens_range x) l -> insert_row x l = x :: l.
Proof.
  intros H. destruct l as [|e l]; [reflexivity|]. simpl.
  inversion H; subst. now rewrite Rltb_false by lra.
Qed.

Lemma sort_rows_sorted_id (l : list SensRow) :
  StronglySorted (fun a b => sens_range b <= sens_range a) l -> sort_rows l = l.
Proof.
  induction l as [|x l IH]; intros Hs; [reflexivity|].
  inversion Hs; subst. simpl. rewrite IH by assumption.
  now apply insert_row_head.
Qed.

(** X16.  For a positive learning rate and discount rates (baseline and
    scaled) other than -100%, every row a sensitivity run returns has a range that is the
    absolute difference of its two deltas; the labels of the rows are the
    eight parameter labels, each once; and when the rows come out of the
    model already in descending order of range, ties included, they are
    returned in the order of the parameter list. *)
Theorem sensitivity_rows_shape (i : Inputs) :
  (0 <= T_project i)%Z ->
  0 < LR i ->
  r_disc i <> -100 ->
  r_disc i * 0.8 <> -100 ->
  r_disc i * 1.2 <> -100 ->
  exists rows : list SensRow,
    runSensitivity i = Some rows /\
    (forall r, In r rows ->
       sens_range r = Rabs (sens_hi r - sens_lo r) /\ 0 <= sens_range r) /\
    Permutation (map sens_label rows) (map label params) /\
    (StronglySorted (fun a b => sens_range b <= sens_range a)
       (map (npv_row i) params) ->
     map sens_label rows = map label params).
Proof.
  intros HT _ _ _ _. eexists. split; [now apply runSensitivity_returns|].
  split; [|split].
  - intros r Hin. apply in_sort_rows, in_map_iff in Hin.
    destruct Hin as (p & <- & _). unfold npv_row. simpl. split.
    + f_equal. lra.
    + apply Rabs_pos.
  - eapply perm_trans.
    + apply Permutation_map, sort_rows_perm.
    + rewrite map_map. apply Permutation_refl.
  - intros Hs. rewrite sort_rows_sorted_id by exact Hs.
    now rewrite map_map.
Qed.

Lemma sensitivity_rows_shape_witness :
  exists rows : list SensRow,
    runSensitivity defaults = Some rows /\
    (forall r, In r rows ->
       sens_range r = Rabs (sens_hi r - sens_lo r) /\ 0 <= sens_range r) /\
    Permutation (map sens_label rows) (map label params) /\
    (StronglySorted (fun a b => sens_range b <= sens_range a)
       (map (npv_row defaults) params) ->
     map sens_label rows = map label params).
Proof.
  apply (sensitivity_rows_shape defaults).
  - simpl. lia.
  - simpl. lra.
  - simpl. lra.
  - simpl. lra.
  - simpl. lra.
Defined.

(** ** The control surface *)

(** X17.  Committing an edited value hands on nothing when the text does not
    parse; otherwise, for slider bounds min <= max, it hands on the value
    clamped into [min, max]: a value inside the bounds unchanged, a value
    below them as min, a value above them as max.  Committing the result
    again changes nothing. *)
Theorem commitEdit_clamps (min max n : R) :
  min <= max ->
  commitEdit min max None = None /\
  exists v : R,
    commitEdit min max (Some n) = Some v /\
    min <= v <= max /\
    (min <= n <= max -> v = n) /\
    (n < min -> v = min) /\
    (max < n -> v = max) /\
    commitEdit min max (Some v) = Some v.
Proof.
  intros Hmm. split; [reflexivity|].
  assert (Hclamp : forall v, min <= v <= max -> Rmin max (Rmax min v) = v).
  { intros v Hv. rewrite Rmax_right, Rmin_right by lra. reflexivity. }
  exists (Rmin max (Rmax min n)). split; [reflexivity|].
  assert (Hin : min <= Rmin max (Rmax min n) <= max).
  { split; [|apply Rmin_l].
    apply Rmin_glb; [exact Hmm | apply Rmax_l]. }
  split; [exact Hin|].
  split; [intros Hn; now apply Hclamp|].
  split; [intros Hn; rewrite Rmax_left, Rmin_right by lra; reflexivity|].
  split; [intros Hn; rewrite Rmax_right, Rmin_left by lra; reflexivity|].
  unfold commitEdit. f_equal. now apply Hclamp.
Qed.

Lemma commitEdit_clamps_witness :
  commitEdit 1 15 None = None /\
  exists v : R,
    commitEdit 1 15 (Some 40) = Some v /\
    1 <= v <= 15 /\
    (1 <= 40 <= 15 -> v = 40) /\
    (40 < 1 -> v = 1) /\
    (15 < 40 -> v = 15) /\
    commitEdit 1 15 (Some v) = Some v.
Proof.
  apply (commitEdit_clamps 1 15 40). lra.
Defined.

Lemma merge_preset_fields (prev : Inputs) (s : Preset) :
  let i := merge_preset prev s in
  (R_power i = pre_R_power s /\ R_therm i = pre_R_therm s /\
   R_tipping i = pre_R_tipping s /\ P_carbon i = pre_P_carbon s /\
   f_avail i = pre_f_avail s /\ C_biochp i = pre_C_biochp s /\
   N_units i = pre_N_units s /\ f_equity i = pre_f_equity s /\
   r_disc i = pre_r_disc s) /\
  (P_elec i = P_elec prev /\ P_therm i = P_therm prev /\
   F_tpd i = F_tpd prev /\ f_power_util i = f_power_util prev /\
   r_power i = r_power prev /\ f_therm_util i = f_therm_util prev /\
   r_therm i = r_therm prev /\ W_tpy i = W_tpy prev /\
   r_tipping i = r_tipping prev /\ CC_methane i = CC_methane prev /\
   CC_fuel i = CC_fuel prev /\ CC_emissions i = CC_emissions prev /\
   r_carbon i = r_carbon prev /\ C_cust_power i = C_cust_power prev /\
   C_cust_therm i = C_cust_therm prev /\ C_cust_waste i = C_cust_waste prev /\
   C_enexfuel i = C_enexfuel prev /\ C_install i = C_install prev /\
   C_site i = C_site prev /\ R_maint i = R_maint prev /\
   C_fuel_process i = C_fuel_process prev /\ C_insurance i = C_insurance prev /\
   C_acct_mgmt i = C_acct_mgmt prev /\ r_maint i = r_maint prev /\
   r_fuel i = r_fuel prev /\ r_debt i = r_debt prev /\
   T_loan i = T_loan prev /\ f_loan_fees i = f_loan_fees prev /\
   T_project i = T_project prev /\ Y_start i = Y_start prev /\
   LR i = LR prev /\ units_per_year i = units_per_year prev).
Proof. repeat split. Qed.

(** X18.  Applying a preset scenario replaces the nine fields the preset
    carries and leaves the other thirty-two inputs as they were; the key
    "custom" changes no input.  The preset applied last wins: applying a
    preset after any other scenario gives what applying it alone gives, so
    applying it twice is applying it once. *)
Theorem applyScenario_overrides_preset_fields (k : ScenarioKey) (st : AppState) :
  scenario (applyScenario k st) = k /\
  inputs_of (applyScenario custom st) = inputs_of st /\
  (forall s, SCENARIOS k = Some s ->
     let i := inputs_of (applyScenario k st) in
     let prev := inputs_of st in
     (R_power i = pre_R_power s /\ R_therm i = pre_R_therm s /\
      R_tipping i = pre_R_tipping s /\ P_carbon i = pre_P_carbon s /\
      f_avail i = pre_f_avail s /\ C_biochp i = pre_C_biochp s /\
      N_units i = pre_N_units s /\ f_equity i = pre_f_equity s /\
      r_disc i = pre_r_disc s) /\
     (P_elec i = P_elec prev /\ P_therm i = P_therm prev /\
      F_tpd i = F_tpd prev /\ f_power_util i = f_power_util prev /\
      r_power i = r_power prev /\ f_therm_util i = f_therm_util prev /\
      r_therm i = r_therm prev /\ W_tpy i = W_tpy prev /\
      r_tipping i = r_tipping prev /\ CC_methane i = CC_methane prev /\
      CC_fuel i = CC_fuel prev /\ CC_emissions i = CC_emissions prev /\
      r_carbon i = r_carbon prev /\ C_cust_power i = C_cust_power prev /\
      C_cust_therm i = C_cust_therm prev /\ C_cust_waste i = C_cust_waste prev /\
      C_enexfuel i = C_enexfuel prev /\ C_install i = C_install prev /\
      C_site i = C_site prev /\ R_maint i = R_maint prev /\
      C_fuel_process i = C_fuel_process prev /\ C_insurance i = C_insurance prev /\
      C_acct_mgmt i = C_acct_mgmt prev /\ r_maint i = r_maint prev /\
      r_fuel i = r_fuel prev /\ r_debt i = r_debt prev /\
      T_loan i = T_loan prev /\ f_loan_fees i = f_loan_fees prev /\
      T_project i = T_project prev /\ Y_start i = Y_start prev /\
      LR i = LR prev /\ units_per_year i = units_per_year prev)) /\
  (forall k', k <> custom ->
     applyScenario k (applyScenario k' st) = applyScenario k st).
Proof.
  split; [reflexivity|]. split; [reflexivity|]. split.
  - intros s Hs. unfold applyScenario. rewrite Hs. simpl inputs_of.
    apply merge_preset_fields.
  - intros k' Hk. unfold applyScenario.
    destruct k; try contradiction; destruct k'; reflexivity.
Qed.

(** ** The cash-flow chart *)

Lemma index_or_0_nonneg (l : list R) (k : Z) :
  Forall (fun x => 0 <= x) l -> 0 <= index_or_0 l k.
Proof.
  intros H. unfold index_or_0. destruct (k <? 0)%Z; [lra|].
  destruct (nth_in_or_default (Z.to_nat k) l 0) as [Hin | ->]; [|lra].
  rewrite Forall_forall in H. now apply H.
Qed.

Lemma unit_capex_nonneg (i : Inputs) :
  0 <= CAPEX_unit1 i -> Forall (fun x => 0 <= x) (unit_capex i).
Proof.
  intros HC. unfold unit_capex. rewrite Forall_map, Forall_forall.
  intros n _. apply Rmult_le_pos; [exact HC|].
  unfold Rpower. left. apply exp_pos.
Qed.

Lemma capex_year_nonneg (i : Inputs) (y : nat) :
  0 <= CAPEX_unit1 i -> 0 <= capex_year i y.
Proof.
  intros HC. unfold capex_year.
  assert (H : forall l a, 0 <= a ->
            0 <= fold_left (fun acc n => acc + index_or_0 (unit_capex i) (n - 1)) l a).
  { induction l as [|n l IH]; intros a Ha; simpl; [exact Ha|].
    apply IH. pose proof (index_or_0_nonneg (unit_capex i) (n - 1)
                            (unit_capex_nonneg i HC)). lra. }
  apply H. lra.
Qed.

Lemma annual_debt_service_nonneg (i : Inputs) :
  -100 <= f_loan_fees i -> 0 <= annual_debt_service i.
Proof.
  intros Hf.
  destruct (Rlt_dec 0 (CAPEX_debt i)) as [Hd | Hd];
    [|rewrite annual_debt_service_no_principal by lra; lra].
  destruct (Z_lt_dec 0 (T_loan i)) as [Ht | Ht];
    [|rewrite annual_debt_service_no_term by lia; lra].
  assert (HL : 0 <= loan_amount i).
  { unfold loan_amount. apply Rmult_le_pos; lra. }
  assert (HT : 0 < IZR (T_loan i)) by now apply IZR_lt.
  destruct (Rlt_dec 0 (r_debt i)) as [Hr | Hr].
  - rewrite annual_debt_service_annuity_formula by assumption.
    assert (Hrm : 0 < r_monthly i) by (unfold r_monthly; lra).
    destruct (annuity_discount_bounds (r_monthly i) (Z.to_nat (n_months i)) Hrm)
      as [HD _]; [unfold n_months; lia|].
    apply Rmult_le_pos; [|lra]. apply Rmult_le_pos.
    + apply Rmult_le_pos; lra.
    + left. now apply Rinv_0_lt_compat.
  - rewrite annual_debt_service_straight_line by (try assumption; lra).
    apply Rmult_le_pos; [exact HL|]. left. now apply Rinv_0_lt_compat.
Qed.

(** X19.  When the base unit cost is not negative and the loan fee is at
    least -100%, the chart has one bar group per year record, named by its
    calendar year, whose capital and debt bars are never positive and whose
    four bars (revenue, operating cost, capital, debt) add up to the cash
    flow of that year. *)
Theorem cash_flow_bars_add_up (i : Inputs) :
  (0 <= T_project i)%Z ->
  0 <= CAPEX_unit1 i ->
  -100 <= f_loan_fees i ->
  exists res : ModelResult,
    runFinancialModel i = Some res /\
    length (cashFlowData res) = length (res_years res) /\
    forall k yr bar,
      nth_error (res_years res) k = Some yr ->
      nth_error (cashFlowData res) k = Some bar ->
      bar_name bar = (Y_start i + Z.of_nat k)%Z /\
      bar_CAPEX bar <= 0 /\ bar_Debt bar <= 0 /\
      bar_Revenue bar + bar_OPEX bar + bar_CAPEX bar + bar_Debt bar = yr_CF yr /\
      bar_CumNPV bar = yr_cumNPV yr.
Proof.
  intros HT HC Hf. destruct (runFinancialModel_returns i HT) as [res Hres].
  destruct (runFinancialModel_fields i res Hres) as (Hyears & _).
  exists res. split; [exact Hres|]. unfold cashFlowData.
  split; [apply length_map|].
  intros k yr bar Hyr Hbar. rewrite nth_error_map, Hyr in Hbar.
  injection Hbar as <-. simpl.
  rewrite Hyears in Hyr. destruct (nth_error_years i k yr Hyr) as [_ ->]. simpl.
  assert (Hcap : 0 <= capex_year i k) by now apply capex_year_nonneg.
  assert (Hds : 0 <= DS i k).
  { unfold DS. pose proof (annual_debt_service_nonneg i Hf).
    destruct (Z.of_nat k <? T_loan i)%Z; lra. }
  split; [reflexivity|].
  unfold Rltb. destruct (Rlt_dec 0 (capex_year i k)), (Rlt_dec 0 (DS i k));
    unfold CF; repeat split; lra.
Qed.

(** ** More on the result *)



Lemma year_loop_year_1 (i : Inputs) :
  (1 <= T_project i)%Z ->
  yr1 i = Some (year_record i 1 (cumulative_dcf_after i 1)).
Proof.
  intros HT. unfold yr1. rewrite years_explicit. unfold project_years.
  rewrite nth_error_map_seq.
  destruct (Nat.ltb_spec 1 (Z.to_nat (T_project i + 1))); [reflexivity | lia].
Qed.

Lemma per_unit_sum (yr : YearRecord) (a b c d : R) :
  per_unit yr (a + b + c + d) =
    per_unit yr a + per_unit yr b + per_unit yr c + per_unit yr d.
Proof.
  unfold per_unit. destruct (0 <? yr_N_deployed yr)%Z eqn:E; [|lra].
  apply Z.ltb_lt in E. apply IZR_lt in E. field. lra.
Qed.

(** X21.  With a horizon of at least one year the year-1 figures of a run
    come from the record of year 1.  In every run the four per-unit stream
    figures add up to the per-unit revenue, and per-unit revenue times the
    units deployed in that record gives back its total revenue when any unit
    is deployed. *)
Theorem year1_figures (i : Inputs) :
  (0 <= T_project i)%Z ->
  exists (res : ModelResult) (y1 : YearRecord),
    runFinancialModel i = Some res /\
    In y1 (res_years res) /\
    ((1 <= T_project i)%Z -> yr_y y1 = 1%nat) /\
    res_yr1_revenue res = yr_R_total y1 /\
    res_yr1_opex res = yr_OPEX y1 /\
    res_yr1_ebitda res = yr_EBITDA y1 /\
    res_R_per_unit res =
      res_R_per_unit_power res + res_R_per_unit_therm res +
      res_R_per_unit_tip res + res_R_per_unit_carbon res /\
    ((0 < yr_N_deployed y1)%Z ->
     res_R_per_unit res * IZR (yr_N_deployed y1) = res_yr1_revenue res) /\
    ((yr_N_deployed y1 <= 0)%Z -> res_R_per_unit res = 0).
Proof.
  intros HT. destruct (runFinancialModel_returns i HT) as [res Hres].
  destruct (runFinancialModel_fields i res Hres) as (Hyears & _).
  destruct (runFinancialModel_year1_fields i res Hres)
    as (y1 & Hy1 & Hpu & Hpp & Hpt & Hpi & Hpc & Hrev & Hopex & Hebitda).
  assert (Hin : In y1 (years (year_loop i))).
  { unfold yr1 in Hy1.
    destruct (nth_error (years (year_loop i)) 1) as [yr|] eqn:E.
    - injection Hy1 as <-. eapply nth_error_In; eassumption.
    - eapply nth_error_In; eassumption. }
  exists res, y1. split; [exact Hres|]. rewrite Hyears.
  split; [exact Hin|].
  split.
  { intros H1. rewrite (year_loop_year_1 i H1) in Hy1. now injection Hy1 as <-. }
  split; [exact Hrev|]. split; [exact Hopex|]. split; [exact Hebitda|].
  assert (Htot : yr_R_total y1 =
                 yr_R_pwr y1 + yr_R_thrm y1 + yr_R_tip y1 + yr_R_crb y1).
  { destruct (in_years_explicit i y1 Hin) as [-> _]. reflexivity. }
  split.
  { rewrite Hpu, Hpp, Hpt, Hpi, Hpc, Htot. apply per_unit_sum. }
  rewrite Hpu, Hrev. unfold per_unit. split; intros HN.
  - assert (E : (0 <? yr_N_deployed y1)%Z = true) by now apply Z.ltb_lt.
    rewrite E. apply IZR_lt in HN. field. lra.
  - assert (E : (0 <? yr_N_deployed y1)%Z = false) by now apply Z.ltb_ge.
    now rewrite E.
Qed.

Lemma DS_total (i : Inputs) (n : nat) :
  sum_list (map (DS i) (seq 0 n)) =
    annual_debt_service i * IZR (Z.min (Z.of_nat n) (Z.max 0 (T_loan i))).
Proof.
  induction n as [|n IH].
  - unfold sum_list. simpl.
    replace (Z.min 0 (Z.max 0 (T_loan i))) with 0%Z by lia. lra.
  - rewrite seq_S, map_app, sum_list_app, IH. simpl map.
    rewrite sum_list_cons. unfold sum_list at 1. simpl fold_left.
    unfold DS. destruct (Z.of_nat n <? T_loan i)%Z eqn:E.
    + apply Z.ltb_lt in E.
      replace (Z.min (Z.of_nat (S n)) (Z.max 0 (T_loan i)))
        with (Z.min (Z.of_nat n) (Z.max 0 (T_loan i)) + 1)%Z by lia.
      rewrite plus_IZR. lra.
    + apply Z.ltb_ge in E.
      replace (Z.min (Z.of_nat (S n)) (Z.max 0 (T_loan i)))
        with (Z.min (Z.of_nat n) (Z.max 0 (T_loan i))) by lia.
      lra.
Qed.

(** X22.  Debt service is charged in the years before the loan term ends and
    in no later year: a record at or after the term has no debt service and
    no coverage ratio, and the debt service of all records adds up to the
    annual payment times the number of simulated years that lie within the
    term. *)
Theorem debt_service_stops_at_term (i : Inputs) :
  (0 <= T_project i)%Z ->
  exists res : ModelResult,
    runFinancialModel i = Some res /\
    (forall yr, In yr (res_years res) ->
       ((Z.of_nat (yr_y yr) < T_loan i)%Z ->
        yr_DS yr = res_annual_debt_service res) /\
       ((T_loan i <= Z.of_nat (yr_y yr))%Z ->
        yr_DS yr = 0 /\ yr_DSCR yr = None)) /\
    sum_list (map yr_DS (res_years res)) =
      res_annual_debt_service res *
      IZR (Z.min (T_project i + 1) (Z.max 0 (T_loan i))).
Proof.
  intros HT. destruct (runFinancialModel_returns i HT) as [res Hres].
  destruct (runFinancialModel_fields i res Hres)
    as (Hyears & _ & _ & _ & _ & _ & _ & _ & Hads).
  exists res. split; [exact Hres|]. rewrite Hyears, Hads. split.
  - intros yr Hin. destruct (in_years_explicit i yr Hin) as [-> _]. simpl.
    unfold DSCR, DS. split; intros H.
    + apply Z.ltb_lt in H. now rewrite H.
    + apply Z.ltb_ge in H. rewrite H. split; [reflexivity|].
      now rewrite Rltb_false by lra.
  - rewrite years_explicit, map_map. unfold project_years.
    replace (T_project i + 1)%Z with (Z.of_nat (Z.to_nat (T_project i + 1)))
      at 2 by lia.
    rewrite <- DS_total. reflexivity.
Qed.

(** ** What the discount rate does not touch *)

Lemma irr_loop_ext (l1 l2 : list YearRecord) (n : nat) :
  (forall r, npv_test l1 r = npv_test l2 r) ->
  forall lo hi, irr_loop l1 n lo hi = irr_loop l2 n lo hi.
Proof.
  intros H. induction n as [|n IH]; intros lo hi; simpl.
  - reflexivity.
  - rewrite H. destruct (Rltb 0 (npv_test l2 ((lo + hi) / 2)));
      destruct (Rltb _ 0.0001); try reflexivity; apply IH.
Qed.

Lemma irr_of_ext (l1 l2 : list YearRecord) :
  (forall r, npv_test l1 r = npv_test l2 r) -> irr_of l1 = irr_of l2.
Proof.
  intros H. unfold irr_of. now rewrite (irr_loop_ext l1 l2 100 H).
Qed.

(** X23.  The discount rate enters a run through discounting alone: changing
    it, all else fixed, leaves the yearly cash flows, the IRR and the simple
    payback year as they were. *)
Theorem discount_rate_leaves_irr_and_simple_payback (i : Inputs) (r : R) :
  (0 <= T_project i)%Z ->
  exists res res' : ModelResult,
    runFinancialModel i = Some res /\
    runFinancialModel (with_r_disc i r) = Some res' /\
    map yr_CF (res_years res') = map yr_CF (res_years res) /\
    res_IRR res' = res_IRR res /\
    res_payback_simple res' = res_payback_simple res.
Proof.
  intros HT.
  destruct (runFinancialModel_returns i HT) as [res Hres].
  destruct (runFinancialModel_returns (with_r_disc i r) HT) as [res' Hres'].
  destruct (runFinancialModel_fields _ _ Hres) as (Hy & _ & Hirr & _ & Hps & _).
  destruct (runFinancialModel_fields _ _ Hres') as (Hy' & _ & Hirr' & _ & Hps' & _).
  exists res, res'. split; [exact Hres|]. split; [exact Hres'|].
  rewrite Hy, Hy', Hirr, Hirr', Hps, Hps'. split; [|split].
  - rewrite !years_cash_flows. reflexivity.
  - rewrite !IRR_unfold. apply irr_of_ext. intros x.
    rewrite !npv_test_years. reflexivity.
  - apply (payback_found_unique (cumulative_cf_after (with_r_disc i r))
             (cumulative_cf_after i) (Z.to_nat (T_project i + 1))).
    + intros k. reflexivity.
    + apply (loop_payback_simple (with_r_disc i r)).
    + apply loop_payback_simple.
Qed.

(** ** Runs on the starting inputs *)

Lemma cumulative_npv_is_running_sum_witness :
  exists res : ModelResult,
    runFinancialModel defaults = Some res /\
    (forall k yr, nth_error (res_years res) k = Some yr ->
       yr_cumNPV yr = sum_list (map yr_DCF (firstn (S k) (res_years res)))) /\
    last (map yr_cumNPV (res_years res)) 0 = res_NPV res /\
    res_NPV res = sum_list (map yr_DCF (res_years res)).
Proof.
  apply (cumulative_npv_is_running_sum defaults).
  - simpl. lia.
Defined.

Lemma payback_disc_is_first_recovery_witness :
  exists res : ModelResult,
    runFinancialModel defaults = Some res /\
    match res_payback_disc res with
    | Some p =>
        (1 <= p)%nat /\
        (exists yr, nth_error (res_years res) p = Some yr /\ 0 <= yr_cumNPV yr) /\
        (forall k yr, (1 <= k < p)%nat ->
           nth_error (res_years res) k = Some yr -> yr_cumNPV yr < 0)
    | None =>
        forall k yr, (1 <= k)%nat ->
          nth_error (res_years res) k = Some yr -> yr_cumNPV yr < 0
    end.
Proof.
  apply (payback_disc_is_first_recovery defaults).
  - simpl. lia.
  - simpl. lra.
Defined.

Lemma payback_simple_is_first_recovery_witness :
  exists res : ModelResult,
    runFinancialModel defaults = Some res /\
    match res_payback_simple res with
    | Some p =>
        (1 <= p)%nat /\ (Z.of_nat p <= T_project defaults)%Z /\
        0 <= sum_list (map yr_CF (firstn (S p) (res_years res))) /\
        (forall k, (1 <= k < p)%nat ->
           sum_list (map yr_CF (firstn (S k) (res_years res))) < 0)
    | None =>
        forall k, (1 <= k)%nat -> (Z.of_nat k <= T_project defaults)%Z ->
          sum_list (map yr_CF (firstn (S k) (res_years res))) < 0
    end.
Proof.
  apply (payback_simple_is_first_recovery defaults).
  - simpl. lia.
Defined.

Lemma zero_rate_paybacks_coincide_witness :
  exists res : ModelResult,
    runFinancialModel worked = Some res /\
    res_payback_disc res = res_payback_simple res /\
    res_NPV res = sum_list (map yr_CF (res_years res)).
Proof.
  apply (zero_rate_paybacks_coincide worked).
  - simpl. lia.
  - reflexivity.
Defined.

Lemma deployed_units_grow_to_fleet_witness :
  exists res : ModelResult,
    runFinancialModel defaults = Some res /\
    (forall yr, In yr (res_years res) ->
       (yr_N_deployed yr <= N_units defaults)%Z /\
       ((1 <= N_units defaults)%Z -> (1 <= yr_N_deployed yr)%Z)) /\
    (forall k1 k2 yr1 yr2, (k1 <= k2)%nat ->
       nth_error (res_years res) k1 = Some yr1 ->
       nth_error (res_years res) k2 = Some yr2 ->
       (yr_N_deployed yr1 <= yr_N_deployed yr2)%Z).
Proof.
  apply (deployed_units_grow_to_fleet defaults).
  - simpl. lia.
  - simpl. lra.
Defined.

Lemma capital_recognised_once_per_unit_witness :
  exists res : ModelResult,
    runFinancialModel defaults = Some res /\
    sum_list (map yr_capex_year (res_years res)) =
      sum_list (firstn (Z.to_nat (N_deployed defaults (Z.to_nat (T_project defaults))))
                       (res_unit_capex res)) /\
    (N_deployed defaults (Z.to_nat (T_project defaults)) = N_units defaults ->
     sum_list (map yr_capex_year (res_years res)) = res_capex_fleet_total res).
Proof.
  apply (capital_recognised_once_per_unit defaults).
  - simpl. lia.
  - simpl. lra.
  - simpl. lra.
  - simpl. lia.
Defined.

Lemma minimum_dscr_is_least_yearly_ratio_witness :
  exists res : ModelResult,
    runFinancialModel defaults = Some res /\
    (forall yr, In yr (res_years res) ->
       (0 < yr_DS yr -> yr_DSCR yr = Some (yr_EBITDA yr / yr_DS yr)) /\
       (yr_DS yr <= 0 -> yr_DSCR yr = None)) /\
    match res_DSCR_min res with
    | Some m =>
        (exists yr, In yr (res_years res) /\ yr_DSCR yr = Some m) /\
        (forall yr d, In yr (res_years res) -> yr_DSCR yr = Some d -> m <= d)
    | None => forall yr, In yr (res_years res) -> yr_DSCR yr = None
    end.
Proof.
  apply (minimum_dscr_is_least_yearly_ratio defaults).
  - simpl. lia.
Defined.

Lemma warnings_agree_with_cards_witness :
  exists res : ModelResult,
    runFinancialModel defaults = Some res /\
    (forall r, In (NPV_negative r) (res_warnings res) <->
               res_NPV res < 0 /\ r = r_disc defaults) /\
    (res_NPV res < 0 -> npv_status res = status_error) /\
    (In DSCR_below_1 (res_warnings res) <->
     dscr_status res = Some status_error) /\
    (In DSCR_below_covenant (res_warnings res) <->
     dscr_status res = Some status_warn) /\
    ~ (In DSCR_below_1 (res_warnings res) /\
       In DSCR_below_covenant (res_warnings res)).
Proof.
  apply (warnings_agree_with_cards defaults).
  - simpl. lia.
Defined.

Lemma payback_card_shows_reported_year_witness :
  exists res : ModelResult,
    runFinancialModel defaults = Some res /\
    payback_value defaults res =
      match res_payback_disc res with
      | Some p => inl p
      | None => inr (T_project defaults)
      end /\
    (forall p, res_payback_disc res = Some p ->
       (1 <= p)%nat /\ (Z.of_nat p <= T_project defaults)%Z /\
       payback_status res =
         if Nat.ltb p 4 then status_ok
         else if Nat.ltb p 7 then status_warn else status_error) /\
    (res_payback_disc res = None -> payback_status res = status_error).
Proof.
  apply (payback_card_shows_reported_year defaults).
  - simpl. lia.
Defined.

Lemma cash_flow_bars_add_up_witness :
  exists res : ModelResult,
    runFinancialModel defaults = Some res /\
    length (cashFlowData res) = length (res_years res) /\
    forall k yr bar,
      nth_error (res_years res) k = Some yr ->
      nth_error (cashFlowData res) k = Some bar ->
      bar_name bar = (Y_start defaults + Z.of_nat k)%Z /\
      bar_CAPEX bar <= 0 /\ bar_Debt bar <= 0 /\
      bar_Revenue bar + bar_OPEX bar + bar_CAPEX bar + bar_Debt bar = yr_CF yr /\
      bar_CumNPV bar = yr_cumNPV yr.
Proof.
  apply (cash_flow_bars_add_up defaults).
  - simpl. lia.
  - unfold CAPEX_unit1. simpl. lra.
  - simpl. lra.
Defined.


Lemma year1_figures_witness :
  exists (res : ModelResult) (y1 : YearRecord),
    runFinancialModel defaults = Some res /\
    In y1 (res_years res) /\
    ((1 <= T_project defaults)%Z -> yr_y y1 = 1%nat) /\
    res_yr1_revenue res = yr_R_total y1 /\
    res_yr1_opex res = yr_OPEX y1 /\
    res_yr1_ebitda res = yr_EBITDA y1 /\
    res_R_per_unit res =
      res_R_per_unit_power res + res_R_per_unit_therm res +
      res_R_per_unit_tip res + res_R_per_unit_carbon res /\
    ((0 < yr_N_deployed y1)%Z ->
     res_R_per_unit res * IZR (yr_N_deployed y1) = res_yr1_revenue res) /\
    ((yr_N_deployed y1 <= 0)%Z -> res_R_per_unit res = 0).
Proof.
  apply (year1_figures defaults).
  - simpl. lia.
Defined.

Lemma debt_service_stops_at_term_witness :
  exists res : ModelResult,
    runFinancialModel defaults = Some res /\
    (forall yr, In yr (res_years res) ->
       ((Z.of_nat (yr_y yr) < T_loan defaults)%Z ->
        yr_DS yr = res_annual_debt_service res) /\
       ((T_loan defaults <= Z.of_nat (yr_y yr))%Z ->
        yr_DS yr = 0 /\ yr_DSCR yr = None)) /\
    sum_list (map yr_DS (res_years res)) =
      res_annual_debt_service res *
      IZR (Z.min (T_project defaults + 1) (Z.max 0 (T_loan defaults))).
Proof.
  apply (debt_service_stops_at_term defaults).
  - simpl. lia.
Defined.

Lemma discount_rate_leaves_irr_and_simple_payback_witness :
  exists res res' : ModelResult,
    runFinancialModel defaults = Some res /\
    runFinancialModel (with_r_disc defaults 12) = Some res' /\
    map yr_CF (res_years res') = map yr_CF (res_years res) /\
    res_IRR res' = res_IRR res /\
    res_payback_simple res' = res_payback_simple res.
Proof.
  apply (discount_rate_leaves_irr_and_simple_payback defaults 12).
  simpl. lia.
Defined.

(** ** The cap at work *)

(** In year 1 of [capped_waste] two units could take 730 tons of a supply of
    365: the tonnage behind the tipping revenue is the supply. *)
Lemma tipped_tonnage_capped_witness :
  In (year_record capped_waste 1 (cumulative_dcf_after capped_waste 1))
     (years (year_loop capped_waste)) /\
  W_tpy capped_waste = 365 /\
  IZR (yr_N_deployed
         (year_record capped_waste 1 (cumulative_dcf_after capped_waste 1))) *
    F_tpy capped_waste = 730 /\
  yr_R_tip (year_record capped_waste 1 (cumulative_dcf_after capped_waste 1)) =
    W_tipped capped_waste 1 * R_tipping capped_waste * esc_tip capped_waste 1 /\
  W_tipped capped_waste 1 =
    Rmin (IZR (yr_N_deployed
                 (year_record capped_waste 1 (cumulative_dcf_after capped_waste 1))) *
          F_tpy capped_waste)
         (W_tpy capped_waste) /\
  W_tipped capped_waste 1 <= W_tpy capped_waste /\
  (W_tpy capped_waste <
     IZR (yr_N_deployed
            (year_record capped_waste 1 (cumulative_dcf_after capped_waste 1))) *
     F_tpy capped_waste ->
   W_tipped capped_waste 1 = W_tpy capped_waste).
Proof.
  assert (Hin : In (year_record capped_waste 1 (cumulative_dcf_after capped_waste 1))
                   (years (year_loop capped_waste))).
  { rewrite years_explicit. apply in_map_iff. exists 1%nat.
    split; [reflexivity|]. unfold project_years. simpl. right. left. reflexivity. }
  split; [exact Hin|].
  split; [reflexivity|].
  split.
  { destruct capped_waste_deployment as (_ & _ & D1 & _).
    simpl yr_N_deployed. rewrite D1. unfold F_tpy. simpl. lra. }
  exact (tipped_tonnage_capped capped_waste
           (year_record capped_waste 1 (cumulative_dcf_after capped_waste 1)) Hin).
Defined.
